(** * PDF_Edit: a shallow embedding of [pdf_edit/PDFEditor.py] and
      [pdf_edit/FontManager.py]

    The two Python classes are glue around four libraries: PyMuPDF
    ([fitz]), PyPDF2, [requests] and the [os]/[sys] modules.  The embedding keeps the
    code of the two classes as it is written and treats every library call
    as an oracle that either returns a value or raises:

    - Python values that flow through the code untyped (the structured text
      dictionary, the [properties] dictionary, font names, sizes and colours)
      are values of [PyVal]; subscripting, [in], truthiness and arithmetic on
      them raise the exceptions Python raises;
    - floats are IEEE binary64 ([PrimFloat]), as Python's are;
    - [try]/[except] blocks are [try_except] in a state-and-exception monad;
      mutations made before an exception is raised persist;
    - the page object is an alias into the document object: page methods act
      on the document state;
    - every library call is recorded in a log, so that "is called", "is not
      called" and "is called with" can be stated.

    Console output ([print], all of it gated by [verbose] or inside an
    [except] handler) is not modelled. *)

From Stdlib Require Import ZArith Floats Lia Ascii.
From stdpp Require Import base option list strings gmap.

Set Warnings "-register-all,-inexact-float".

Local Open Scope string_scope.
Local Open Scope list_scope.
Local Open Scope Z_scope.

(** ** Exceptions and results *)

(** The exception classes that the code or the modelled built-ins raise, and
    [LibraryError] for whatever a library call raises.  All of them derive
    from [Exception]. *)
Inductive PyExc : Type :=
  | IndexError
  | KeyError
  | TypeError
  | AttributeError
  | OverflowError
  | LibraryError (msg : string).

Inductive Res (A : Type) : Type :=
  | Ok (a : A)
  | Raise (e : PyExc).
Arguments Ok {A} a.
Arguments Raise {A} e.

#[global] Instance Res_ret : MRet Res := @Ok.
#[global] Instance Res_bind : MBind Res := λ A B f m,
  match m with Ok a => f a | Raise e => Raise e end.

Definition is_ok {A} (r : Res A) : bool :=
  match r with Ok _ => true | Raise _ => false end.

(** ** Python strings (ASCII text) *)

Module Str.

Definition lower_ascii (c : ascii) : ascii :=
  let n := nat_of_ascii c in
  if ((65 <=? n) && (n <=? 90))%nat then ascii_of_nat (n + 32) else c.

(** [s.lower()] on ASCII text: [A]-[Z] become [a]-[z].  Outside ASCII
    Python lowers by Unicode rules, which this does not follow; statements
    that depend on the lowering of a given name assume the name is ASCII
    ([is_ascii]). *)
Fixpoint lower (s : string) : string :=
  match s with
  | EmptyString => EmptyString
  | String c s' => String (lower_ascii c) (lower s')
  end.

Fixpoint drop (n : nat) (s : string) : string :=
  match n, s with
  | O, _ => s
  | S _, EmptyString => EmptyString
  | S n', String _ s' => drop n' s'
  end.

(** Offset of the first occurrence of [sub] in [s]. *)
Fixpoint index (sub s : string) : option nat :=
  if String.prefix sub s then Some O
  else match s with
       | EmptyString => None
       | String _ s' => S <$> index sub s'
       end.

(** [sub in s] *)
Definition contains (sub s : string) : bool :=
  match index sub s with Some _ => true | None => false end.

(** [s.find(sub, start)] *)
Definition find (s sub : string) (start : Z) : Z :=
  let n := Z.of_nat (String.length s) in
  let st := if start <? 0 then Z.max 0 (start + n) else start in
  if n <? st then -1
  else match index sub (drop (Z.to_nat st) s) with
       | Some i => st + Z.of_nat i
       | None => -1
       end.

(** [s[a:b]] *)
Definition slice (s : string) (a b : Z) : string :=
  let n := Z.of_nat (String.length s) in
  let clamp i := if i <? 0 then Z.max 0 (i + n) else Z.min i n in
  let a' := clamp a in
  let b' := clamp b in
  if b' <=? a' then EmptyString
  else String.substring (Z.to_nat a') (Z.to_nat (b' - a')) s.

(** [s.endswith(suffix)] *)
Definition endswith (s suffix : string) : bool :=
  let n := String.length s in
  let m := String.length suffix in
  ((m <=? n)%nat && String.eqb (drop (n - m) s) suffix).

Fixpoint replace_go (old new : string) (skip : nat) (s : string) : string :=
  match s with
  | EmptyString => EmptyString
  | String c s' =>
      match skip with
      | S k => replace_go old new k s'
      | O =>
          if String.prefix old s
          then new +:+ replace_go old new (String.length old - 1) s'
          else String c (replace_go old new O s')
      end
  end.

Fixpoint replace_empty (new s : string) : string :=
  match s with
  | EmptyString => new
  | String c s' => new +:+ String c (replace_empty new s')
  end.

(** [s.replace(old, new)]: every non-overlapping occurrence, left to
    right. *)
Definition replace (s old new : string) : string :=
  match old with
  | EmptyString => replace_empty new s
  | String _ _ => replace_go old new O s
  end.

End Str.

(** ** Python values *)

Inductive PyVal : Type :=
  | PNone
  | PBool (b : bool)
  | PInt (z : Z)
  | PFloat (f : float)
  | PStr (s : string)
  | PTuple (l : list PyVal)
  | PList (l : list PyVal)
  | PDict (d : gmap string PyVal).

(** [bool(v)] *)
Definition truthy (v : PyVal) : bool :=
  match v with
  | PNone => false
  | PBool b => b
  | PInt z => negb (z =? 0)
  | PFloat f => negb (PrimFloat.eqb f 0%float)
  | PStr s => negb (String.eqb s "")
  | PTuple l | PList l => negb (Nat.eqb (length l) 0)
  | PDict d => negb (Nat.eqb (size d) 0)
  end.

(** [isinstance(v, dict)] *)
Definition isinstance_dict (v : PyVal) : bool :=
  match v with PDict _ => true | _ => false end.

(** [v[i]] for an [int] index *)
Definition seq_index {A} (l : list A) (i : Z) : Res A :=
  let n := Z.of_nat (length l) in
  let j := if i <? 0 then i + n else i in
  if (j <? 0) || (n <=? j) then Raise IndexError
  else match l !! Z.to_nat j with
       | Some x => Ok x
       | None => Raise IndexError
       end.

Definition getitem_int (v : PyVal) (i : Z) : Res PyVal :=
  match v with
  | PList l | PTuple l => seq_index l i
  | PStr s => c ← seq_index (String.list_ascii_of_string s) i; Ok (PStr (String c EmptyString))
  | PDict _ => Raise KeyError
  | PNone | PBool _ | PInt _ | PFloat _ => Raise TypeError
  end.

(** [v[k]] for a [str] key *)
Definition getitem_str (v : PyVal) (k : string) : Res PyVal :=
  match v with
  | PDict d => match d !! k with Some x => Ok x | None => Raise KeyError end
  | _ => Raise TypeError
  end.

Definition is_str (k : string) (v : PyVal) : bool :=
  match v with PStr s => String.eqb s k | _ => false end.

(** [k in v] for a [str] [k] *)
Definition contains_str (k : string) (v : PyVal) : Res bool :=
  match v with
  | PDict d => Ok (bool_decide (is_Some (d !! k)))
  | PList l | PTuple l => Ok (existsb (is_str k) l)
  | PStr s => Ok (Str.contains k s)
  | PNone | PBool _ | PInt _ | PFloat _ => Raise TypeError
  end.

(** [hash(v)] succeeds *)
Fixpoint hashable (v : PyVal) : bool :=
  match v with
  | PList _ | PDict _ => false
  | PTuple l => forallb hashable l
  | _ => true
  end.

(** The receiver of a [str] method: anything else has no such attribute. *)
Definition as_str (v : PyVal) : Res string :=
  match v with PStr s => Ok s | _ => Raise AttributeError end.

(** Conversion of an [int] to a float: round to nearest even, and
    [OverflowError] when the integer is too large. *)
Definition int_to_float (z : Z) : Res float :=
  let f := SF2Prim (binary_normalize 53 1024 z 0 false) in
  if is_infinity f then Raise OverflowError else Ok f.

(** The numeric operand of float arithmetic. *)
Definition to_float (v : PyVal) : Res float :=
  match v with
  | PFloat f => Ok f
  | PInt z => int_to_float z
  | PBool b => Ok (if b then 1%float else 0%float)
  | PNone | PStr _ | PTuple _ | PList _ | PDict _ => Raise TypeError
  end.

(** [v * c] and [v + c] for a float [c] *)
Definition mul_float (v : PyVal) (c : float) : Res float :=
  f ← to_float v; Ok (f * c)%float.
Definition add_float (v : PyVal) (c : float) : Res float :=
  f ← to_float v; Ok (f + c)%float.

(** ** Geometry of PyMuPDF *)

Record Rect : Type := mkRect { x0 : float; y0 : float; x1 : float; y1 : float }.
Record Point : Type := mkPoint { px : float; py : float }.

(** ** The log of library calls *)

Inductive Event : Type :=
  | EvFindFont (font_name : PyVal)     (* FontManager.find_font is entered *)
  | EvExists (path : string)           (* os.path.exists *)
  | EvWalk (directory : string)        (* os.walk *)
  | EvHttpGet (url : string)           (* requests.get *)
  | EvMakedirs (directory : string)    (* os.makedirs *)
  | EvWriteFile (path : string)        (* open(path, "wb") and write *)
  | EvOpen (filename : option string)  (* fitz.open *)
  | EvLoadPage (page_number : Z)       (* doc[page_number] *)
  | EvSearch (needle : string)         (* page.search_for *)
  | EvGetText (clip : Rect)            (* page.get_text("dict", clip=...) *)
  | EvRedactAnnot (quad : Rect)        (* page.add_redact_annot *)
  | EvApplyRedactions                  (* page.apply_redactions *)
  | EvLoadFont (font_file : string)    (* page.parent.load_font *)
  | EvInsertText (position : Point) (text : string)
                 (fontname fontsize color : PyVal)  (* page.insert_text *)
  | EvSave (output_path : string).     (* doc.save *)

(** ** State and exceptions *)

Definition M (S A : Type) : Type := S → S * Res A.

#[global] Instance M_ret S : MRet (M S) := λ A a s, (s, Ok a).
#[global] Instance M_bind S : MBind (M S) := λ A B f m s,
  match m s with
  | (s', Ok a) => f a s'
  | (s', Raise e) => (s', Raise e)
  end.

Definition lift {S A} (r : Res A) : M S A := λ s, (s, r).

(** [try: m  except Exception as e: h e] *)
Definition try_except {S A} (m : M S A) (h : PyExc → M S A) : M S A := λ s,
  match m s with
  | (s', Raise e) => h e s'
  | (s', Ok a) => (s', Ok a)
  end.

(** ** The operating system and the network *)

Record Response : Type := mkResponse {
  status_code : Z;
  text : string;
  content : string;
  content_type : option string   (* headers.get("Content-Type") *)
}.

(** What [sys], [os] and [requests] do, over a world state [W].  [walk]
    gives the [(root, files)] pairs of [os.walk] for the whole tree, in the
    order the generator yields them; [path_join] is [os.path.join] with its
    first argument apart. *)
Record Platform (W : Type) : Type := mkPlatform {
  sys_platform : string;
  environ : gmap string string;
  path_join : string → list string → string;
  expanduser : string → string;
  path_exists : string → W → bool;
  walk : string → W → list (string * list string);
  makedirs : string → W → W * Res ();
  write_file : string → string → W → W * Res ();
  requests_get : string → W → W * Res Response
}.
Arguments sys_platform {W} _.
Arguments environ {W} _.
Arguments path_join {W} _ _ _.
Arguments expanduser {W} _ _.
Arguments path_exists {W} _ _ _.
Arguments walk {W} _ _ _.
Arguments makedirs {W} _ _ _.
Arguments write_file {W} _ _ _ _.
Arguments requests_get {W} _ _ _.

Record Sys (W : Type) : Type := mkSys { world : W; log : list Event }.
Arguments mkSys {W} _ _.
Arguments world {W} _.
Arguments log {W} _.

Definition emit {W} (ev : Event) : M (Sys W) () := λ s,
  (mkSys (world s) (log s ++ [ev]), Ok ()).

Definition call_world {W A} (f : W → W * Res A) : M (Sys W) A := λ s,
  let '(w, r) := f (world s) in (mkSys w (log s), r).

Definition read_world {W A} (f : W → A) : M (Sys W) A := λ s,
  (s, Ok (f (world s))).

(** Truth value of an [Optional[str]]. *)
Definition path_truthy (p : option string) : bool :=
  match p with
  | Some s => negb (String.eqb s "")
  | None => false
  end.

(** ** FontManager.py *)

Module FontManager.
Section FontManager.

Context {W : Type} (P : Platform W).

Definition font_extensions : list string := [".ttf"; ".otf"; ".woff"; ".woff2"].

(** [os.environ[key]] *)
Definition environ_getitem (key : string) : Res string :=
  match environ P !! key with
  | Some v => Ok v
  | None => Raise KeyError
  end.

Definition get_system_font_dirs : Res (list string) :=
  if String.eqb (sys_platform P) "win32" then
    windir ← environ_getitem "WINDIR";
    localappdata ← environ_getitem "LOCALAPPDATA";
    Ok [ path_join P windir ["Fonts"];
         path_join P localappdata ["Microsoft"; "Windows"; "Fonts"] ]
  else if String.eqb (sys_platform P) "darwin" then
    Ok [ "/Library/Fonts";
         "/System/Library/Fonts";
         expanduser P "~/Library/Fonts" ]
  else
    Ok [ "/usr/share/fonts";
         "/usr/local/share/fonts";
         expanduser P "~/.fonts";
         expanduser P "~/.local/share/fonts" ].

(** The [any(...)] test of [_search_font_in_directory]. *)
Definition file_matches (font_name_lower file : string) : bool :=
  let file_lower := Str.lower file in
  existsb (λ ext, Str.contains font_name_lower file_lower
                  && Str.endswith file_lower ext)
          font_extensions.

(** The two nested [for] loops over [os.walk(directory)]. *)
Fixpoint search_walk (font_name_lower : string)
    (entries : list (string * list string)) : option string :=
  match entries with
  | [] => None
  | (root, files) :: rest =>
      match List.find (file_matches font_name_lower) files with
      | Some file => Some (path_join P root [file])
      | None => search_walk font_name_lower rest
      end
  end.

Definition _search_font_in_directory (directory : string) (font_name : PyVal)
    : M (Sys W) (option string) :=
  name ← lift (as_str font_name);
  let font_name_lower := Str.replace (Str.lower name) " " "" in
  _ ← emit (EvWalk directory);
  entries ← read_world (walk P directory);
  mret (search_walk font_name_lower entries).

(** The [for font_dir in font_dirs] loop of [find_font_in_system]. *)
Fixpoint search_dirs (font_name : PyVal) (font_dirs : list string)
    : M (Sys W) (option string) :=
  match font_dirs with
  | [] => mret None
  | font_dir :: rest =>
      _ ← emit (EvExists font_dir);
      present ← read_world (path_exists P font_dir);
      if negb present then search_dirs font_name rest
      else
        font_path ← _search_font_in_directory font_dir font_name;
        if path_truthy font_path then mret font_path
        else search_dirs font_name rest
  end.

Definition find_font_in_system (font_name : PyVal) : M (Sys W) (option string) :=
  font_dirs ← lift get_system_font_dirs;
  search_dirs font_name font_dirs.

Definition get_font_save_directory : Res string :=
  if String.eqb (sys_platform P) "win32" then
    localappdata ← environ_getitem "LOCALAPPDATA";
    Ok (path_join P localappdata ["Microsoft"; "Windows"; "Fonts"])
  else if String.eqb (sys_platform P) "darwin" then
    Ok (expanduser P "~/Library/Fonts")
  else
    Ok (expanduser P "~/.local/share/fonts").

Definition get_font_extension (content_type : string) : string :=
  if Str.contains "woff2" content_type then ".woff2"
  else if Str.contains "woff" content_type then ".woff"
  else if Str.contains "opentype" content_type then ".otf"
  else ".ttf".

Definition _extract_font_url (css_content : string) : option string :=
  let url_start := Str.find css_content "url(" 0 + 4 in
  let url_end := Str.find css_content ")" url_start in
  if (url_start <? 4) || (url_end <? 0) then None
  else Some (Str.slice css_content url_start url_end).

Definition _save_font_file (font_name : PyVal) (font_url : string)
    : M (Sys W) (option string) :=
  try_except
    (_ ← emit (EvHttpGet font_url);
     font_response ← call_world (requests_get P font_url);
     if negb (status_code font_response =? 200) then mret None
     else
       font_save_dir ← lift get_font_save_directory;
       _ ← emit (EvMakedirs font_save_dir);
       _ ← call_world (makedirs P font_save_dir);
       let ext := get_font_extension (default "" (content_type font_response)) in
       name ← lift (as_str font_name);
       let safe_font_name := Str.replace name " " "_" in
       let font_path := path_join P font_save_dir [safe_font_name +:+ ext] in
       _ ← emit (EvWriteFile font_path);
       _ ← call_world (write_file P font_path (content font_response));
       mret (Some font_path))
    (λ _, mret None).

Definition download_google_font (font_name : PyVal) : M (Sys W) (option string) :=
  try_except
    (name ← lift (as_str font_name);
     let api_font_name := Str.replace name " " "+" in
     let api_url := "https://fonts.googleapis.com/css?family=" +:+ api_font_name in
     _ ← emit (EvHttpGet api_url);
     css_response ← call_world (requests_get P api_url);
     if negb (status_code css_response =? 200) then mret None
     else
       let font_url := _extract_font_url (text css_response) in
       if negb (path_truthy font_url) then mret None
       else _save_font_file font_name (default "" font_url))
    (λ _, mret None).

Definition find_font (font_name : PyVal) : M (Sys W) (option string) :=
  _ ← emit (EvFindFont font_name);
  font_path ← find_font_in_system font_name;
  if path_truthy font_path then mret font_path
  else download_google_font font_name.

End FontManager.
End FontManager.

(** ** PyMuPDF *)

(** What [fitz] does, over the world [W], the state [D] of an open document
    object and page handles [Pg].  A page is an alias into its document:
    page methods read or change [D]. *)
Record Fitz (W D Pg : Type) : Type := mkFitz {
  fitz_open : option string → W → Res D;
  page_count : D → nat;
  load_page : Z → D → Res Pg;
  search_for : Pg → string → D → Res (list Rect);
  get_text_dict : Pg → Rect → D → Res PyVal;
  add_redact_annot : Pg → Rect → D → D * Res ();
  apply_redactions : Pg → D → D * Res ();
  load_font : string → W → D → D * Res ();
  insert_text : Pg → Point → string → PyVal → PyVal → PyVal → D → D * Res ();
  save : string → D → W → W * Res ()
}.
Arguments fitz_open {W D Pg} _ _ _.
Arguments page_count {W D Pg} _ _.
Arguments load_page {W D Pg} _ _ _.
Arguments search_for {W D Pg} _ _ _ _.
Arguments get_text_dict {W D Pg} _ _ _ _.
Arguments add_redact_annot {W D Pg} _ _ _ _.
Arguments apply_redactions {W D Pg} _ _ _.
Arguments load_font {W D Pg} _ _ _ _.
Arguments insert_text {W D Pg} _ _ _ _ _ _ _ _.
Arguments save {W D Pg} _ _ _ _.

(** The state while a document is open. *)
Record Ed (W D : Type) : Type := mkEd { sys : Sys W; doc : D }.
Arguments mkEd {W D} _ _.
Arguments sys {W D} _.
Arguments doc {W D} _.

Definition lift_sys {W D A} (m : M (Sys W) A) : M (Ed W D) A := λ s,
  let '(s', r) := m (sys s) in (mkEd s' (doc s), r).

Definition call_doc {W D A} (f : D → D * Res A) : M (Ed W D) A := λ s,
  let '(d, r) := f (doc s) in (mkEd (sys s) d, r).

Definition read_doc {W D A} (f : D → Res A) : M (Ed W D) A := λ s,
  (s, f (doc s)).

Definition call_doc_world {W D A} (f : W → D → D * Res A) : M (Ed W D) A := λ s,
  let '(d, r) := f (world (sys s)) (doc s) in (mkEd (sys s) d, r).

Definition call_world_doc {W D A} (f : D → W → W * Res A) : M (Ed W D) A := λ s,
  let '(w, r) := f (doc s) (world (sys s)) in
  (mkEd (mkSys w (log (sys s))) (doc s), r).

(** [try: m  except (IndexError, KeyError) as e: h e] *)
Definition is_index_or_key_error (e : PyExc) : bool :=
  match e with IndexError | KeyError => true | _ => false end.

Definition try_except_lookup {S A} (m : M S A) (h : PyExc → M S A) : M S A := λ s,
  match m s with
  | (s', Raise e) => if is_index_or_key_error e then h e s' else (s', Raise e)
  | (s', Ok a) => (s', Ok a)
  end.

(** [for x in l: body x] *)
Fixpoint for_each {S A} (body : A → M S ()) (l : list A) : M S () :=
  match l with
  | [] => mret ()
  | x :: rest => _ ← body x; for_each body rest
  end.

(** [d[key]] on a [dict] *)
Definition dict_getitem (d : gmap string PyVal) (key : string) : Res PyVal :=
  match d !! key with
  | Some v => Ok v
  | None => Raise KeyError
  end.

(** [d[key] = v] on the [dict] held in the state *)
Definition dict_setitem (key : string) (v : PyVal) : M (gmap string PyVal) () :=
  λ d, (<[key := v]> d, Ok ()).

(** ** PDFEditor.py *)

Module PDFEditor.
Section PDFEditor.

Context {W D Pg : Type} (P : Platform W) (F : Fitz W D Pg).

Abbreviation Props := (gmap string PyVal).

Definition default_properties : Props :=
  <["font" := PStr "helv"]>
    (<["size" := PInt 11]>
       (<["color" := PTuple [PInt 0; PInt 0; PInt 0]]> ∅)).

Definition event (ev : Event) : M (Ed W D) () := lift_sys (emit ev).

Definition redact_text (page : Pg) (text_instance : Rect) : M (Ed W D) bool :=
  try_except
    (_ ← event (EvRedactAnnot text_instance);
     _ ← call_doc (add_redact_annot F page text_instance);
     _ ← event EvApplyRedactions;
     _ ← call_doc (apply_redactions F page);
     mret true)
    (λ _, mret false).

(** [isinstance(font_info, dict) and 'blocks' in font_info and
    font_info['blocks']] *)
Definition has_blocks (font_info : PyVal) : Res bool :=
  if isinstance_dict font_info then
    present ← contains_str "blocks" font_info;
    if (present : bool) then (blocks ← getitem_str font_info "blocks"; Ok (truthy blocks))
    else Ok false
  else Ok false.

(** [font_info['blocks'][0]['lines'][0]['spans'][0]] *)
Definition first_span (font_info : PyVal) : Res PyVal :=
  blocks ← getitem_str font_info "blocks";
  block ← getitem_int blocks 0;
  lines ← getitem_str block "lines";
  line ← getitem_int lines 0;
  spans ← getitem_str line "spans";
  getitem_int spans 0.

(** [if key in span: properties[key] = span[key]] *)
Definition copy_field (span : PyVal) (key : string) : M Props () :=
  present ← lift (contains_str key span);
  if (present : bool) then
    (v ← lift (getitem_str span key);
     dict_setitem key v)
  else mret ().

(** The body of the inner [try], acting on the [properties] dictionary. *)
Definition read_span (font_info : PyVal) : M Props () :=
  span ← lift (first_span font_info);
  _ ← copy_field span "font";
  _ ← copy_field span "size";
  copy_field span "color".

Definition get_text_properties (page : Pg) (text_instance : Rect)
    : M (Ed W D) (option Props) :=
  try_except
    (_ ← event (EvGetText text_instance);
     font_info ← read_doc (get_text_dict F page text_instance);
     extract ← lift (has_blocks font_info);
     if (extract : bool) then
       let '(properties, r) :=
         try_except_lookup (read_span font_info) (λ _, mret ()) default_properties in
       _ ← lift r;
       mret (Some properties)
     else mret (Some default_properties))
    (λ _, mret None).

Definition builtin_fonts : gset string :=
  {[ "helv"; "tiro"; "cour"; "symb"; "zadb" ]}.

(** [font_name in builtin_fonts]: hashes [font_name]. *)
Definition in_builtin_fonts (font_name : PyVal) : Res bool :=
  if hashable font_name then
    Ok (match font_name with
        | PStr s => bool_decide (s ∈ builtin_fonts)
        | _ => false
        end)
  else Raise TypeError.

Definition insert_new_text (page : Pg) (position : Point) (text : string)
    (properties : Props) : M (Ed W D) bool :=
  try_except
    (font_name ← lift (dict_getitem properties "font");
     builtin ← lift (in_builtin_fonts font_name);
     use_font ←
       (if (builtin : bool) then mret font_name
        else
          font_file ← lift_sys (FontManager.find_font P font_name);
          if path_truthy font_file then
            try_except
              (_ ← event (EvLoadFont (default "" font_file));
               _ ← call_doc_world (load_font F (default "" font_file));
               mret font_name)
              (λ _, mret (PStr "helv"))
          else mret (PStr "helv"));
     fontsize ← lift (dict_getitem properties "size");
     color ← lift (dict_getitem properties "color");
     _ ← event (EvInsertText position text use_font fontsize color);
     _ ← call_doc (insert_text F page position text use_font fontsize color);
     mret true)
    (λ _, mret false).

(** [not properties] *)
Definition properties_falsy (properties : option Props) : bool :=
  match properties with
  | None => true
  | Some d => Nat.eqb (size d) 0
  end.

(** [font_size + (font_size * 0.08)] *)
Definition baseline_offset (font_size : PyVal) : Res float :=
  scaled ← mul_float font_size 0.08%float;
  add_float font_size scaled.

(** The body of [for inst in text_instances].  Returning normally stands
    for both [continue] and falling off the end of the body. *)
Definition replace_instance (page : Pg) (new_text : string) (inst : Rect)
    : M (Ed W D) () :=
  properties ← get_text_properties page inst;
  if properties_falsy properties then mret ()
  else
    let properties := default ∅ properties in
    let original_rect := inst in
    redacted ← redact_text page inst;
    if negb redacted then mret ()
    else
      font_size ← lift (dict_getitem properties "size");
      offset ← lift (baseline_offset font_size);
      let text_position :=
        mkPoint (x0 original_rect) (y0 original_rect + offset)%float in
      _ ← insert_new_text page text_position new_text properties;
      mret ().

(** [self.filename.replace('.pdf', '_edited.pdf')] *)
Definition output_path_of (filename : option string) : Res string :=
  match filename with
  | Some name => Ok (Str.replace name ".pdf" "_edited.pdf")
  | None => Raise AttributeError
  end.

(** The body of the [try] of [edit_text], once [fitz.open] has returned. *)
Definition edit_opened (filename : option string) (page_number : Z)
    (old_text new_text : string) : M (Ed W D) bool :=
  _ ← event (EvLoadPage page_number);
  page ← read_doc (load_page F page_number);
  _ ← event (EvSearch old_text);
  text_instances ← read_doc (search_for F page old_text);
  _ ← for_each (replace_instance page new_text) text_instances;
  output_path ← lift (output_path_of filename);
  _ ← event (EvSave output_path);
  _ ← call_world_doc (save F output_path);
  mret true.

(** [edit_text] never raises: its result is the final system state and the
    returned boolean.  [filename] is [self.filename]. *)
Definition edit_text (filename : option string) (page_number : Z)
    (old_text new_text : string) (s : Sys W) : Sys W * bool :=
  let s1 := mkSys (world s) (log s ++ [EvOpen filename]) in
  match fitz_open F filename (world s) with
  | Raise _ => (s1, false)
  | Ok d =>
      match edit_opened filename page_number old_text new_text (mkEd s1 d) with
      | (s2, Ok b) => (sys s2, b)
      | (s2, Raise _) => (sys s2, false)
      end
  end.

End PDFEditor.
End PDFEditor.

(** ** Properties of runs, used to state the results *)

(** The regions passed to [page.get_text], in call order. *)
Definition clips (evs : list Event) : list Rect :=
  omap (λ ev, match ev with EvGetText r => Some r | _ => None end) evs.

(** Events of the font locator: what [FontManager] does to the operating
    system and the network. *)
Definition is_font_event (ev : Event) : bool :=
  match ev with
  | EvFindFont _ | EvExists _ | EvWalk _ | EvHttpGet _
  | EvMakedirs _ | EvWriteFile _ => true
  | _ => false
  end.

Definition is_insert_event (ev : Event) : bool :=
  match ev with EvInsertText _ _ _ _ _ => true | _ => false end.

(** All three fields are present and none is [None]. *)
Definition populated (properties : gmap string PyVal) : Prop :=
  ∀ key, key ∈ ["font"; "size"; "color"] →
    ∃ v, properties !! key = Some v ∧ v ≠ PNone.

(** The shape PyMuPDF documents for [get_text("dict")]: a dict whose
    ["blocks"] is a list of dicts, whose ["lines"] (absent in image blocks)
    is a list of dicts, whose ["spans"] is a list of dicts without [None]
    values. *)
Definition list_of (ok : PyVal → Prop) (v : PyVal) : Prop :=
  ∃ l, v = PList l ∧ Forall ok l.

Definition dict_with (key : string) (ok : PyVal → Prop) (v : PyVal) : Prop :=
  ∃ d, v = PDict d ∧ ∀ x, d !! key = Some x → ok x.

Definition span_shape (v : PyVal) : Prop :=
  ∃ d, v = PDict d ∧ ∀ key x, d !! key = Some x → x ≠ PNone.

Definition text_dict_shape : PyVal → Prop :=
  dict_with "blocks" (list_of (dict_with "lines"
    (list_of (dict_with "spans" (list_of span_shape))))).

(** The lookup found no span: no blocks, or a first block without lines,
    or a first line without spans. *)
Definition no_spans (font_info : PyVal) : Prop :=
  ∃ d, font_info = PDict d ∧
    (d !! "blocks" = None
     ∨ d !! "blocks" = Some (PList [])
     ∨ ∃ block rest, d !! "blocks" = Some (PList (PDict block :: rest)) ∧
         (block !! "lines" = None
          ∨ block !! "lines" = Some (PList [])
          ∨ ∃ line rest', block !! "lines" = Some (PList (PDict line :: rest')) ∧
              (line !! "spans" = None ∨ line !! "spans" = Some (PList [])))).

(** Every size the library reports in a span is a number that converts to
    a float. *)
Definition sizes_numeric {W D Pg} (F : Fitz W D Pg) : Prop :=
  ∀ page clip d font_info span v,
    get_text_dict F page clip d = Ok font_info →
    PDFEditor.first_span font_info = Ok span →
    getitem_str span "size" = Ok v →
    is_ok (to_float v) = true.

(** A saved file, opened again, has the page count of the document that
    was saved. *)
Definition save_keeps_page_count {W D Pg} (F : Fitz W D Pg) : Prop :=
  ∀ path d w w',
    save F path d w = (w', Ok ()) →
    ∃ d', fitz_open F (Some path) w' = Ok d' ∧ page_count F d' = page_count F d.

(** [m] returns, from every state. *)
Definition total {S A} (m : M S A) : Prop :=
  ∀ s, ∃ s' a, m s = (s', Ok a).

(** [m] only appends to the log, and what it appends satisfies [Q]. *)
Definition emits {S A} (lg : S → list Event) (Q : Event → Prop) (m : M S A) : Prop :=
  ∀ s, ∃ evs, lg (m s).1 = lg s ++ evs ∧ Forall Q evs.

(** The log while a document is open, and the state after one more call. *)
Definition ed_log {W D} (s : Ed W D) : list Event := log (sys s).

Definition logged {W D} (ev : Event) (s : Ed W D) : Ed W D :=
  mkEd (mkSys (world (sys s)) (log (sys s) ++ [ev])) (doc s).

Definition is_redact_event (ev : Event) : bool :=
  match ev with EvRedactAnnot _ | EvApplyRedactions => true | _ => false end.

Definition is_lookup_event (ev : Event) : bool :=
  match ev with EvGetText _ => true | _ => false end.

(** What [insert_new_text position text properties] may log: calls of the
    font locator, a font registration, and the drawing call at [position]
    with the size of [properties]. *)
Definition insertion_event (position : Point) (text : string)
    (properties : gmap string PyVal) (ev : Event) : Prop :=
  is_font_event ev = true
  ∨ (∃ font_file, ev = EvLoadFont font_file)
  ∨ (∃ fontname fontsize color,
       properties !! "size" = Some fontsize ∧
       ev = EvInsertText position text fontname fontsize color).

(** A drawing call is placed at a match: its text is [new_text] and its
    position is the top-left corner of one of [insts], lowered by
    [size + size * 0.08] for the size it draws with. *)
Definition placed (new_text : string) (insts : list Rect) (ev : Event) : Prop :=
  ∀ position text fontname fontsize color,
    ev = EvInsertText position text fontname fontsize color →
    text = new_text ∧
    ∃ inst size,
      inst ∈ insts ∧
      to_float fontsize = Ok size ∧
      position = mkPoint (x0 inst) (y0 inst + (size + size * 0.08))%float.

(** The system state once the document is open, the page loaded and the
    search done. *)
Definition searched {W} (filename : option string) (page_number : Z)
    (old_text : string) (s : Sys W) : Sys W :=
  mkSys (world s)
        (log s ++ [EvOpen filename; EvLoadPage page_number; EvSearch old_text]).

(** All three keys are in the dictionary. *)
Definition has_fields (properties : gmap string PyVal) : Prop :=
  ∀ key, key ∈ ["font"; "size"; "color"] → is_Some (properties !! key).

(** [properties[key] = span[key]] when the dictionary [span] has [key]. *)
Definition copied (span : gmap string PyVal) (key : string)
    (properties : gmap string PyVal) : gmap string PyVal :=
  match span !! key with
  | Some v => <[key := v]> properties
  | None => properties
  end.

(** The dictionary the inner [try] leaves behind: the defaults, overwritten
    by what a first span that is a dictionary holds. *)
Definition extracted_properties (font_info : PyVal) : gmap string PyVal :=
  match PDFEditor.first_span font_info with
  | Ok (PDict span) =>
      copied span "color"
        (copied span "size" (copied span "font" PDFEditor.default_properties))
  | _ => PDFEditor.default_properties
  end.

(** ** A scripted environment for concrete runs *)

Module Sample.

Record World : Type := mkWorld {
  pdfs : list (string * nat);              (* PDF files: path, page count *)
  font_dirs : list (string * list string); (* directories holding fonts *)
  written : list (string * string);        (* font files written *)
  online : bool
}.

Definition css_url : string := "https://fonts.googleapis.com/css?family=Roboto".
Definition ttf_url : string := "https://fonts.gstatic.com/s/roboto.ttf".

Definition web (url : string) : Response :=
  if String.eqb url css_url then
    mkResponse 200 ("@font-face { src: url(" +:+ ttf_url +:+ ") }") "" (Some "text/css")
  else if String.eqb url ttf_url then
    mkResponse 200 "" "TTF" (Some "font/ttf")
  else mkResponse 404 "" "" None.

Definition platform (name : string) (env : gmap string string) : Platform World :=
  {| sys_platform := name;
     environ := env;
     path_join := λ a parts, foldl (λ acc p, acc +:+ "/" +:+ p) a parts;
     expanduser := λ p,
       if String.prefix "~" p then "/home/user" +:+ Str.drop 1 p else p;
     path_exists := λ p w, existsb (λ e, String.eqb (fst e) p) (font_dirs w);
     walk := λ p w, filter (λ e, fst e = p) (font_dirs w);
     makedirs := λ p w,
       (if existsb (λ e, String.eqb (fst e) p) (font_dirs w) then w
        else mkWorld (pdfs w) (font_dirs w ++ [(p, [])]) (written w) (online w),
        Ok ());
     write_file := λ p data w,
       (mkWorld (pdfs w) (font_dirs w) (written w ++ [(p, data)]) (online w), Ok ());
     requests_get := λ url w,
       (w, if online w then Ok (web url) else Raise (LibraryError "ConnectionError"))
  |}.

Definition linux : Platform World := platform "linux" ∅.
Definition windows_without_windir : Platform World :=
  platform "win32" (<["LOCALAPPDATA" := "C:/Users/user/AppData/Local"]> ∅).

Record Doc : Type := mkDoc { pages : nat; edits : list Event }.

(** How the scripted PyMuPDF answers. *)
Record Script : Type := mkScript {
  hits : list Rect;
  text_dict : Rect → Res PyVal;
  redact_ok : bool;
  load_font_ok : bool;
  insert_ok : bool;
  save_ok : bool
}.

Definition fitz (sc : Script) : Fitz World Doc nat :=
  {| fitz_open := λ filename w,
       match filename with
       | None => Ok (mkDoc 0 [])
       | Some name =>
           match List.find (λ e, String.eqb (fst e) name) (pdfs w) with
           | Some e => Ok (mkDoc (snd e) [])
           | None => Raise (LibraryError "FileNotFoundError")
           end
       end;
     page_count := pages;
     load_page := λ i d,
       let n := Z.of_nat (pages d) in
       if (- n <=? i) && (i <? n) then Ok (Z.to_nat (i `mod` n))
       else Raise IndexError;
     search_for := λ _ _ _, Ok (hits sc);
     get_text_dict := λ _ clip _, text_dict sc clip;
     add_redact_annot := λ _ quad d,
       if redact_ok sc then (mkDoc (pages d) (edits d ++ [EvRedactAnnot quad]), Ok ())
       else (d, Raise (LibraryError "RuntimeError"));
     apply_redactions := λ _ d,
       (mkDoc (pages d) (edits d ++ [EvApplyRedactions]), Ok ());
     load_font := λ file _ d,
       if load_font_ok sc then (mkDoc (pages d) (edits d ++ [EvLoadFont file]), Ok ())
       else (d, Raise AttributeError);
     insert_text := λ _ pos txt fontname fontsize color d,
       if insert_ok sc
       then (mkDoc (pages d)
               (edits d ++ [EvInsertText pos txt fontname fontsize color]), Ok ())
       else (d, Raise (LibraryError "ValueError"));
     save := λ path d w,
       if save_ok sc
       then (mkWorld ((path, pages d) :: pdfs w) (font_dirs w) (written w) (online w),
             Ok ())
       else (w, Raise (LibraryError "PermissionError"))
  |}.

Definition hit1 : Rect := mkRect 100 50 160 62.
Definition hit2 : Rect := mkRect 100 150 160 162.

Definition span_dict (font : string) (size : float) : PyVal :=
  PDict (<["font" := PStr font]>
           (<["size" := PFloat size]> (<["color" := PInt 0]> ∅))).

Definition text_dict_of (span : PyVal) : PyVal :=
  PDict (<["blocks" :=
    PList [PDict (<["lines" :=
      PList [PDict (<["spans" := PList [span]]> ∅)]]> ∅)]]> ∅).

(** One file, [examples/example.pdf], of one page; no font directory;
    network reachable or not. *)
Definition disk (net : bool) : World :=
  mkWorld [("examples/example.pdf", 1%nat)] [] [] net.

Definition start (net : bool) : Sys World := mkSys (disk net) [].

(** The same document under an upper-case extension. *)
Definition upper_case_disk : World := mkWorld [("scan.PDF", 1%nat)] [] [] true.

(** The state with [examples/example.pdf] open and nothing logged. *)
Definition opened (net : bool) : Ed World Doc := mkEd (start net) (mkDoc 1 []).

(** Two hits in 12-point Helvetica; every call succeeds. *)
Definition all_good : Script :=
  mkScript [hit1; hit2] (λ _, Ok (text_dict_of (span_dict "helv" 12))) true true true true.

(** Two hits whose structured text lookup raises. *)
Definition lookup_raises : Script :=
  mkScript [hit1; hit2] (λ _, Raise (LibraryError "RuntimeError")) true true true true.

(** No hit at all. *)
Definition no_hits : Script :=
  mkScript [] (λ _, Ok (PDict ∅)) true true true true.

(** Two hits in Roboto, which is not a built-in font. *)
Definition roboto : Script :=
  mkScript [hit1; hit2] (λ _, Ok (text_dict_of (span_dict "Roboto" 12))) true true true true.

End Sample.

(** ** More specification vocabulary *)

(** Events of the scan of the font directories. *)
Definition is_scan_event (ev : Event) : bool :=
  match ev with EvExists _ | EvWalk _ => true | _ => false end.

(** [os.path.join] of a directory and a file name is not the empty
    string. *)
Definition joins_nonempty {W} (P : Platform W) : Prop :=
  ∀ root file, file ≠ "" → path_join P root [file] ≠ "".

(** [font_name.lower().replace(" ", "")] *)
Definition normalized (font_name : string) : string :=
  Str.replace (Str.lower font_name) " " "".

(** Some file below [directory] passes the test of the search for
    [font_name]. *)
Definition holds_font {W} (P : Platform W) (w : W) (font_name : string)
    (directory : string) : Prop :=
  ∃ root files file,
    (root, files) ∈ walk P directory w ∧ file ∈ files ∧
    FontManager.file_matches (normalized font_name) file = true.

(** The address of the style sheet [download_google_font] asks for. *)
Definition css_url_of (font_name : string) : string :=
  "https://fonts.googleapis.com/css?family=" +:+ Str.replace font_name " " "+".

Definition is_save_event (ev : Event) : bool :=
  match ev with EvSave _ => true | _ => false end.

(** The text is ASCII: every character code is below 128. *)
Definition is_ascii (s : string) : bool :=
  forallb (λ c, (nat_of_ascii c <? 128)%nat) (String.list_ascii_of_string s).

(** The path [_save_font_file] writes a response to: the family name with
    underscores for spaces and the extension of the content type, in the
    save directory. *)
Definition saved_path {W} (P : Platform W) (directory name : string)
    (font_response : Response) : string :=
  path_join P directory
    [Str.replace name " " "_" +:+
     FontManager.get_font_extension (default "" (content_type font_response))].

(** The insertion point of the spec for a match and a size:
    [(match.left, match.top + (size + size * 0.08))], in binary64. *)
Definition insertion_point (inst : Rect) (size : float) : Point :=
  mkPoint (x0 inst) (y0 inst + (size + size * 0.08))%float.

(** A drawing call belongs to the match [inst]: its text is [new_text] and
    it is at the insertion point of [inst] for the size it draws with. *)
Definition drawn_at (new_text : string) (inst : Rect) (ev : Event) : Prop :=
  ∀ position text fontname fontsize color,
    ev = EvInsertText position text fontname fontsize color →
    text = new_text ∧
    ∃ size, to_float fontsize = Ok size ∧ position = insertion_point inst size.

(** The calls made for one match: its lookup first, no other lookup, and
    drawing calls only at its own insertion point. *)
Definition match_calls (new_text : string) (inst : Rect) (seg : list Event) : Prop :=
  ∃ rest,
    seg = EvGetText inst :: rest ∧
    Forall (λ ev, is_lookup_event ev = false) rest ∧
    Forall (drawn_at new_text inst) rest.

(** ** PyPDF2 and the editor object *)

(** The calls into PyPDF2 and the file opened for writing.  [R] is a
    [PdfReader], [Pp] one of its pages, [Wr] the state of a [PdfWriter].
    [reader.pages] is a lazy sequence: subscripting it and iterating over it
    are calls of the library; an iteration yields some pages and then ends
    or raises. *)
Record PyPDF2 (W R Pp Wr : Type) : Type := mkPyPDF2 {
  pdf_reader : string → W → Res R;
  reader_truthy : R → bool;
  pages_getitem : R → Z → Res Pp;
  pages_iter : R → list Pp * option PyExc;
  extract_text : Pp → Res string;
  pdf_writer : Res Wr;
  add_page : Pp → Wr → Res Wr;
  open_wb : string → W → W * Res ();
  writer_write : Wr → string → W → W * Res ();
  close_file : string → W → W * Res ()
}.
Arguments pdf_reader {W R Pp Wr} _ _ _.
Arguments reader_truthy {W R Pp Wr} _ _.
Arguments pages_getitem {W R Pp Wr} _ _ _.
Arguments pages_iter {W R Pp Wr} _ _.
Arguments extract_text {W R Pp Wr} _ _.
Arguments pdf_writer {W R Pp Wr} _.
Arguments add_page {W R Pp Wr} _ _ _.
Arguments open_wb {W R Pp Wr} _ _ _.
Arguments writer_write {W R Pp Wr} _ _ _ _.
Arguments close_file {W R Pp Wr} _ _ _.

Module PDFEditorObject.

(** The attributes of a [PDFEditor]; [font_manager_verbose] is
    [self.FontManager.verbose]. *)
Record Editor (R : Type) : Type := mkEditor {
  current_pdf : option R;
  current_page : PyVal;
  page_number : Z;
  filename : option string;
  verbose : bool;
  font_manager_verbose : bool
}.
Arguments mkEditor {R} _ _ _ _ _ _.
Arguments current_pdf {R} _.
Arguments current_page {R} _.
Arguments page_number {R} _.
Arguments filename {R} _.
Arguments verbose {R} _.
Arguments font_manager_verbose {R} _.

Section PDFEditorObject.

Context {W D Pg R Pp Wr : Type}.
Context (P : Platform W) (F : Fitz W D Pg) (Y : PyPDF2 W R Pp Wr).

Definition __init__ : Editor R :=
  mkEditor None PNone 0 None false false.

Definition set_verbose (flag : bool) (self : Editor R) : Editor R :=
  mkEditor (current_pdf self) (current_page self) (page_number self)
           (filename self) flag flag.

(** The assignments after [PyPDF2.PdfReader(pdf_path)] cannot raise. *)
Definition open_pdf (pdf_path : string) (self : Editor R) (w : W)
    : Editor R * bool :=
  match pdf_reader Y pdf_path w with
  | Ok reader =>
      (mkEditor (Some reader) (current_page self) 0 (Some pdf_path)
                (verbose self) (font_manager_verbose self), true)
  | Raise _ => (self, false)
  end.

(** [not self.current_pdf] *)
Definition no_document (self : Editor R) : bool :=
  match current_pdf self with
  | None => true
  | Some reader => negb (reader_truthy Y reader)
  end.

(** [self.current_pdf.pages[page_number]]; the attribute access raises on
    [None]. *)
Definition page_of (self : Editor R) (n : Z) : Res Pp :=
  match current_pdf self with
  | Some reader => pages_getitem Y reader n
  | None => Raise AttributeError
  end.

Definition get_page_text (n : Z) (self : Editor R) : option string :=
  if no_document self then None
  else
    match (page ← page_of self n; extract_text Y page) with
    | Ok text => Some text
    | Raise _ => None
    end.

(** [for page in pages: writer.add_page(page)] on the pages an iteration
    has yielded. *)
Fixpoint add_pages (pages : list Pp) (writer : Wr) : Res Wr :=
  match pages with
  | [] => Ok writer
  | page :: rest => writer ← add_page Y page writer; add_pages rest writer
  end.

(** The first two statements of the [try] of [save_pdf]: they touch no
    file. *)
Definition collect_pages (self : Editor R) : Res Wr :=
  writer ← pdf_writer Y;
  match current_pdf self with
  | Some reader =>
      let '(pages, raised) := pages_iter Y reader in
      writer ← add_pages pages writer;
      match raised with
      | Some e => Raise e
      | None => Ok writer
      end
  | None => Raise AttributeError
  end.

(** The [with] statement closes the file also when [writer.write] raises. *)
Definition save_pdf (output_path : string) (self : Editor R) (w : W) : W * bool :=
  if no_document self then (w, false)
  else
    match collect_pages self with
    | Raise _ => (w, false)
    | Ok writer =>
        let '(w1, opened) := open_wb Y output_path w in
        match opened with
        | Raise _ => (w1, false)
        | Ok _ =>
            let '(w2, written) := writer_write Y writer output_path w1 in
            let '(w3, closed) := close_file Y output_path w2 in
            (w3, is_ok written && is_ok closed)
        end
    end.

(** A session: [open_pdf] on each path in turn, each in the world of its
    moment. *)
Definition open_each (calls : list (string * W)) (self : Editor R) : Editor R :=
  foldl (λ self call, (open_pdf call.1 self call.2).1) self calls.

(** The calls of a session in which [PdfReader] returned. *)
Definition accepted (calls : list (string * W)) : list (string * W) :=
  filter (λ call, is_ok (pdf_reader Y call.1 call.2) = true) calls.

End PDFEditorObject.
End PDFEditorObject.

(** ** A scripted disk with fonts, and a scripted PyPDF2 *)

Module SampleDisk.

(** A two-page [examples/example.pdf]; the system font directory holds
    DejaVu Sans and Roboto, the user's holds Roboto; no network. *)
Definition with_fonts : Sample.World :=
  Sample.mkWorld [("examples/example.pdf", 2%nat)]
    [("/usr/share/fonts", ["DejaVuSans.ttf"; "Roboto-Regular.ttf"]);
     ("/home/user/.local/share/fonts", ["Roboto.ttf"])]
    [] false.

Definition booted : Sys Sample.World := mkSys with_fonts [].

(** The font directories of [Sample.linux]. *)
Definition linux_font_dirs : list string :=
  ["/usr/share/fonts"; "/usr/local/share/fonts"; "/home/user/.fonts";
   "/home/user/.local/share/fonts"].

(** PyPDF2 over the same disk: a reader is the page count of its file, a
    page is its number, a writer is the list of the pages added to it;
    writing records the output with its page count. *)
Definition pypdf2 : PyPDF2 Sample.World nat nat (list nat) :=
  {| pdf_reader := λ pdf_path w,
       match List.find (λ e, String.eqb (fst e) pdf_path) (Sample.pdfs w) with
       | Some e => Ok (snd e)
       | None => Raise (LibraryError "FileNotFoundError")
       end;
     reader_truthy := λ _, true;
     pages_getitem := λ reader n, seq_index (seq 0%nat reader) n;
     pages_iter := λ reader, (seq 0%nat reader, None);
     extract_text := λ page,
       Ok (if Nat.eqb page 0 then "first page" else "another page");
     pdf_writer := Ok [];
     add_page := λ page writer, Ok (writer ++ [page]);
     open_wb := λ _ w, (w, Ok ());
     writer_write := λ writer output_path w,
       (Sample.mkWorld ((output_path, length writer) :: Sample.pdfs w)
          (Sample.font_dirs w) (Sample.written w) (Sample.online w), Ok ());
     close_file := λ _ w, (w, Ok ())
  |}.

(** The editor after [open_pdf("examples/example.pdf")]. *)
Definition session : PDFEditorObject.Editor nat :=
  PDFEditorObject.open_each pypdf2 [("examples/example.pdf", with_fonts)]
    PDFEditorObject.__init__.

End SampleDisk.

(** ** Sanity checks of the built-ins *)

Example replace_twice :
  Str.replace "a.pdf.pdf" ".pdf" "_edited.pdf" = "a_edited.pdf_edited.pdf".
Proof. reflexivity. Qed.

Example replace_overlap : Str.replace "aaa" "aa" "b" = "ba".
Proof. reflexivity. Qed.

Example replace_empty_old : Str.replace "abc" "" "X" = "XaXbXcX".
Proof. reflexivity. Qed.

Example find_after : Str.find "x url(a) y" ")" 6 = 7.
Proof. reflexivity. Qed.

Example find_missing : Str.find "abc" "url(" 0 = -1.
Proof. reflexivity. Qed.

Example find_past_end : Str.find "abc" "" 4 = -1.
Proof. reflexivity. Qed.

Example lower_mixed : Str.lower "Open Sans-1" = "open sans-1".
Proof. reflexivity. Qed.

Example int_to_float_exact : int_to_float 11 = Ok 11%float.
Proof. reflexivity. Qed.

Example int_to_float_huge : int_to_float (2 ^ 1024) = Raise OverflowError.
Proof. reflexivity. Qed.


(** ** Reasoning about runs *)

Section Runs.

Context {S : Type}.

Lemma bind_ok {A B} (m : M S A) (f : A → M S B) s s' a :
  m s = (s', Ok a) → (m ≫= f) s = f a s'.
Proof. intros E. unfold mbind, M_bind. by rewrite E. Qed.

Lemma bind_raise {A B} (m : M S A) (f : A → M S B) s s' e :
  m s = (s', Raise e) → (m ≫= f) s = (s', Raise e).
Proof. intros E. unfold mbind, M_bind. by rewrite E. Qed.

Lemma total_try_except {A} (m : M S A) h :
  (∀ e, total (h e)) → total (try_except m h).
Proof.
  intros Hh s. unfold try_except.
  destruct (m s) as [s' [a|e]]; [by eexists _, _ | apply Hh].
Qed.

Lemma total_ret {A} (a : A) : total (mret a : M S A).
Proof. intros s. by eexists _, _. Qed.

Variable lg : S → list Event.
Variable Q : Event → Prop.

Lemma emits_nil {A} (m : M S A) :
  (∀ s, lg (m s).1 = lg s) → emits lg Q m.
Proof. intros E s. exists []. by rewrite E, app_nil_r. Qed.

Lemma emits_ret {A} (a : A) : emits lg Q (mret a : M S A).
Proof. by apply emits_nil. Qed.

Lemma emits_lift {A} (r : Res A) : emits lg Q (lift r : M S A).
Proof. by apply emits_nil. Qed.

Lemma emits_bind {A B} (m : M S A) (f : A → M S B) :
  emits lg Q m → (∀ a, emits lg Q (f a)) → emits lg Q (m ≫= f).
Proof.
  intros Hm Hf s. destruct (Hm s) as (evs & E & HQ).
  unfold mbind, M_bind. destruct (m s) as [s' [a|e]]; simpl in *.
  - destruct (Hf a s') as (evs' & E' & HQ').
    exists (evs ++ evs'). rewrite E', E, app_assoc. split; [done|].
    by apply Forall_app.
  - by exists evs.
Qed.

Lemma emits_try_except {A} (m : M S A) h :
  emits lg Q m → (∀ e, emits lg Q (h e)) → emits lg Q (try_except m h).
Proof.
  intros Hm Hh s. destruct (Hm s) as (evs & E & HQ).
  unfold try_except. destruct (m s) as [s' [a|e]]; simpl in *.
  - by exists evs.
  - destruct (Hh e s') as (evs' & E' & HQ').
    exists (evs ++ evs'). rewrite E', E, app_assoc. split; [done|].
    by apply Forall_app.
Qed.

Lemma emits_for_each {A} (body : A → M S ()) (l : list A) :
  (∀ x, x ∈ l → emits lg Q (body x)) → emits lg Q (for_each body l).
Proof.
  induction l as [|x l IH]; intros Hb; simpl.
  - apply emits_ret.
  - apply emits_bind; [apply Hb; left|].
    intros _. apply IH. intros y Hy. apply Hb. by right.
Qed.

End Runs.

Lemma emits_mono {S A} (lg : S → list Event) (Q Q' : Event → Prop) (m : M S A) :
  (∀ ev, Q ev → Q' ev) → emits lg Q m → emits lg Q' m.
Proof.
  intros HQ Hm s. destruct (Hm s) as (evs & E & H).
  exists evs. split; [done|]. eapply Forall_impl; eauto.
Qed.

Section SysRuns.

Context {W : Type} (Q : Event → Prop).

Lemma emits_emit ev : Q ev → emits log Q (emit ev : M (Sys W) ()).
Proof. intros H s. exists [ev]. split; [done|]. by constructor. Qed.

Lemma emits_read_world {A} (f : W → A) : emits log Q (read_world f).
Proof. by apply emits_nil. Qed.

Lemma emits_call_world {A} (f : W → W * Res A) : emits log Q (call_world f).
Proof.
  apply emits_nil. intros s. unfold call_world. by destruct (f (world s)).
Qed.

Context {D : Type}.

Lemma emits_lift_sys {A} (m : M (Sys W) A) :
  emits log Q m → emits (@ed_log W D) Q (lift_sys m).
Proof.
  intros Hm s. destruct (Hm (sys s)) as (evs & E & H).
  exists evs. split; [|done]. unfold lift_sys, ed_log.
  by destruct (m (sys s)).
Qed.

Lemma emits_call_doc {A} (f : D → D * Res A) : emits (@ed_log W D) Q (call_doc f).
Proof.
  apply emits_nil. intros s. unfold call_doc. by destruct (f (doc s)).
Qed.

Lemma emits_read_doc {A} (f : D → Res A) : emits (@ed_log W D) Q (read_doc f).
Proof. by apply emits_nil. Qed.

Lemma emits_call_doc_world {A} (f : W → D → D * Res A) :
  emits (@ed_log W D) Q (call_doc_world f).
Proof.
  apply emits_nil. intros s. unfold call_doc_world.
  by destruct (f (world (sys s)) (doc s)).
Qed.

Lemma emits_call_world_doc {A} (f : D → W → W * Res A) :
  emits (@ed_log W D) Q (call_world_doc f).
Proof.
  apply emits_nil. intros s. unfold call_world_doc.
  by destruct (f (doc s) (world (sys s))).
Qed.

End SysRuns.

(** One step of a proof that a computation emits only [Q] events. *)
Ltac emits_step :=
  first
    [ apply emits_ret
    | apply emits_lift
    | apply emits_read_world
    | apply emits_call_world
    | apply emits_read_doc
    | apply emits_call_doc
    | apply emits_call_doc_world
    | apply emits_call_world_doc
    | apply emits_bind; [|intros ?]
    | apply emits_try_except; [|intros ?]
    | match goal with
      | |- emits _ _ (if ?b then _ else _) => destruct b
      | |- emits _ _ (match ?x with _ => _ end) => destruct x
      end ].

(** ** The font locator *)

Section FontManagerFacts.

Context {W : Type} (P : Platform W).

Lemma search_font_in_directory_emits directory font_name :
  emits log (λ ev, is_font_event ev = true)
    (FontManager._search_font_in_directory P directory font_name).
Proof.
  unfold FontManager._search_font_in_directory.
  repeat first [ by apply emits_emit | emits_step ].
Qed.

Lemma search_dirs_emits font_name font_dirs :
  emits log (λ ev, is_font_event ev = true)
    (FontManager.search_dirs P font_name font_dirs).
Proof.
  induction font_dirs as [|d rest IH]; simpl.
  - apply emits_ret.
  - apply emits_bind; [by apply emits_emit|intros _].
    apply emits_bind; [apply emits_read_world|intros present].
    destruct (negb present); [done|].
    apply emits_bind; [apply search_font_in_directory_emits|intros p].
    destruct (path_truthy p); [apply emits_ret|done].
Qed.

Lemma save_font_file_emits font_name font_url :
  emits log (λ ev, is_font_event ev = true)
    (FontManager._save_font_file P font_name font_url).
Proof.
  unfold FontManager._save_font_file.
  repeat first [ by apply emits_emit | emits_step ].
Qed.

Lemma download_google_font_emits font_name :
  emits log (λ ev, is_font_event ev = true)
    (FontManager.download_google_font P font_name).
Proof.
  unfold FontManager.download_google_font.
  repeat first [ by apply emits_emit | apply save_font_file_emits | emits_step ].
Qed.

Lemma find_font_emits font_name :
  emits log (λ ev, is_font_event ev = true) (FontManager.find_font P font_name).
Proof.
  unfold FontManager.find_font, FontManager.find_font_in_system.
  repeat first [ by apply emits_emit | apply search_dirs_emits
               | apply download_google_font_emits | emits_step ].
Qed.

End FontManagerFacts.

(** ** The text-property extractor *)

Section ExtractFacts.

Import PDFEditor.

Lemma seq_index_0_cons {A} (x : A) l : seq_index (x :: l) 0 = Ok x.
Proof.
  unfold seq_index. cbn [length Z.ltb Z.compare orb].
  destruct (Z.leb_spec (Z.of_nat (S (length l))) 0); [lia|done].
Qed.

Lemma seq_index_0_nil {A} : seq_index (@nil A) 0 = Raise IndexError.
Proof. done. Qed.

(** Evaluate a chain of subscripts and binds in [Res]. *)
Ltac res :=
  repeat (unfold mbind, Res_bind, getitem_int; simpl;
          rewrite ?seq_index_0_cons, ?seq_index_0_nil).

Lemma copy_field_dict span key p :
  copy_field (PDict span) key p = (copied span key p, Ok ()).
Proof.
  unfold copy_field, copied, mbind, M_bind, lift, dict_setitem. simpl.
  by destruct (span !! key).
Qed.

(** A span that is not a dictionary never changes [properties]: [in]
    raises, or is false, or the subscript that follows raises. *)
Lemma copy_field_other span key p :
  isinstance_dict span = false →
  (copy_field span key p).1 = p ∧
  ∀ e, (copy_field span key p).2 = Raise e → e = TypeError.
Proof.
  intros Hd. unfold copy_field, mbind, M_bind, lift.
  destruct span; try done; simpl;
    repeat match goal with
           | |- context [if ?b then _ else _] => destruct b
           end; simpl; split; congruence.
Qed.

Lemma default_properties_lookup :
  default_properties !! "font" = Some (PStr "helv") ∧
  default_properties !! "size" = Some (PInt 11) ∧
  default_properties !! "color" = Some (PTuple [PInt 0; PInt 0; PInt 0]).
Proof. by vm_compute. Qed.

Lemma has_fields_default : has_fields default_properties.
Proof.
  intros key Hk. destruct default_properties_lookup as (Hf & Hs & Hc).
  repeat (apply elem_of_cons in Hk as [->|Hk]); [eauto..|].
  by apply elem_of_nil in Hk.
Qed.

Lemma has_fields_copied span key p : has_fields p → has_fields (copied span key p).
Proof.
  intros Hp k Hk. unfold copied. destruct (span !! key); [|by apply Hp].
  destruct (decide (key = k)) as [->|Hne].
  - rewrite lookup_insert_eq. eauto.
  - rewrite lookup_insert_ne by done. by apply Hp.
Qed.

Lemma inner_try_run font_info :
  ∃ r, try_except_lookup (read_span font_info) (λ _, mret ()) default_properties
       = (extracted_properties font_info, r) ∧
       ((∃ span, first_span font_info = Ok (PDict span)) → r = Ok ()) ∧
       (∀ e, first_span font_info = Raise e →
             is_index_or_key_error e = true → r = Ok ()).
Proof.
  unfold extracted_properties, read_span, try_except_lookup.
  unfold mbind at 1. unfold M_bind at 1. unfold lift at 1.
  destruct (first_span font_info) as [span|e].
  - destruct (isinstance_dict span) eqn:Hd.
    + destruct span; try done.
      unfold mbind, M_bind. rewrite !copy_field_dict.
      eexists. split; [done|]. split; [done|]. intros ? [=].
    + unfold mbind, M_bind.
      destruct (copy_field_other span "font" default_properties Hd) as [E1 R1].
      destruct (copy_field span "font" default_properties) as [p1 [[]|e1]];
        simpl in E1; subst p1.
      * destruct (copy_field_other span "size" default_properties Hd) as [E2 R2].
        destruct (copy_field span "size" default_properties) as [p2 [[]|e2]];
          simpl in E2; subst p2.
        -- destruct (copy_field_other span "color" default_properties Hd) as [E3 R3].
           destruct (copy_field span "color" default_properties) as [p3 [[]|e3]];
             simpl in E3; subst p3.
           ++ destruct span; try done; eexists; (split; [done|]);
                (split; [by intros [? [=]]|intros ? [=]]).
           ++ rewrite (R3 e3 eq_refl). simpl.
              destruct span; try done; eexists; (split; [done|]);
                (split; [by intros [? [=]]|intros ? [=]]).
        -- rewrite (R2 e2 eq_refl). simpl.
           destruct span; try done; eexists; (split; [done|]);
             (split; [by intros [? [=]]|intros ? [=]]).
      * rewrite (R1 e1 eq_refl). simpl.
        destruct span; try done; eexists; (split; [done|]);
          (split; [by intros [? [=]]|intros ? [=]]).
  - destruct (is_index_or_key_error e) eqn:He; eexists;
      (split; [done|]); (split; [by intros [? [=]]|]).
    + done.
    + intros e' [= <-]. congruence.
Qed.

Section Extractor.

Context {W D Pg : Type} (F : Fitz W D Pg).

Lemma get_text_properties_run page inst (st : Ed W D) :
  ∃ r, get_text_properties F page inst st = (logged (EvGetText inst) st, Ok r) ∧
    (∀ e, get_text_dict F page inst (doc st) = Raise e → r = None) ∧
    (∀ p, r = Some p →
       ∃ font_info, get_text_dict F page inst (doc st) = Ok font_info ∧
         (p = default_properties ∨ p = extracted_properties font_info)) ∧
    (∀ font_info, get_text_dict F page inst (doc st) = Ok font_info →
       has_blocks font_info = Ok false → r = Some default_properties) ∧
    (∀ font_info, get_text_dict F page inst (doc st) = Ok font_info →
       has_blocks font_info = Ok true →
       ((∃ span, first_span font_info = Ok (PDict span)) ∨
        (∃ e, first_span font_info = Raise e ∧ is_index_or_key_error e = true)) →
       r = Some (extracted_properties font_info)).
Proof.
  unfold get_text_properties, try_except, event, lift_sys, emit, read_doc, logged.
  unfold mbind, M_bind, lift. simpl.
  destruct (get_text_dict F page inst (doc st)) as [font_info|e].
  - destruct (has_blocks font_info) as [[]|e] eqn:Hb.
    + destruct (inner_try_run font_info) as (r & E & Hd & He).
      rewrite E. destruct r as [[]|e]; simpl.
      * eexists. split; [done|].
        repeat split; intros; simplify_eq; try congruence; eauto.
      * eexists. split; [done|].
        repeat split; intros; simplify_eq; try congruence; eauto.
        match goal with H : _ ∨ _ |- _ => destruct H as [H1|(e' & H1 & H2)] end.
        -- by specialize (Hd H1).
        -- by specialize (He _ H1 H2).
    + eexists. split; [done|].
      repeat split; intros; simplify_eq; try congruence; eauto.
    + eexists. split; [done|].
      repeat split; intros; simplify_eq; try congruence; eauto.
  - eexists. split; [done|].
    repeat split; intros; simplify_eq; try congruence; eauto.
Qed.

Lemma get_text_properties_total page inst :
  total (get_text_properties F page inst).
Proof.
  intros st. destruct (get_text_properties_run page inst st) as (r & E & _).
  eauto.
Qed.

End Extractor.

Lemma has_fields_extracted font_info : has_fields (extracted_properties font_info).
Proof.
  unfold extracted_properties.
  destruct (first_span font_info) as [[]|]; try apply has_fields_default.
  repeat apply has_fields_copied. apply has_fields_default.
Qed.

(** The size in the extracted dictionary is the default or the one the
    first span holds. *)
Lemma extracted_size font_info sz :
  extracted_properties font_info !! "size" = Some sz →
  sz = PInt 11 ∨
  ∃ span, first_span font_info = Ok span ∧ getitem_str span "size" = Ok sz.
Proof.
  unfold extracted_properties.
  destruct (first_span font_info) as [span|] eqn:E;
    [destruct span|]; try (vm_compute; intros [= <-]; by left).
  unfold copied. intros H.
  destruct (d !! "size") as [v|] eqn:Hs.
  - right. eexists. split; [done|]. simpl. rewrite Hs.
    destruct (d !! "color"), (d !! "font"); simplify_map_eq; done.
  - left. destruct default_properties_lookup as (_ & Hsz & _).
    destruct (d !! "color"), (d !! "font"); simplify_map_eq; done.
Qed.

Lemma has_blocks_dict d :
  has_blocks (PDict d) =
  Ok match d !! "blocks" with Some blocks => truthy blocks | None => false end.
Proof. unfold has_blocks. simpl. by destruct (d !! "blocks"). Qed.

Lemma populated_default : populated default_properties.
Proof.
  intros key Hk. destruct default_properties_lookup as (Hf & Hs & Hc).
  repeat (apply elem_of_cons in Hk as [->|Hk]); [by eauto..|].
  by apply elem_of_nil in Hk.
Qed.

Lemma populated_copied span key p :
  (∀ x, span !! key = Some x → x ≠ PNone) →
  populated p → populated (copied span key p).
Proof.
  intros Hx Hp k Hk. unfold copied.
  destruct (span !! key) as [v|] eqn:E; [|by apply Hp].
  destruct (decide (key = k)) as [->|Hne].
  - rewrite lookup_insert_eq. eauto.
  - rewrite lookup_insert_ne by done. by apply Hp.
Qed.

(** On a lookup result of the documented shape, the first span is a
    dictionary or the descent stops with an [IndexError] or a [KeyError]. *)
Lemma first_span_of_shape font_info :
  text_dict_shape font_info →
  has_blocks font_info = Ok false ∨
  (has_blocks font_info = Ok true ∧
   ((∃ e, first_span font_info = Raise e ∧ is_index_or_key_error e = true) ∨
    (∃ span, first_span font_info = Ok (PDict span) ∧
             ∀ key x, span !! key = Some x → x ≠ PNone))).
Proof.
  intros (d & -> & Hblocks). rewrite has_blocks_dict.
  unfold first_span. res.
  destruct (d !! "blocks") as [blocks|] eqn:Eb; [|by left].
  destruct (Hblocks _ eq_refl) as (bl & -> & Hbl).
  destruct bl as [|block bl]; [by left|]. right. split; [done|].
  res.
  apply Forall_cons in Hbl as [(bd & -> & Hlines) _]. res.
  destruct (bd !! "lines") as [lines|] eqn:El; [|left; by eexists].
  destruct (Hlines _ eq_refl) as (ll & -> & Hll). res.
  destruct ll as [|line ll]; [left; by eexists|].
  res.
  apply Forall_cons in Hll as [(ld & -> & Hspans) _]. res.
  destruct (ld !! "spans") as [spans|] eqn:Es; [|left; by eexists].
  destruct (Hspans _ eq_refl) as (sl & -> & Hsl). res.
  destruct sl as [|span sl]; [left; by eexists|].
  res.
  apply Forall_cons in Hsl as [(sd & -> & Hvals) _].
  right. by exists sd.
Qed.

Lemma populated_extracted font_info span :
  first_span font_info = Ok (PDict span) →
  (∀ key x, span !! key = Some x → x ≠ PNone) →
  populated (extracted_properties font_info).
Proof.
  intros E Hvals. unfold extracted_properties. rewrite E.
  repeat apply populated_copied; eauto using populated_default.
Qed.

Lemma extracted_without_span font_info e :
  first_span font_info = Raise e →
  extracted_properties font_info = default_properties.
Proof. intros E. unfold extracted_properties. by rewrite E. Qed.

(** A lookup that found no span: the guard is false, or the descent stops
    with a [KeyError] or an [IndexError]. *)
Lemma first_span_of_no_spans font_info :
  no_spans font_info →
  has_blocks font_info = Ok false ∨
  (has_blocks font_info = Ok true ∧
   ∃ e, first_span font_info = Raise e ∧ is_index_or_key_error e = true).
Proof.
  intros (d & -> & H). rewrite has_blocks_dict. unfold first_span. res.
  destruct H as [->|[->|(block & rest & -> & H)]]; [by left..|].
  right. split; [done|]. res.
  destruct H as [->|[->|(line & rest' & -> & H)]]; [by eexists..|].
  res.
  destruct H as [->| ->]; by eexists.
Qed.

End ExtractFacts.

(** ** C1 and C2: what the extractor returns *)

Section ExtractorClaims.

Context {W D Pg : Type} (F : Fitz W D Pg).

(** C1 (as amended).  The extractor never raises and only appends its one
    library call to the log.  It returns [None] when the structured text
    lookup raises; whatever dictionary it returns holds all three of font,
    size and colour; and when the lookup returns a value of the shape the
    library documents, it returns such a dictionary with no field [None]. *)
Theorem extract_returns_none_or_all_fields page inst (st : Ed W D) :
  ∃ r, PDFEditor.get_text_properties F page inst st
       = (logged (EvGetText inst) st, Ok r) ∧
    (∀ e, get_text_dict F page inst (doc st) = Raise e → r = None) ∧
    (∀ p, r = Some p → has_fields p) ∧
    (∀ font_info, get_text_dict F page inst (doc st) = Ok font_info →
       text_dict_shape font_info → ∃ p, r = Some p ∧ populated p).
Proof.
  destruct (get_text_properties_run F page inst st)
    as (r & E & Hraise & Hsome & Hnone & Hspan).
  exists r. split; [done|]. split; [done|]. split.
  - intros p Hp. destruct (Hsome p Hp) as (fi & _ & [->| ->]).
    + apply has_fields_default.
    + apply has_fields_extracted.
  - intros fi Hfi Hshape.
    destruct (first_span_of_shape fi Hshape)
      as [Hb|(Hb & [(e & He & Hlk)|(span & Hs & Hvals)])].
    + exists PDFEditor.default_properties.
      split; [by eapply Hnone|apply populated_default].
    + exists (extracted_properties fi). split; [eapply Hspan; eauto|].
      rewrite (extracted_without_span _ _ He). apply populated_default.
    + exists (extracted_properties fi). split; [eapply Hspan; eauto|].
      by eapply populated_extracted.
Qed.

(** C2.  When the lookup returns a dictionary without blocks, or whose
    first block has no lines, or whose first line has no spans, the
    extractor returns exactly the defaults: font ["helv"], size [11],
    colour [(0, 0, 0)]. *)
Theorem extract_defaults_without_spans page inst (st : Ed W D) font_info :
  get_text_dict F page inst (doc st) = Ok font_info →
  no_spans font_info →
  PDFEditor.get_text_properties F page inst st
    = (logged (EvGetText inst) st, Ok (Some PDFEditor.default_properties)) ∧
  PDFEditor.default_properties !! "font" = Some (PStr "helv") ∧
  PDFEditor.default_properties !! "size" = Some (PInt 11) ∧
  PDFEditor.default_properties !! "color" = Some (PTuple [PInt 0; PInt 0; PInt 0]).
Proof.
  intros Hfi Hno. split; [|apply default_properties_lookup].
  destruct (get_text_properties_run F page inst st)
    as (r & E & _ & _ & Hnone & Hspan).
  rewrite E. do 2 f_equal.
  destruct (first_span_of_no_spans font_info Hno) as [Hb|(Hb & e & He & Hlk)].
  - by eapply Hnone.
  - rewrite <- (extracted_without_span _ _ He). eapply Hspan; eauto.
Qed.

End ExtractorClaims.

(** ** The redactor, the inserter and one match *)

Section MatchFacts.

Context {W D Pg : Type} (P : Platform W) (F : Fitz W D Pg).

Import PDFEditor.

Lemma emits_bind_lift {S A B} (lg : S → list Event) Q (r : Res A) (f : A → M S B) :
  (∀ a, r = Ok a → emits lg Q (f a)) → emits lg Q (lift r ≫= f).
Proof.
  intros Hf s. unfold mbind, M_bind, lift.
  destruct r as [a|e]; [by apply Hf|].
  exists []. by rewrite app_nil_r.
Qed.

Lemma emits_event Q ev : Q ev → emits (@ed_log W D) Q (event ev).
Proof. intros H. apply emits_lift_sys. by apply emits_emit. Qed.

Lemma redact_text_total page inst : total (redact_text F page inst).
Proof. apply total_try_except. intros _. apply total_ret. Qed.

Lemma redact_text_emits page inst :
  emits ed_log (λ ev, is_redact_event ev = true) (redact_text F page inst).
Proof.
  unfold redact_text.
  repeat first [ by apply emits_event | emits_step ].
Qed.

Lemma insert_new_text_total page position text properties :
  total (insert_new_text P F page position text properties).
Proof. apply total_try_except. intros _. apply total_ret. Qed.

Lemma insert_new_text_emits page position text properties :
  emits ed_log (insertion_event position text properties)
    (insert_new_text P F page position text properties).
Proof.
  unfold insert_new_text.
  apply emits_try_except; [|intros _; apply emits_ret].
  apply emits_bind; [apply emits_lift|intros font_name].
  apply emits_bind; [apply emits_lift|intros builtin].
  apply emits_bind.
  { destruct builtin; [apply emits_ret|].
    apply emits_bind.
    - apply emits_lift_sys.
      eapply emits_mono; [|apply find_font_emits]. intros ev H. by left.
    - intros font_file. destruct (path_truthy font_file); [|apply emits_ret].
      apply emits_try_except; [|intros _; apply emits_ret].
      apply emits_bind; [apply emits_event; right; left; by eexists|intros _].
      apply emits_bind; [apply emits_call_doc_world|intros _].
      apply emits_ret. }
  intros use_font.
  apply emits_bind_lift. intros fontsize Hsize.
  apply emits_bind; [apply emits_lift|intros color].
  apply emits_bind.
  { apply emits_event. right. right. exists use_font, fontsize, color.
    split; [|done]. unfold dict_getitem in Hsize.
    by destruct (properties !! "size"); simplify_eq. }
  intros _. apply emits_bind; [apply emits_call_doc|intros _]. apply emits_ret.
Qed.

(** The offset is [size + size * 0.08] for the float the size converts to. *)
Lemma baseline_offset_inv font_size offset :
  baseline_offset font_size = Ok offset →
  ∃ size, to_float font_size = Ok size ∧ offset = (size + size * 0.08)%float.
Proof.
  unfold baseline_offset, mul_float, add_float. unfold mbind, Res_bind.
  destruct (to_float font_size) as [size|]; [|done].
  intros [= <-]. by exists size.
Qed.

Lemma baseline_offset_of_float font_size size :
  to_float font_size = Ok size → is_ok (baseline_offset font_size) = true.
Proof.
  intros E. unfold baseline_offset, mul_float, add_float, mbind, Res_bind.
  by rewrite E.
Qed.

Lemma placed_other new_text insts ev :
  is_insert_event ev = false → placed new_text insts ev.
Proof. intros H ? ? ? ? ? ->. done. Qed.

(** Wherever one match is processed, what it draws is placed at it. *)
Lemma replace_instance_emits page new_text inst :
  emits ed_log (placed new_text [inst]) (replace_instance P F page new_text inst).
Proof.
  unfold replace_instance.
  apply emits_bind.
  { intros st. destruct (get_text_properties_run F page inst st) as (r & E & _).
    rewrite E. exists [EvGetText inst]. split; [done|].
    constructor; [|done]. by apply placed_other. }
  intros properties. destruct (properties_falsy properties); [apply emits_ret|].
  apply emits_bind.
  { eapply emits_mono; [|apply redact_text_emits].
    intros ev H. apply placed_other. by destruct ev. }
  intros redacted. destruct (negb redacted); [apply emits_ret|].
  apply emits_bind_lift. intros font_size Hsize.
  apply emits_bind_lift. intros offset Hoffset.
  apply emits_bind; [|intros _; apply emits_ret].
  eapply emits_mono; [|apply insert_new_text_emits].
  intros ev [H|[[f ->]|(fn & sz & c & Hsz & ->)]].
  - apply placed_other. by destruct ev.
  - by apply placed_other.
  - intros ????? [= <- <- <- <- <-]. split; [done|].
    unfold dict_getitem in Hsize. rewrite Hsz in Hsize. simplify_eq.
    destruct (baseline_offset_inv _ _ Hoffset) as (size & Hf & ->).
    exists inst, size. split; [by left|done].
Qed.

Lemma bind_lift_ok {S A B} (r : Res A) (f : A → M S B) a s :
  r = Ok a → (lift r ≫= f) s = f a s.
Proof. by intros ->. Qed.

Lemma clips_app evs evs' : clips (evs ++ evs') = clips evs ++ clips evs'.
Proof. apply omap_app. Qed.

Lemma clips_none evs :
  Forall (λ ev, is_lookup_event ev = false) evs → clips evs = [].
Proof.
  induction 1 as [|ev evs Hev _ IH]; [done|].
  by destruct ev.
Qed.

Lemma insertion_event_no_lookup position text properties ev :
  insertion_event position text properties ev → is_lookup_event ev = false.
Proof.
  intros [H|[[f ->]|(fn & sz & c & _ & ->)]]; [by destruct ev|done..].
Qed.

(** The size of a dictionary the extractor returned converts to a float,
    when the sizes the library reports do. *)
Lemma extracted_size_numeric page inst (st : Ed W D) p :
  sizes_numeric F →
  (get_text_properties F page inst st).2 = Ok (Some p) →
  ∃ sz, dict_getitem p "size" = Ok sz ∧ is_ok (baseline_offset sz) = true.
Proof.
  intros Hnum Hr.
  destruct (get_text_properties_run F page inst st) as (r & E & _ & Hsome & _).
  rewrite E in Hr. simpl in Hr. injection Hr as ->.
  destruct (Hsome p eq_refl) as (fi & Hfi & Hp).
  assert (has_fields p) as Hfields.
  { destruct Hp as [E1|E1]; rewrite E1;
      [apply has_fields_default|apply has_fields_extracted]. }
  destruct (Hfields "size") as [sz Hsz]; [right; left|].
  exists sz. unfold dict_getitem. rewrite Hsz. split; [done|].
  destruct Hp as [->| ->].
  - destruct default_properties_lookup as (_ & Hd & _).
    rewrite Hd in Hsz. by injection Hsz as <-.
  - destruct (extracted_size _ _ Hsz) as [->|(span & Hspan & Hget)]; [done|].
    pose proof (Hnum _ _ _ _ _ _ Hfi Hspan Hget) as Hok.
    destruct (to_float sz) as [size|] eqn:Ef; [|done].
    by eapply baseline_offset_of_float.
Qed.

(** One match, whatever becomes of it, ends normally: the loop goes on. *)
Lemma replace_instance_step page new_text inst (st : Ed W D) :
  sizes_numeric F →
  ∃ st' evs,
    replace_instance P F page new_text inst st = (st', Ok ()) ∧
    ed_log st' = ed_log st ++ EvGetText inst :: evs ∧
    Forall (λ ev, is_lookup_event ev = false) evs.
Proof.
  intros Hnum. unfold replace_instance.
  pose proof (extracted_size_numeric page inst st) as Hsize.
  destruct (get_text_properties_run F page inst st) as (r & E & _).
  rewrite (bind_ok _ _ _ _ _ E). rewrite E in Hsize. simpl in Hsize.
  destruct (properties_falsy r) eqn:Hfalsy.
  { exists (logged (EvGetText inst) st), []. by repeat split. }
  destruct r as [p|]; [|done]. simpl.
  destruct (Hsize p Hnum eq_refl) as (sz & Hsz & Hoff).
  set (st1 := logged (EvGetText inst) st).
  destruct (redact_text_total page inst st1) as (st2 & redacted & E2).
  destruct (redact_text_emits page inst st1) as (evs2 & L2 & Q2).
  rewrite E2 in L2. simpl in L2. rewrite (bind_ok _ _ _ _ _ E2).
  assert (Forall (λ ev, is_lookup_event ev = false) evs2) as Q2'.
  { eapply Forall_impl; [done|]. intros ev H. by destruct ev. }
  destruct (negb redacted).
  { exists st2, evs2. split; [done|]. split; [|done].
    rewrite L2. unfold st1, ed_log, logged. simpl. by rewrite <- app_assoc. }
  rewrite (bind_lift_ok _ _ _ _ Hsz).
  destruct (baseline_offset sz) as [offset|] eqn:Eoff; [|done].
  rewrite (bind_lift_ok _ _ offset _ eq_refl).
  set (position := mkPoint _ _).
  destruct (insert_new_text_total page position new_text p st2)
    as (st3 & inserted & E3).
  destruct (insert_new_text_emits page position new_text p st2)
    as (evs3 & L3 & Q3).
  rewrite E3 in L3. simpl in L3. rewrite (bind_ok _ _ _ _ _ E3).
  exists st3, (evs2 ++ evs3). split; [done|]. split.
  - rewrite L3, L2. unfold st1, ed_log, logged. simpl.
    by rewrite <- !app_assoc.
  - apply Forall_app. split; [done|].
    eapply Forall_impl; [done|]. apply insertion_event_no_lookup.
Qed.

(** Every match is looked up, in order, and the loop ends normally. *)
Lemma for_each_replace_total page new_text insts (st : Ed W D) :
  sizes_numeric F →
  ∃ st', for_each (replace_instance P F page new_text) insts st = (st', Ok ()) ∧
         clips (ed_log st') = clips (ed_log st) ++ insts.
Proof.
  intros Hnum. revert st. induction insts as [|inst insts IH]; intros st.
  - exists st. by rewrite app_nil_r.
  - destruct (replace_instance_step page new_text inst st Hnum)
      as (st1 & evs & E & L & Q).
    destruct (IH st1) as (st' & E' & L').
    exists st'. simpl. rewrite (bind_ok _ _ _ _ _ E). split; [done|].
    rewrite L', L, clips_app.
    change (clips (EvGetText inst :: evs)) with (inst :: clips evs).
    rewrite (clips_none evs Q). by rewrite <- app_assoc.
Qed.

Lemma replace_instance_skipped page new_text inst (st : Ed W D) e :
  get_text_dict F page inst (doc st) = Raise e →
  replace_instance P F page new_text inst st = (logged (EvGetText inst) st, Ok ()).
Proof.
  intros Hraise. unfold replace_instance.
  destruct (get_text_properties_run F page inst st) as (r & E & Hnone & _).
  rewrite (bind_ok _ _ _ _ _ E), (Hnone _ Hraise). done.
Qed.

(** When the lookup raises for every match, the loop only logs its
    lookups: the document and the world are as they were. *)
Lemma for_each_all_skipped page new_text insts (st : Ed W D) :
  (∀ inst, inst ∈ insts → ∃ e, get_text_dict F page inst (doc st) = Raise e) →
  for_each (replace_instance P F page new_text) insts st
  = (mkEd (mkSys (world (sys st)) (log (sys st) ++ (EvGetText <$> insts))) (doc st),
     Ok ()).
Proof.
  revert st. induction insts as [|inst insts IH]; intros st Hall.
  - simpl. rewrite app_nil_r. by destruct st as [[] ?].
  - destruct (Hall inst) as [e He]; [by left|].
    simpl. rewrite (bind_ok _ _ _ _ _ (replace_instance_skipped _ _ _ _ _ He)).
    rewrite IH.
    + unfold logged. simpl. by rewrite <- app_assoc.
    + intros i Hi. apply Hall. by right.
Qed.

End MatchFacts.

(** ** C5 and C6: the font the inserter draws with *)

Section InserterClaims.

Context {W D Pg : Type} (P : Platform W) (F : Fitz W D Pg).

Import PDFEditor.

Lemma in_builtin_fonts_str name :
  in_builtin_fonts (PStr name) = Ok (bool_decide (name ∈ builtin_fonts)).
Proof. done. Qed.

(** C5.  When the font of [properties] is one of the built-in aliases, the
    inserter logs at most one call, the drawing call with that alias as
    font name: no call of the font locator, no scan of a directory, no
    request to the network, and the world is left as it was. *)
Theorem builtin_alias_skips_locator page position text properties alias
    (st : Ed W D) :
  properties !! "font" = Some (PStr alias) →
  alias ∈ builtin_fonts →
  let run := insert_new_text P F page position text properties st in
  let evs :=
    match properties !! "size", properties !! "color" with
    | Some fontsize, Some color =>
        [EvInsertText position text (PStr alias) fontsize color]
    | _, _ => []
    end in
  ed_log run.1 = ed_log st ++ evs ∧
  Forall (λ ev, is_font_event ev = false) evs ∧
  world (sys run.1) = world (sys st) ∧
  ∃ ok, run.2 = Ok ok.
Proof.
  intros Hfont Hin. cbv zeta.
  unfold insert_new_text, try_except, mbind, M_bind, lift, dict_getitem.
  rewrite Hfont, in_builtin_fonts_str, (bool_decide_true _ Hin). simpl.
  destruct (properties !! "size") as [fontsize|]; simpl;
    [|rewrite app_nil_r; by eauto].
  destruct (properties !! "color") as [color|]; simpl;
    [|rewrite app_nil_r; by eauto].
  unfold call_doc. simpl.
  destruct (insert_text F page position text (PStr alias) fontsize color (doc st))
    as [d [[]|e]]; simpl; repeat split; eauto.
Qed.

(** The locator logs its own entry first, then only its own events. *)
Lemma find_font_log font_name (s s1 : Sys W) r :
  FontManager.find_font P font_name s = (s1, r) →
  ∃ evs, log s1 = log s ++ EvFindFont font_name :: evs ∧
         Forall (λ ev, is_font_event ev = true) evs.
Proof.
  pose (rest :=
    (font_path ← FontManager.find_font_in_system P font_name;
     if path_truthy font_path then mret font_path
     else FontManager.download_google_font P font_name) : M (Sys W) (option string)).
  pose (s0 := mkSys (world s) (log s ++ [EvFindFont font_name])).
  change (FontManager.find_font P font_name s) with (rest s0). intros E.
  assert (emits log (λ ev, is_font_event ev = true) rest) as Hrest.
  { unfold rest, FontManager.find_font_in_system.
    repeat first [ by apply emits_emit | apply search_dirs_emits
                 | apply download_google_font_emits | emits_step ]. }
  destruct (Hrest s0) as (evs & L & Q). rewrite E in L. simpl in L.
  exists evs. split; [|done]. rewrite L. by rewrite <- app_assoc.
Qed.

(** C6.  When the font of [properties] is a name outside the built-in
    aliases, the inserter calls the font locator.  If the locator returns a
    file, the inserter registers it with the document and draws with the
    original name, or with ["helv"] when the registration raises; if the
    locator returns no file, it draws with ["helv"] and registers nothing. *)
Theorem other_font_goes_through_locator page position text properties name
    fontsize color (st : Ed W D) s1 font_file :
  properties !! "font" = Some (PStr name) →
  name ∉ builtin_fonts →
  properties !! "size" = Some fontsize →
  properties !! "color" = Some color →
  FontManager.find_font P (PStr name) (sys st) = (s1, Ok font_file) →
  (∃ evs, log s1 = ed_log st ++ EvFindFont (PStr name) :: evs ∧
          Forall (λ ev, is_font_event ev = true) evs) ∧
  insert_new_text P F page position text properties st =
    if path_truthy font_file then
      let file := default "" font_file in
      let '(d1, loaded) := load_font F file (world s1) (doc st) in
      let use_font := if is_ok loaded then PStr name else PStr "helv" in
      let '(d2, drawn) :=
        insert_text F page position text use_font fontsize color d1 in
      (mkEd (mkSys (world s1)
               (log s1 ++ [EvLoadFont file;
                           EvInsertText position text use_font fontsize color]))
            d2,
       Ok (is_ok drawn))
    else
      let '(d2, drawn) :=
        insert_text F page position text (PStr "helv") fontsize color (doc st) in
      (mkEd (mkSys (world s1)
               (log s1 ++ [EvInsertText position text (PStr "helv") fontsize color]))
            d2,
       Ok (is_ok drawn)).
Proof.
  intros Hfont Hout Hsize Hcolor Hfind. split; [by eapply find_font_log|].
  unfold insert_new_text, try_except, mbind, M_bind, lift, dict_getitem.
  rewrite Hfont, in_builtin_fonts_str, (bool_decide_false _ Hout).
  rewrite Hsize, Hcolor. unfold lift_sys at 1. rewrite Hfind.
  destruct (path_truthy font_file); simpl.
  - unfold call_doc_world, call_doc. simpl.
    destruct (load_font F (default "" font_file) (world s1) (doc st))
      as [d1 [[]|e]]; simpl.
    + destruct (insert_text F page position text (PStr name) fontsize color d1)
        as [d2 [[]|e]]; simpl; by rewrite <- app_assoc.
    + destruct (insert_text F page position text (PStr "helv") fontsize color d1)
        as [d2 [[]|e']]; simpl; by rewrite <- app_assoc.
  - unfold call_doc. simpl.
    destruct (insert_text F page position text (PStr "helv") fontsize color (doc st))
      as [d2 [[]|e]]; done.
Qed.

End InserterClaims.

(** ** C3, C9 and C10: the pipeline *)

Section PipelineClaims.

Context {W D Pg : Type} (P : Platform W) (F : Fitz W D Pg).

Import PDFEditor.

(** [edit_text] once the document is open, the page loaded and the search
    done: the loop, then the save, whose outcome is the result. *)
Lemma edit_text_searched filename page_number old_text new_text (s : Sys W)
    d page insts :
  fitz_open F filename (world s) = Ok d →
  load_page F page_number d = Ok page →
  search_for F page old_text d = Ok insts →
  edit_text P F filename page_number old_text new_text s =
    match for_each (replace_instance P F page new_text) insts
            (mkEd (searched filename page_number old_text s) d) with
    | (st', Raise _) => (sys st', false)
    | (st', Ok _) =>
        match filename with
        | None => (sys st', false)
        | Some name =>
            let output_path := Str.replace name ".pdf" "_edited.pdf" in
            let '(w', saved) := save F output_path (doc st') (world (sys st')) in
            (mkSys w' (ed_log st' ++ [EvSave output_path]), is_ok saved)
        end
    end.
Proof.
  intros Hopen Hpage Hsearch.
  unfold edit_text, edit_opened. rewrite Hopen.
  unfold mbind, M_bind, event, lift_sys, emit, read_doc, lift. simpl.
  rewrite Hpage. simpl. rewrite Hsearch.
  unfold searched. rewrite <- !app_assoc. simpl.
  destruct (for_each _ _ _) as [st' [[]|e]]; [|done].
  destruct filename as [name|]; [|done].
  unfold output_path_of, call_world_doc, ed_log. cbn -[Str.replace].
  by destruct (save F _ (doc st') (world (sys st'))) as [w' [[]|e]].
Qed.

(** C3 (as amended).  Whatever each match comes to (no properties, a failed
    redaction, a failed insertion or a replacement), the loop looks up
    every match in order and ends normally.  What ends the invocation with
    [False] is an exception from opening the document, from loading the
    page, from the search or from the final save. *)
Theorem per_match_failures_are_skipped :
  (sizes_numeric F →
   ∀ page new_text insts (st : Ed W D),
     ∃ st', for_each (replace_instance P F page new_text) insts st = (st', Ok ()) ∧
            clips (ed_log st') = clips (ed_log st) ++ insts) ∧
  (∀ page new_text inst rest (st st1 : Ed W D),
     get_text_properties F page inst st = (st1, Ok None) →
     for_each (replace_instance P F page new_text) (inst :: rest) st
     = for_each (replace_instance P F page new_text) rest st1) ∧
  (∀ page new_text inst rest (st st1 st2 : Ed W D) properties,
     get_text_properties F page inst st = (st1, Ok (Some properties)) →
     properties_falsy (Some properties) = false →
     redact_text F page inst st1 = (st2, Ok false) →
     for_each (replace_instance P F page new_text) (inst :: rest) st
     = for_each (replace_instance P F page new_text) rest st2) ∧
  (∀ page new_text inst rest (st st1 st2 st3 : Ed W D) properties font_size
     offset inserted,
     get_text_properties F page inst st = (st1, Ok (Some properties)) →
     properties_falsy (Some properties) = false →
     redact_text F page inst st1 = (st2, Ok true) →
     properties !! "size" = Some font_size →
     baseline_offset font_size = Ok offset →
     insert_new_text P F page (mkPoint (x0 inst) (y0 inst + offset)%float)
       new_text properties st2 = (st3, Ok inserted) →
     for_each (replace_instance P F page new_text) (inst :: rest) st
     = for_each (replace_instance P F page new_text) rest st3) ∧
  (∀ filename page_number old_text new_text (s : Sys W) e,
     fitz_open F filename (world s) = Raise e →
     edit_text P F filename page_number old_text new_text s
     = (mkSys (world s) (log s ++ [EvOpen filename]), false)) ∧
  (∀ filename page_number old_text new_text (s : Sys W) d e,
     fitz_open F filename (world s) = Ok d →
     load_page F page_number d = Raise e →
     edit_text P F filename page_number old_text new_text s
     = (mkSys (world s) (log s ++ [EvOpen filename; EvLoadPage page_number]),
        false)) ∧
  (∀ filename page_number old_text new_text (s : Sys W) d page e,
     fitz_open F filename (world s) = Ok d →
     load_page F page_number d = Ok page →
     search_for F page old_text d = Raise e →
     edit_text P F filename page_number old_text new_text s
     = (searched filename page_number old_text s, false)) ∧
  (∀ name page_number old_text new_text (s : Sys W) d page insts st' w' e,
     fitz_open F (Some name) (world s) = Ok d →
     load_page F page_number d = Ok page →
     search_for F page old_text d = Ok insts →
     for_each (replace_instance P F page new_text) insts
       (mkEd (searched (Some name) page_number old_text s) d) = (st', Ok ()) →
     save F (Str.replace name ".pdf" "_edited.pdf") (doc st') (world (sys st'))
       = (w', Raise e) →
     (edit_text P F (Some name) page_number old_text new_text s).2 = false).
Proof.
  split; [|split; [|split; [|split; [|split; [|split; [|split]]]]]].
  - intros Hnum page new_text insts st. by apply for_each_replace_total.
  - intros * Hprops.
    assert (replace_instance P F page new_text inst st = (st1, Ok ())) as Hstep.
    { unfold replace_instance. by rewrite (bind_ok _ _ _ _ _ Hprops). }
    cbn [for_each]. by rewrite (bind_ok _ _ _ _ _ Hstep).
  - intros * Hprops Hfalsy Hredact.
    assert (replace_instance P F page new_text inst st = (st2, Ok ())) as Hstep.
    { unfold replace_instance. rewrite (bind_ok _ _ _ _ _ Hprops), Hfalsy.
      cbn [default from_option id]. by rewrite (bind_ok _ _ _ _ _ Hredact). }
    cbn [for_each]. by rewrite (bind_ok _ _ _ _ _ Hstep).
  - intros * Hprops Hfalsy Hredact Hsize Hoffset Hinsert.
    assert (replace_instance P F page new_text inst st = (st3, Ok ())) as Hstep.
    { unfold replace_instance. rewrite (bind_ok _ _ _ _ _ Hprops), Hfalsy.
      cbn [default from_option id]. rewrite (bind_ok _ _ _ _ _ Hredact).
      cbn [negb]. unfold dict_getitem. rewrite Hsize.
      rewrite (bind_lift_ok _ _ _ _ eq_refl), (bind_lift_ok _ _ _ _ Hoffset).
      by rewrite (bind_ok _ _ _ _ _ Hinsert). }
    cbn [for_each]. by rewrite (bind_ok _ _ _ _ _ Hstep).
  - intros * Hopen. unfold edit_text. by rewrite Hopen.
  - intros * Hopen Hpage. unfold edit_text, edit_opened. rewrite Hopen.
    unfold mbind, M_bind, event, lift_sys, emit, read_doc. simpl.
    rewrite Hpage. by rewrite <- app_assoc.
  - intros * Hopen Hpage Hsearch. unfold edit_text, edit_opened. rewrite Hopen.
    unfold mbind, M_bind, event, lift_sys, emit, read_doc. simpl.
    rewrite Hpage. simpl. rewrite Hsearch. unfold searched.
    by rewrite <- !app_assoc.
  - intros * Hopen Hpage Hsearch Hloop Hsave.
    rewrite (edit_text_searched _ _ _ _ _ _ _ _ Hopen Hpage Hsearch).
    rewrite Hloop. cbv zeta. by rewrite Hsave.
Qed.

(** C9.  When the search finds nothing, [edit_text] saves the document as
    it was opened, under the derived name, and returns [True] when the save
    returns; the saved file has the page count of the input document. *)
Theorem no_match_still_saves name page_number old_text new_text (s : Sys W)
    d page w' :
  save_keeps_page_count F →
  fitz_open F (Some name) (world s) = Ok d →
  load_page F page_number d = Ok page →
  search_for F page old_text d = Ok [] →
  save F (Str.replace name ".pdf" "_edited.pdf") d (world s) = (w', Ok ()) →
  edit_text P F (Some name) page_number old_text new_text s
  = (mkSys w' (log s ++ [EvOpen (Some name); EvLoadPage page_number;
                         EvSearch old_text;
                         EvSave (Str.replace name ".pdf" "_edited.pdf")]),
     true) ∧
  ∃ d', fitz_open F (Some (Str.replace name ".pdf" "_edited.pdf")) w' = Ok d' ∧
        page_count F d' = page_count F d.
Proof.
  intros Hkeep Hopen Hpage Hsearch Hsave. split; [|by eapply Hkeep].
  rewrite (edit_text_searched _ _ _ _ _ _ _ _ Hopen Hpage Hsearch).
  cbn -[Str.replace]. rewrite Hsave. unfold ed_log, searched. cbn -[Str.replace].
  by rewrite <- app_assoc.
Qed.

(** C10.  Once the document is open, the page loaded and the search done,
    the result of [edit_text] is the outcome of the final save and nothing
    else: the loop ends normally whatever the matches came to.  In
    particular, when the lookup raises for every match, the document that is
    saved is the one that was opened and the log shows no redaction and no
    drawing call, and the result is still the outcome of the save. *)
Theorem result_is_the_save_outcome name page_number old_text new_text
    (s : Sys W) d page insts :
  sizes_numeric F →
  fitz_open F (Some name) (world s) = Ok d →
  load_page F page_number d = Ok page →
  search_for F page old_text d = Ok insts →
  let output_path := Str.replace name ".pdf" "_edited.pdf" in
  ∃ st',
    for_each (replace_instance P F page new_text) insts
      (mkEd (searched (Some name) page_number old_text s) d) = (st', Ok ()) ∧
    edit_text P F (Some name) page_number old_text new_text s
    = (mkSys (save F output_path (doc st') (world (sys st'))).1
             (ed_log st' ++ [EvSave output_path]),
       is_ok (save F output_path (doc st') (world (sys st'))).2) ∧
    ((∀ inst, inst ∈ insts → ∃ e, get_text_dict F page inst d = Raise e) →
     doc st' = d ∧
     world (sys st') = world s ∧
     ed_log st' = log (searched (Some name) page_number old_text s)
                  ++ (EvGetText <$> insts)).
Proof.
  intros Hnum Hopen Hpage Hsearch. cbv zeta.
  set (st0 := mkEd _ d).
  destruct (for_each_replace_total P F page new_text insts st0 Hnum)
    as (st' & Hloop & _).
  exists st'. split; [done|]. split.
  - rewrite (edit_text_searched _ _ _ _ _ _ _ _ Hopen Hpage Hsearch).
    fold st0. rewrite Hloop. cbv zeta.
    by destruct (save F _ (doc st') (world (sys st'))).
  - intros Hall.
    rewrite (for_each_all_skipped P F page new_text insts st0 Hall) in Hloop.
    by injection Hloop as <-.
Qed.

End PipelineClaims.

(** ** C7: what the font locator lets escape *)

Section LocatorClaims.

Context {W : Type} (P : Platform W).

(** C7 (the code diverges).  On Windows without [WINDIR] in the
    environment, [find_font] raises [KeyError] to its caller: the lookup in
    [get_system_font_dirs] is outside every [try]. *)
Theorem find_font_raises_without_windir font_name (s : Sys W) :
  sys_platform P = "win32" →
  environ P !! "WINDIR" = None →
  FontManager.find_font P font_name s
  = (mkSys (world s) (log s ++ [EvFindFont font_name]), Raise KeyError).
Proof.
  intros Hwin Henv.
  unfold FontManager.find_font, FontManager.find_font_in_system.
  unfold FontManager.get_system_font_dirs, FontManager.environ_getitem.
  rewrite Hwin, Henv. done.
Qed.

Lemma total_bind {S A B} (m : M S A) (f : A → M S B) :
  total m → (∀ a, total (f a)) → total (m ≫= f).
Proof.
  intros Hm Hf s. destruct (Hm s) as (s' & a & E).
  rewrite (bind_ok _ _ _ _ _ E). apply Hf.
Qed.

Lemma search_font_in_directory_total directory name :
  total (FontManager._search_font_in_directory P directory (PStr name)).
Proof.
  intros s.
  unfold FontManager._search_font_in_directory, mbind, M_bind, lift, emit, read_world.
  cbn -[Str.replace Str.lower]. by eexists _, _.
Qed.

Lemma search_dirs_total name font_dirs :
  total (FontManager.search_dirs P (PStr name) font_dirs).
Proof.
  induction font_dirs as [|d rest IH]; [apply total_ret|].
  intros s. simpl. unfold mbind, M_bind, emit, read_world. simpl.
  destruct (negb _); [apply IH|].
  destruct (path_truthy _); [by eexists _, _|apply IH].
Qed.

Lemma download_google_font_total font_name :
  total (FontManager.download_google_font P font_name).
Proof. apply total_try_except. intros _. apply total_ret. Qed.

(** Where [get_system_font_dirs] returns, the locator returns. *)
Lemma find_font_returns_when_dirs_known name font_dirs :
  FontManager.get_system_font_dirs P = Ok font_dirs →
  total (FontManager.find_font P (PStr name)).
Proof.
  intros Hdirs. unfold FontManager.find_font, FontManager.find_font_in_system.
  apply total_bind; [intros s; by eexists _, _|intros _].
  apply total_bind.
  - rewrite Hdirs. intros s.
    destruct (search_dirs_total name font_dirs s) as (s' & a & E).
    exists s', a. by rewrite <- E.
  - intros font_path. destruct (path_truthy font_path);
      [apply total_ret|apply download_google_font_total].
Qed.

(** Off Windows the directories are always known. *)
Lemma get_system_font_dirs_off_windows :
  sys_platform P ≠ "win32" →
  ∃ font_dirs, FontManager.get_system_font_dirs P = Ok font_dirs.
Proof.
  intros Hwin. unfold FontManager.get_system_font_dirs.
  destruct (String.eqb_spec (sys_platform P) "win32"); [done|].
  destruct (String.eqb _ "darwin"); by eexists.
Qed.

(** Off Windows, [find_font] returns for every family name that is a
    string: a path or [None], never an exception, whatever the disk and the
    network do. *)
Theorem find_font_returns_off_windows name :
  sys_platform P ≠ "win32" →
  total (FontManager.find_font P (PStr name)).
Proof.
  intros Hwin. destruct (get_system_font_dirs_off_windows Hwin) as [dirs Hdirs].
  by eapply find_font_returns_when_dirs_known.
Qed.

End LocatorClaims.

(** ** C8: the output path *)

Section OutputPath.

Import PDFEditor.

Lemma replace_go_no_occurrence old new s :
  Str.index old s = None → Str.replace_go old new 0 s = s.
Proof.
  induction s as [|c s IH]; [done|]. cbn [Str.index Str.replace_go].
  destruct (String.prefix old (String c s)); [done|].
  destruct (Str.index old s); [done|]. intros _. by rewrite IH.
Qed.

(** A path in which [".pdf"] does not occur is returned as it is: the
    output path is the source path. *)
Lemma output_path_without_extension name :
  Str.index ".pdf" name = None → output_path_of (Some name) = Ok name.
Proof.
  intros H. unfold output_path_of, Str.replace.
  by rewrite replace_go_no_occurrence.
Qed.

(** A path that ends in [".pdf"] and holds no other [".pdf"] gets the
    suffix before its extension. *)
Theorem output_path_single_extension stem :
  Str.index ".pdf" (stem +:+ ".pdf") = Some (String.length stem) →
  output_path_of (Some (stem +:+ ".pdf")) = Ok (stem +:+ "_edited.pdf").
Proof.
  unfold output_path_of, Str.replace. intros H. f_equal.
  induction stem as [|c stem IH]; [done|].
  change (String c stem +:+ ".pdf") with (String c (stem +:+ ".pdf")) in *.
  cbn [Str.index Str.replace_go String.length] in *.
  destruct (String.prefix ".pdf" (String c (stem +:+ ".pdf"))); [done|].
  destruct (Str.index ".pdf" (stem +:+ ".pdf")) as [i|]; [|done].
  injection H as ->. by rewrite IH.
Qed.

(** C8 (the code diverges).  The output path is the file name with every
    [".pdf"] in it replaced: a name with an upper-case extension is
    returned unchanged, so that [doc.save] is handed the path of the source
    file, and a directory whose name holds [".pdf"] is renamed too. *)
Theorem output_path_is_the_source_path :
  output_path_of (Some "scan.PDF") = Ok "scan.PDF" ∧
  output_path_of (Some "in.pdf.d/scan.pdf") = Ok "in_edited.pdf.d/scan_edited.pdf" ∧
  edit_text Sample.linux (Sample.fitz Sample.no_hits) (Some "scan.PDF") 0
    "sensitive" "redacted" (mkSys Sample.upper_case_disk [])
  = (mkSys (Sample.mkWorld [("scan.PDF", 1%nat); ("scan.PDF", 1%nat)] [] [] true)
           [EvOpen (Some "scan.PDF"); EvLoadPage 0; EvSearch "sensitive";
            EvSave "scan.PDF"],
     true).
Proof.
  split; [by apply output_path_without_extension|].
  split; by vm_compute.
Qed.

End OutputPath.

(** ** Concrete runs in the scripted environment *)

Section SampleRuns.

Import PDFEditor.

Lemma sample_text_dict_shape font size :
  text_dict_shape (Sample.text_dict_of (Sample.span_dict font size)).
Proof.
  unfold text_dict_shape, Sample.text_dict_of, Sample.span_dict.
  eexists. split; [done|]. intros ? [= <-]%lookup_singleton_Some%proj2.
  eexists. split; [done|]. constructor; [|done].
  eexists. split; [done|]. intros ? [= <-]%lookup_singleton_Some%proj2.
  eexists. split; [done|]. constructor; [|done].
  eexists. split; [done|]. intros ? [= <-]%lookup_singleton_Some%proj2.
  eexists. split; [done|]. constructor; [|done].
  eexists. split; [done|]. intros key x H.
  repeat (apply lookup_insert_Some in H as [[_ <-]|[_ H]]; [done|]).
  by rewrite lookup_empty in H.
Qed.

Lemma sample_sizes_numeric sc font size :
  (∀ clip, Sample.text_dict sc clip
           = Ok (Sample.text_dict_of (Sample.span_dict font size))) →
  sizes_numeric (Sample.fitz sc).
Proof.
  intros Hsc page clip d font_info span v Hget Hspan Hsize.
  simpl in Hget. rewrite Hsc in Hget. injection Hget as <-.
  vm_compute in Hspan. injection Hspan as <-.
  vm_compute in Hsize. by injection Hsize as <-.
Qed.

Lemma sample_sizes_numeric_raising sc e :
  (∀ clip, Sample.text_dict sc clip = Raise e) → sizes_numeric (Sample.fitz sc).
Proof.
  intros Hsc page clip d font_info span v Hget. simpl in Hget.
  by rewrite Hsc in Hget.
Qed.

Lemma sample_save_keeps_page_count sc : save_keeps_page_count (Sample.fitz sc).
Proof.
  intros path d w w' Hsave. simpl in *.
  destruct (Sample.save_ok sc); [|done]. injection Hsave as <-.
  simpl. rewrite String.eqb_refl. by eexists.
Qed.

(** C1, as it was stated, fails: when the structured text lookup raises,
    the extractor returns [None]. *)
Lemma extract_returns_none_when_lookup_raises :
  get_text_dict (Sample.fitz Sample.lookup_raises) 0%nat Sample.hit1
    (doc (Sample.opened true)) = Raise (LibraryError "RuntimeError") ∧
  get_text_properties (Sample.fitz Sample.lookup_raises) 0%nat Sample.hit1
    (Sample.opened true)
  = (logged (EvGetText Sample.hit1) (Sample.opened true), Ok None).
Proof. split; reflexivity. Qed.

Lemma extract_returns_none_or_all_fields_witness :
  ∃ p, (get_text_properties (Sample.fitz Sample.all_good) 0%nat Sample.hit1
          (Sample.opened true)).2 = Ok (Some p) ∧
       populated p.
Proof.
  destruct (extract_returns_none_or_all_fields (Sample.fitz Sample.all_good)
              0%nat Sample.hit1 (Sample.opened true))
    as (r & E & _ & _ & Hshape).
  destruct (Hshape _ eq_refl (sample_text_dict_shape "helv" 12)) as (p & -> & Hp).
  exists p. rewrite E. split; [reflexivity|exact Hp].
Defined.

Lemma extract_defaults_without_spans_witness :
  get_text_properties (Sample.fitz Sample.no_hits) 0%nat Sample.hit1
    (Sample.opened true)
  = (logged (EvGetText Sample.hit1) (Sample.opened true),
     Ok (Some default_properties)).
Proof.
  refine (proj1 (extract_defaults_without_spans (Sample.fitz Sample.no_hits)
                   0%nat Sample.hit1 (Sample.opened true) (PDict ∅) _ _)).
  - reflexivity.
  - exists ∅. split; [reflexivity|]. left. reflexivity.
Defined.

(** C3, as it was stated, fails: the document opens, and the invocation is
    still lost, here because the page number is out of range. *)
Lemma page_out_of_range_is_fatal :
  fitz_open (Sample.fitz Sample.all_good) (Some "examples/example.pdf")
    (Sample.disk true) = Ok (Sample.mkDoc 1 []) ∧
  edit_text Sample.linux (Sample.fitz Sample.all_good)
    (Some "examples/example.pdf") 5 "sensitive" "redacted" (Sample.start true)
  = (mkSys (Sample.disk true)
       [EvOpen (Some "examples/example.pdf"); EvLoadPage 5],
     false).
Proof. split; by vm_compute. Qed.

Lemma per_match_failures_are_skipped_witness :
  ∃ st', for_each (replace_instance Sample.linux (Sample.fitz Sample.lookup_raises)
                     0%nat "redacted")
           [Sample.hit1; Sample.hit2] (Sample.opened true) = (st', Ok ()) ∧
         clips (ed_log st') = [Sample.hit1; Sample.hit2].
Proof.
  refine (proj1 (per_match_failures_are_skipped Sample.linux
                   (Sample.fitz Sample.lookup_raises)) _ 0%nat "redacted"
            [Sample.hit1; Sample.hit2] (Sample.opened true)).
  by eapply sample_sizes_numeric_raising.
Defined.

Lemma builtin_alias_skips_locator_witness :
  ed_log (insert_new_text Sample.linux (Sample.fitz Sample.all_good) 0%nat
            (mkPoint 100 61.88) "redacted" default_properties
            (Sample.opened true)).1
  = [EvInsertText (mkPoint 100 61.88) "redacted" (PStr "helv") (PInt 11)
       (PTuple [PInt 0; PInt 0; PInt 0])].
Proof.
  refine (proj1 (builtin_alias_skips_locator Sample.linux
                   (Sample.fitz Sample.all_good) 0%nat (mkPoint 100 61.88)
                   "redacted" default_properties "helv" (Sample.opened true) _ _)).
  - reflexivity.
  - apply (bool_decide_unpack _). by vm_compute.
Defined.

Lemma other_font_goes_through_locator_witness :
  ed_log (insert_new_text Sample.linux (Sample.fitz Sample.roboto) 0%nat
            (mkPoint 100 61.88) "redacted"
            (<["font" := PStr "Roboto"]> default_properties)
            (Sample.opened true)).1
  = log (FontManager.find_font Sample.linux (PStr "Roboto") (Sample.start true)).1
    ++ [EvLoadFont "/home/user/.local/share/fonts/Roboto.ttf";
        EvInsertText (mkPoint 100 61.88) "redacted" (PStr "Roboto") (PInt 11)
          (PTuple [PInt 0; PInt 0; PInt 0])].
Proof.
  rewrite (proj2 (other_font_goes_through_locator Sample.linux
                    (Sample.fitz Sample.roboto) 0%nat (mkPoint 100 61.88)
                    "redacted" (<["font" := PStr "Roboto"]> default_properties)
                    "Roboto" (PInt 11) (PTuple [PInt 0; PInt 0; PInt 0])
                    (Sample.opened true)
                    (FontManager.find_font Sample.linux (PStr "Roboto")
                       (Sample.start true)).1
                    (Some "/home/user/.local/share/fonts/Roboto.ttf")
                    ltac:(by vm_compute)
                    ltac:(apply (bool_decide_unpack _); by vm_compute)
                    ltac:(by vm_compute) ltac:(by vm_compute)
                    ltac:(by vm_compute))).
  reflexivity.
Defined.

Lemma find_font_raises_without_windir_witness :
  FontManager.find_font Sample.windows_without_windir (PStr "Roboto")
    (Sample.start true)
  = (mkSys (Sample.disk true) [EvFindFont (PStr "Roboto")], Raise KeyError).
Proof.
  exact (find_font_raises_without_windir Sample.windows_without_windir
           (PStr "Roboto") (Sample.start true) eq_refl eq_refl).
Defined.

Lemma no_match_still_saves_witness :
  edit_text Sample.linux (Sample.fitz Sample.no_hits)
    (Some "examples/example.pdf") 0 "absent" "redacted" (Sample.start true)
  = (mkSys (Sample.mkWorld [("examples/example_edited.pdf", 1%nat);
                            ("examples/example.pdf", 1%nat)] [] [] true)
       [EvOpen (Some "examples/example.pdf"); EvLoadPage 0; EvSearch "absent";
        EvSave "examples/example_edited.pdf"],
     true).
Proof.
  refine (proj1 (no_match_still_saves Sample.linux (Sample.fitz Sample.no_hits)
                   "examples/example.pdf" 0 "absent" "redacted" (Sample.start true)
                   (Sample.mkDoc 1 []) 0%nat _ _ _ _ _ _)).
  - apply sample_save_keeps_page_count.
  - reflexivity.
  - reflexivity.
  - reflexivity.
  - reflexivity.
Defined.

Lemma result_is_the_save_outcome_witness :
  edit_text Sample.linux (Sample.fitz Sample.lookup_raises)
    (Some "examples/example.pdf") 0 "sensitive" "redacted" (Sample.start true)
  = (mkSys (Sample.mkWorld [("examples/example_edited.pdf", 1%nat);
                            ("examples/example.pdf", 1%nat)] [] [] true)
       [EvOpen (Some "examples/example.pdf"); EvLoadPage 0; EvSearch "sensitive";
        EvGetText Sample.hit1; EvGetText Sample.hit2;
        EvSave "examples/example_edited.pdf"],
     true).
Proof.
  destruct (result_is_the_save_outcome Sample.linux
              (Sample.fitz Sample.lookup_raises) "examples/example.pdf" 0
              "sensitive" "redacted" (Sample.start true) (Sample.mkDoc 1 []) 0%nat
              [Sample.hit1; Sample.hit2]
              (sample_sizes_numeric_raising Sample.lookup_raises
                 (LibraryError "RuntimeError") (λ _, eq_refl))
              eq_refl eq_refl eq_refl)
    as (st' & _ & -> & Hskipped).
  destruct Hskipped as (-> & -> & ->); [intros; by eexists|].
  reflexivity.
Defined.

Lemma find_font_returns_off_windows_witness :
  total (FontManager.find_font Sample.linux (PStr "Roboto")).
Proof.
  exact (find_font_returns_off_windows Sample.linux "Roboto" ltac:(discriminate)).
Defined.

Lemma output_path_single_extension_witness :
  output_path_of (Some "examples/example.pdf") = Ok "examples/example_edited.pdf".
Proof.
  exact (output_path_single_extension "examples/example" ltac:(by vm_compute)).
Defined.

End SampleRuns.

(** ** Facts about strings *)

Section StrFacts.

Lemma app_cons c s t : String c s +:+ t = String c (s +:+ t).
Proof. done. Qed.

Lemma app_empty_r s : s +:+ "" = s.
Proof. induction s as [|c s IH]; [done|]. by rewrite app_cons, IH. Qed.

Lemma app_assoc_str s t u : (s +:+ t) +:+ u = s +:+ t +:+ u.
Proof. induction s as [|c s IH]; [reflexivity|]. by rewrite !app_cons, IH. Qed.

Lemma length_app s t :
  String.length (s +:+ t) = (String.length s + String.length t)%nat.
Proof.
  induction s as [|c s IH]; [reflexivity|]. rewrite app_cons. simpl. by rewrite IH.
Qed.

Lemma prefix_app s t : String.prefix s (s +:+ t) = true.
Proof.
  induction s as [|c s IH]; [by destruct t|]. rewrite app_cons. simpl.
  by destruct (ascii_dec c c).
Qed.

Lemma drop_app s t : Str.drop (String.length s) (s +:+ t) = t.
Proof. induction s as [|c s IH]; [by destruct t|]. by rewrite app_cons. Qed.

Lemma drop_app_more n s t :
  Str.drop (String.length s + n) (s +:+ t) = Str.drop n t.
Proof. induction s as [|c s IH]; [reflexivity|]. by rewrite app_cons. Qed.

Lemma substring_0_app t u :
  String.substring 0 (String.length t) (t +:+ u) = t.
Proof.
  induction t as [|c t IH]; [by destruct u|].
  rewrite app_cons. simpl. by rewrite IH.
Qed.

Lemma substring_app s t u :
  String.substring (String.length s) (String.length t) (s +:+ t +:+ u) = t.
Proof.
  induction s as [|c s IH]; [exact (substring_0_app t u)|]. by rewrite app_cons.
Qed.

Lemma lower_app s t : Str.lower (s +:+ t) = Str.lower s +:+ Str.lower t.
Proof.
  induction s as [|c s IH]; [reflexivity|]. rewrite app_cons. simpl. by rewrite IH.
Qed.

Lemma length_lower s : String.length (Str.lower s) = String.length s.
Proof. induction s as [|c s IH]; [done|]. simpl. by rewrite IH. Qed.

Lemma contains_app_l s t : Str.contains s (s +:+ t) = true.
Proof.
  unfold Str.contains. destruct s as [|c s]; [by destruct t|].
  rewrite app_cons. cbn [Str.index]. rewrite <- app_cons.
  by rewrite prefix_app.
Qed.

Lemma endswith_app s t : Str.endswith (s +:+ t) t = true.
Proof.
  unfold Str.endswith. rewrite length_app.
  replace (String.length s + String.length t - String.length t)%nat
    with (String.length s) by lia.
  rewrite drop_app, String.eqb_refl.
  by destruct (Nat.leb_spec (String.length t) (String.length s + String.length t));
    [|lia].
Qed.

(** The first occurrence of a one-character string. *)
Lemma index_char_cons c d s :
  Str.index (String c "") (String d s) =
  if Ascii.eqb c d then Some O else S <$> Str.index (String c "") s.
Proof.
  cbn [Str.index String.prefix]. destruct (ascii_dec c d) as [->|Hne].
  - rewrite Ascii.eqb_refl. by destruct s.
  - by apply Ascii.eqb_neq in Hne as ->.
Qed.

Lemma index_char_app c s t :
  Str.index (String c "") s = None →
  Str.index (String c "") (s +:+ String c t) = Some (String.length s).
Proof.
  induction s as [|d s IH].
  - intros _. change ("" +:+ String c t) with (String c t).
    by rewrite index_char_cons, Ascii.eqb_refl.
  - rewrite app_cons, !index_char_cons. destruct (Ascii.eqb c d); [done|].
    destruct (Str.index (String c "") s) eqn:E; [done|]. intros _.
    by rewrite IH.
Qed.

Lemma index_lt sub s n :
  Str.index sub s = Some n → (n + String.length sub ≤ String.length s)%nat.
Proof.
  revert n. induction s as [|d s IH]; intros n.
  - cbn [Str.index]. destruct sub; [|done]. by intros [= <-].
  - cbn [Str.index]. destruct (String.prefix sub (String d s)) eqn:Hp.
    + intros [= <-]. clear IH. revert d s Hp.
      induction sub as [|a sub IH]; intros d s Hp; [simpl; lia|].
      simpl in Hp. destruct (ascii_dec a d); [|done].
      destruct s as [|d' s].
      * destruct sub; [simpl; lia|done].
      * specialize (IH _ _ Hp). simpl in *. lia.
    + destruct (Str.index sub s) as [m|]; [|done]. intros [= <-].
      specialize (IH _ eq_refl). simpl. lia.
Qed.

(** Replacing a character removes it. *)
Lemma replace_char_cons c new d s :
  Str.replace (String d s) (String c "") new =
  if Ascii.eqb c d then new +:+ Str.replace s (String c "") new
  else String d (Str.replace s (String c "") new).
Proof.
  unfold Str.replace. cbn [Str.replace_go String.prefix String.length Nat.sub].
  destruct (ascii_dec c d) as [->|Hne].
  - rewrite Ascii.eqb_refl. by destruct s.
  - by apply Ascii.eqb_neq in Hne as ->.
Qed.

Lemma index_char_app_none c s t :
  Str.index (String c "") s = None →
  Str.index (String c "") t = None →
  Str.index (String c "") (s +:+ t) = None.
Proof.
  intros Hs Ht. induction s as [|d s IH]; [done|].
  rewrite app_cons, index_char_cons. rewrite index_char_cons in Hs.
  destruct (Ascii.eqb c d); [done|].
  destruct (Str.index (String c "") s); [done|]. by rewrite IH.
Qed.

Lemma replace_char_gone c new s :
  Str.index (String c "") new = None →
  Str.index (String c "") (Str.replace s (String c "") new) = None.
Proof.
  intros Hnew. induction s as [|d s IH]; [done|].
  rewrite replace_char_cons. destruct (Ascii.eqb c d) eqn:E.
  - by apply index_char_app_none.
  - by rewrite index_char_cons, E, IH.
Qed.

Lemma replace_char_absent c new s :
  Str.index (String c "") s = None → Str.replace s (String c "") new = s.
Proof.
  induction s as [|d s IH]; [done|].
  rewrite replace_char_cons, index_char_cons. destruct (Ascii.eqb c d); [done|].
  destruct (Str.index (String c "") s); [done|]. intros _. by rewrite IH.
Qed.

Lemma lower_ascii_space d : Ascii.eqb " " (Str.lower_ascii d) = Ascii.eqb " " d.
Proof.
  unfold Str.lower_ascii.
  destruct ((65 <=? nat_of_ascii d)%nat && (nat_of_ascii d <=? 90)%nat) eqn:E; [|done].
  apply andb_prop in E as [E1 E2].
  apply Nat.leb_le in E1, E2.
  assert (nat_of_ascii " " = 32%nat) as Hsp by reflexivity.
  assert (Ascii.eqb " " d = false) as ->.
  { apply Ascii.eqb_neq. intros <-. lia. }
  apply Ascii.eqb_neq. intros H.
  apply (f_equal nat_of_ascii) in H. rewrite nat_ascii_embedding in H by lia.
  lia.
Qed.

Lemma index_space_lower s :
  Str.index " " (Str.lower s) = None ↔ Str.index " " s = None.
Proof.
  induction s as [|d s IH]; [done|].
  cbn [Str.lower]. rewrite !index_char_cons, lower_ascii_space.
  destruct (Ascii.eqb " " d); [done|].
  destruct (Str.index " " (Str.lower s)), (Str.index " " s); try done;
    destruct IH as [H1 H2]; by (specialize (H1 eq_refl) || specialize (H2 eq_refl)).
Qed.

End StrFacts.

(** ** More of [FontManager]: where fonts are saved and how they are found *)

Section FontStore.

Context {W : Type} (P : Platform W).

(** The directory downloads are saved in is one of the directories the
    system scan looks in. *)
Theorem save_directory_is_scanned font_dirs :
  FontManager.get_system_font_dirs P = Ok font_dirs →
  ∃ d, FontManager.get_font_save_directory P = Ok d ∧ d ∈ font_dirs.
Proof.
  unfold FontManager.get_system_font_dirs, FontManager.get_font_save_directory.
  unfold FontManager.environ_getitem.
  destruct (String.eqb (sys_platform P) "win32").
  - destruct (environ P !! "WINDIR"); [|done].
    destruct (environ P !! "LOCALAPPDATA"); [|done].
    intros [= <-]. eexists. split; [done|]. set_solver.
  - destruct (String.eqb (sys_platform P) "darwin");
      intros [= <-]; (eexists; split; [done|]); set_solver.
Qed.

Lemma get_font_extension_accepted content_type :
  FontManager.get_font_extension content_type ∈ FontManager.font_extensions.
Proof.
  unfold FontManager.get_font_extension, FontManager.font_extensions.
  repeat match goal with |- context [if ?b then _ else _] => destruct b end;
    set_solver.
Qed.

Lemma font_extensions_lower ext :
  ext ∈ FontManager.font_extensions → Str.lower ext = ext.
Proof.
  unfold FontManager.font_extensions. intros H.
  repeat (apply elem_of_cons in H as [->|H]; [done|]).
  by apply elem_of_nil in H.
Qed.

(** The name a download is saved under passes the test of the directory
    search for the same family name, when the name holds no space. *)
Lemma saved_name_matches name content_type :
  Str.contains " " name = false →
  FontManager.file_matches (Str.replace (Str.lower name) " " "")
    (Str.replace name " " "_" +:+ FontManager.get_font_extension content_type)
  = true.
Proof.
  unfold Str.contains. destruct (Str.index " " name) eqn:Hsp; [done|]. intros _.
  rewrite (replace_char_absent _ _ name Hsp).
  rewrite (replace_char_absent _ _ (Str.lower name)) by by apply index_space_lower.
  pose proof (get_font_extension_accepted content_type) as Hext.
  unfold FontManager.file_matches. apply existsb_exists.
  exists (FontManager.get_font_extension content_type).
  split; [by apply list_elem_of_In|].
  rewrite lower_app, (font_extensions_lower _ Hext).
  by rewrite contains_app_l, endswith_app.
Qed.

(** With a space in the family name the round trip can fail: the saved
    file has an underscore where the search key has nothing. *)
Example open_sans_is_not_found_again :
  FontManager.file_matches (normalized "Open Sans")
    (Str.replace "Open Sans" " " "_" +:+ FontManager.get_font_extension "font/ttf")
  = false.
Proof. by vm_compute. Qed.

Lemma search_walk_Some font_name_lower entries path :
  FontManager.search_walk P font_name_lower entries = Some path →
  ∃ root files file,
    (root, files) ∈ entries ∧ file ∈ files ∧
    FontManager.file_matches font_name_lower file = true ∧
    path = path_join P root [file].
Proof.
  induction entries as [|[root files] rest IH]; [done|]. simpl.
  destruct (List.find _ files) as [file|] eqn:Hfind.
  - intros [= <-]. apply find_some in Hfind as [Hin Hm].
    exists root, files, file. split; [by left|].
    split; [by apply list_elem_of_In|done].
  - intros H. destruct (IH H) as (r & fs & f & Hin & ?).
    exists r, fs, f. split; [by right|done].
Qed.

Lemma search_walk_None font_name_lower entries :
  FontManager.search_walk P font_name_lower entries = None ↔
  ∀ root files file,
    (root, files) ∈ entries → file ∈ files →
    FontManager.file_matches font_name_lower file = false.
Proof.
  induction entries as [|[root files] rest IH].
  - split; [|done]. intros _ ??? H. by apply elem_of_nil in H.
  - simpl. destruct (List.find _ files) as [file|] eqn:Hfind.
    + split; [done|]. intros H. apply find_some in Hfind as [Hin Hm].
      rewrite (H root files file) in Hm; [done|by left|by apply list_elem_of_In].
    + rewrite IH. split.
      * intros H r fs f [[= -> ->]|Hin]%elem_of_cons Hf.
        -- apply list_elem_of_In in Hf. by eapply find_none in Hfind.
        -- by eapply H.
      * intros H r fs f Hin Hf. eapply H; [by right|done].
Qed.

(** A directory tree that holds the file a download was saved as is a hit
    for the search of the same family name, when the name is ASCII and
    holds no space.  (The name test lowers both sides; [Str.lower] is
    [str.lower] on ASCII text only, hence the first hypothesis.) *)
Theorem downloaded_font_is_found_again name content_type directory root files
    (s : Sys W) :
  is_ascii name = true →
  Str.contains " " name = false →
  (root, files) ∈ walk P directory (world s) →
  (Str.replace name " " "_" +:+ FontManager.get_font_extension content_type)
    ∈ files →
  ∃ path,
    FontManager._search_font_in_directory P directory (PStr name) s
    = (mkSys (world s) (log s ++ [EvWalk directory]), Ok (Some path)).
Proof.
  intros _ Hname Hentry Hfile.
  unfold FontManager._search_font_in_directory, mbind, M_bind, lift, emit,
    read_world. cbn -[Str.replace Str.lower].
  destruct (FontManager.search_walk P _ (walk P directory (world s)))
    as [path|] eqn:Hwalk; [by exists path|].
  rewrite search_walk_None in Hwalk.
  pose proof (saved_name_matches name content_type Hname) as Hm.
  by rewrite (Hwalk _ _ _ Hentry Hfile) in Hm.
Qed.

End FontStore.

(** ** The scan of the font directories *)

Section SystemScan.

Context {W : Type} (P : Platform W).

Lemma file_matches_nonempty font_name_lower file :
  FontManager.file_matches font_name_lower file = true → file ≠ "".
Proof.
  intros H ->. unfold FontManager.file_matches in H.
  apply existsb_exists in H as (ext & Hin & H). apply andb_prop in H as [_ H].
  simpl in Hin. by destruct Hin as [<-|[<-|[<-|[<-|[]]]]].
Qed.

Lemma search_walk_truthy font_name directory (w : W) :
  joins_nonempty P →
  path_truthy (FontManager.search_walk P (normalized font_name) (walk P directory w))
  = true ↔ holds_font P w font_name directory.
Proof.
  intros Hjoin. unfold holds_font.
  destruct (FontManager.search_walk P _ _) as [path|] eqn:E.
  - destruct (search_walk_Some _ _ _ _ E) as (root & files & file & ? & ? & Hm & ->).
    split; [by eauto 8|]. intros _. simpl.
    apply negb_true_iff, String.eqb_neq, Hjoin.
    by eapply file_matches_nonempty.
  - split; [done|]. intros (root & files & file & ? & ? & Hm).
    rewrite search_walk_None in E. by rewrite (E root files file) in Hm.
Qed.

(** The loop over the font directories, for a family name that is a
    string: the world is only read, the log gains existence checks and
    walks, and the result is the first truthy hit in directory order. *)
Lemma search_dirs_run font_name font_dirs (s : Sys W) :
  ∃ evs r,
    FontManager.search_dirs P (PStr font_name) font_dirs s
    = (mkSys (world s) (log s ++ evs), Ok r) ∧
    Forall (λ ev, is_scan_event ev = true) evs ∧
    (∀ d, EvWalk d ∈ evs → d ∈ font_dirs ∧ path_exists P d (world s) = true) ∧
    match r with
    | Some path =>
        path ≠ "" ∧
        ∃ earlier d later,
          font_dirs = earlier ++ d :: later ∧
          path_exists P d (world s) = true ∧
          FontManager.search_walk P (normalized font_name) (walk P d (world s))
          = Some path ∧
          ∀ d', d' ∈ earlier → path_exists P d' (world s) = true →
            path_truthy (FontManager.search_walk P (normalized font_name)
                           (walk P d' (world s))) = false
    | None =>
        ∀ d, d ∈ font_dirs → path_exists P d (world s) = true →
          path_truthy (FontManager.search_walk P (normalized font_name)
                         (walk P d (world s))) = false
    end.
Proof.
  revert s. induction font_dirs as [|d rest IH]; intros s.
  - exists [], None. rewrite app_nil_r. destruct s.
    split; [done|]. split; [done|].
    split; intros d' H; by apply elem_of_nil in H.
  - cbn [FontManager.search_dirs].
    unfold mbind at 1 2. unfold M_bind at 1 2. unfold emit at 1, read_world at 1.
    cbn [world log]. set (s1 := mkSys (world s) (log s ++ [EvExists d])).
    destruct (path_exists P d (world s)) eqn:Hex; cbn [negb].
    + unfold FontManager._search_font_in_directory, mbind, M_bind, lift, emit,
        read_world. cbn -[Str.replace Str.lower FontManager.search_dirs].
      fold (normalized font_name).
      destruct (FontManager.search_walk P (normalized font_name)
                  (walk P d (world s))) as [path|] eqn:Hwalk.
      * cbn [path_truthy]. destruct (String.eqb path "") eqn:Hempty; cbn [negb].
        -- set (s2 := mkSys (world s) ((log s ++ [EvExists d]) ++ [EvWalk d])).
           destruct (IH s2) as (evs & r & E & Hscan & Hwalks & Hr).
           exists (EvExists d :: EvWalk d :: evs), r.
           fold (@mbind (M (Sys W)) _). rewrite E. unfold s2. cbn [world log].
           rewrite <- !app_assoc. split; [done|]. split; [by repeat constructor|].
           split.
           { intros d' [[=]|[[= ->]|H]%elem_of_cons]%elem_of_cons.
             - split; [by left|done].
             - destruct (Hwalks d' H). split; [by right|done]. }
           destruct r as [p|].
           ++ destruct Hr as (Hp & earlier & d0 & later & -> & ? & ? & Hearlier).
              split; [done|]. exists (d :: earlier), d0, later.
              split; [done|]. split; [done|]. split; [done|].
              intros d' [->|Hd']%elem_of_cons Hx; [|by apply Hearlier].
              rewrite Hwalk. simpl. by rewrite Hempty.
           ++ intros d' [->|Hd']%elem_of_cons Hx; [|by apply Hr].
              rewrite Hwalk. simpl. by rewrite Hempty.
        -- exists [EvExists d; EvWalk d], (Some path). cbn [world log].
           rewrite <- !app_assoc. split; [done|]. split; [by repeat constructor|].
           split.
           { intros d' [[=]|[[= ->]|H]%elem_of_cons]%elem_of_cons.
             - split; [by left|done].
             - by apply elem_of_nil in H. }
           split; [by apply String.eqb_neq|].
           exists [], d, rest.
           split; [done|]. split; [done|]. split; [done|].
           intros d' H. by apply elem_of_nil in H.
      * cbn [path_truthy].
        set (s2 := mkSys (world s) ((log s ++ [EvExists d]) ++ [EvWalk d])).
        destruct (IH s2) as (evs & r & E & Hscan & Hwalks & Hr).
        exists (EvExists d :: EvWalk d :: evs), r.
        rewrite E. unfold s2. cbn [world log].
        rewrite <- !app_assoc. split; [done|]. split; [by repeat constructor|].
        split.
        { intros d' [[=]|[[= ->]|H]%elem_of_cons]%elem_of_cons.
          - split; [by left|done].
          - destruct (Hwalks d' H). split; [by right|done]. }
        destruct r as [p|].
        -- destruct Hr as (Hp & earlier & d0 & later & -> & ? & ? & Hearlier).
           split; [done|]. exists (d :: earlier), d0, later.
           split; [done|]. split; [done|]. split; [done|].
           intros d' [->|Hd']%elem_of_cons Hx; [|by apply Hearlier].
           by rewrite Hwalk.
        -- intros d' [->|Hd']%elem_of_cons Hx; [|by apply Hr].
           by rewrite Hwalk.
    + destruct (IH s1) as (evs & r & E & Hscan & Hwalks & Hr).
      exists (EvExists d :: evs), r. rewrite E. unfold s1. cbn [world log].
      rewrite <- !app_assoc. split; [done|]. split; [by repeat constructor|].
      split.
      { intros d' [[=]|H]%elem_of_cons.
        destruct (Hwalks d' H). split; [by right|done]. }
      destruct r as [p|].
      * destruct Hr as (Hp & earlier & d0 & later & -> & ? & ? & Hearlier).
        split; [done|]. exists (d :: earlier), d0, later.
        split; [done|]. split; [done|]. split; [done|].
        intros d' [->|Hd']%elem_of_cons Hx; [congruence|by apply Hearlier].
      * intros d' [->|Hd']%elem_of_cons Hx; [congruence|by apply Hr].
Qed.

End SystemScan.

Section SystemScanClaims.

Context {W : Type} (P : Platform W).

Lemma find_font_in_system_run font_name font_dirs (s : Sys W) :
  FontManager.get_system_font_dirs P = Ok font_dirs →
  FontManager.find_font_in_system P (PStr font_name) s
  = FontManager.search_dirs P (PStr font_name) font_dirs s.
Proof.
  intros Hdirs. unfold FontManager.find_font_in_system, mbind, M_bind, lift.
  by rewrite Hdirs.
Qed.

(** The scan of the font directories only reads: whatever it returns, the
    world is as it was, the log gains nothing but existence checks and
    walks, and only directories that exist are walked. *)
Theorem system_scan_only_reads font_name (s : Sys W) :
  let run := FontManager.find_font_in_system P (PStr font_name) s in
  world run.1 = world s ∧
  ∃ evs, log run.1 = log s ++ evs ∧
         Forall (λ ev, is_scan_event ev = true) evs ∧
         ∀ d, EvWalk d ∈ evs → path_exists P d (world s) = true.
Proof.
  cbv zeta.
  destruct (FontManager.get_system_font_dirs P) as [font_dirs|e] eqn:Hdirs.
  - rewrite (find_font_in_system_run _ _ _ Hdirs).
    destruct (search_dirs_run P font_name font_dirs s)
      as (evs & r & -> & Hscan & Hwalks & _).
    split; [done|]. exists evs. split; [done|]. split; [done|].
    intros d Hd. by destruct (Hwalks d Hd).
  - unfold FontManager.find_font_in_system, mbind, M_bind, lift.
    rewrite Hdirs. split; [done|]. exists []. rewrite app_nil_r.
    split; [done|]. split; [done|]. intros d H. by apply elem_of_nil in H.
Qed.

(** A path the scan returns is the join of a walked directory and a file
    in it that passes the test for the family name, below a font directory
    that exists. *)
Theorem system_scan_returns_a_matching_file font_name font_dirs (s s' : Sys W)
    path :
  FontManager.get_system_font_dirs P = Ok font_dirs →
  FontManager.find_font_in_system P (PStr font_name) s = (s', Ok (Some path)) →
  path ≠ "" ∧
  ∃ d root files file,
    d ∈ font_dirs ∧ path_exists P d (world s) = true ∧
    (root, files) ∈ walk P d (world s) ∧ file ∈ files ∧
    FontManager.file_matches (normalized font_name) file = true ∧
    path = path_join P root [file].
Proof.
  intros Hdirs. rewrite (find_font_in_system_run _ _ _ Hdirs).
  destruct (search_dirs_run P font_name font_dirs s)
    as (evs & r & -> & _ & _ & Hr).
  intros [= <- ->]. destruct Hr as (Hne & earlier & d & later & -> & Hex & Hw & _).
  split; [done|].
  destruct (search_walk_Some _ _ _ _ Hw) as (root & files & file & ? & ? & ? & ->).
  exists d, root, files, file. split; [|done].
  apply elem_of_app. right. by left.
Qed.

(** The scan returns a path exactly when a font directory that exists
    holds a file that passes the test. *)
Theorem system_scan_hits_iff_a_directory_holds_the_font font_name font_dirs
    (s : Sys W) :
  joins_nonempty P →
  FontManager.get_system_font_dirs P = Ok font_dirs →
  (∃ path, (FontManager.find_font_in_system P (PStr font_name) s).2
           = Ok (Some path)) ↔
  (∃ d, d ∈ font_dirs ∧ path_exists P d (world s) = true ∧
        holds_font P (world s) font_name d).
Proof.
  intros Hjoin Hdirs. rewrite (find_font_in_system_run _ _ _ Hdirs).
  destruct (search_dirs_run P font_name font_dirs s)
    as (evs & r & -> & _ & _ & Hr). cbn [snd].
  destruct r as [path|].
  - destruct Hr as (Hne & earlier & d & later & -> & Hex & Hw & _).
    split; [|by eauto]. intros _. exists d.
    split; [apply elem_of_app; right; by left|]. split; [done|].
    apply (search_walk_truthy P font_name d (world s) Hjoin).
    rewrite Hw. simpl. by apply negb_true_iff, String.eqb_neq.
  - split; [by intros [? [=]]|]. intros (d & Hd & Hex & Hholds).
    apply (search_walk_truthy P font_name d (world s) Hjoin) in Hholds.
    by rewrite (Hr d Hd Hex) in Hholds.
Qed.

(** Directory order decides: the path returned comes from the first font
    directory that exists and holds a matching file. *)
Theorem system_scan_prefers_earlier_directories font_name earlier d later
    (s : Sys W) :
  joins_nonempty P →
  FontManager.get_system_font_dirs P = Ok (earlier ++ d :: later) →
  (∀ d', d' ∈ earlier → path_exists P d' (world s) = true →
         ¬ holds_font P (world s) font_name d') →
  path_exists P d (world s) = true →
  holds_font P (world s) font_name d →
  ∃ path root files file,
    (FontManager.find_font_in_system P (PStr font_name) s).2 = Ok (Some path) ∧
    (root, files) ∈ walk P d (world s) ∧ file ∈ files ∧
    FontManager.file_matches (normalized font_name) file = true ∧
    path = path_join P root [file].
Proof.
  intros Hjoin Hdirs Hearlier Hex Hholds.
  rewrite (find_font_in_system_run _ _ _ Hdirs).
  destruct (search_dirs_run P font_name (earlier ++ d :: later) s)
    as (evs & r & -> & _ & _ & Hr). cbn [snd].
  pose proof (search_walk_truthy P font_name) as Htruthy.
  destruct r as [path|].
  - destruct Hr as (Hne & earlier0 & d0 & later0 & Heq & Hex0 & Hw0 & Hearlier0).
    assert (path_truthy (FontManager.search_walk P (normalized font_name)
                           (walk P d0 (world s))) = true) as Ht0.
    { rewrite Hw0. simpl. by apply negb_true_iff, String.eqb_neq. }
    assert (d0 = d) as ->.
    { apply app_eq_inv in Heq as [(k & -> & Hk)|(k & -> & Hk)].
      - destruct k as [|x k]; [by injection Hk|]. injection Hk as <- ->.
        exfalso.
        apply (Hearlier d0); [|done|by apply (Htruthy d0 (world s) Hjoin)].
        apply elem_of_app. right. by left.
      - destruct k as [|x k]; [by injection Hk|]. injection Hk as <- ->.
        assert (path_truthy (FontManager.search_walk P (normalized font_name)
                               (walk P d (world s))) = false) as Hf.
        { apply Hearlier0; [|done]. apply elem_of_app. right. by left. }
        apply (Htruthy d (world s) Hjoin) in Hholds. congruence. }
    destruct (search_walk_Some _ _ _ _ Hw0)
      as (root & files & file & Hentry & Hfile & Hm & Hpath).
    by exists path, root, files, file.
  - apply (Htruthy d (world s) Hjoin) in Hholds.
    rewrite (Hr d) in Hholds; [done| |done]. apply elem_of_app. right. by left.
Qed.

(** A font that is on disk is returned without any request to the
    network and without writing anything. *)
Theorem font_on_disk_needs_no_network font_name font_dirs d (s : Sys W) :
  joins_nonempty P →
  FontManager.get_system_font_dirs P = Ok font_dirs →
  d ∈ font_dirs →
  path_exists P d (world s) = true →
  holds_font P (world s) font_name d →
  ∃ s' path evs,
    FontManager.find_font P (PStr font_name) s = (s', Ok (Some path)) ∧
    world s' = world s ∧
    log s' = log s ++ EvFindFont (PStr font_name) :: evs ∧
    Forall (λ ev, is_scan_event ev = true) evs.
Proof.
  intros Hjoin Hdirs Hd Hex Hholds.
  unfold FontManager.find_font. unfold mbind at 1. unfold M_bind at 1.
  unfold emit at 1. cbn [world log].
  set (s0 := mkSys (world s) (log s ++ [EvFindFont (PStr font_name)])).
  unfold mbind, M_bind. rewrite (find_font_in_system_run _ _ _ Hdirs).
  destruct (search_dirs_run P font_name font_dirs s0)
    as (evs & r & -> & Hscan & _ & Hr).
  destruct r as [path|].
  - destruct Hr as (Hne & _). cbn [path_truthy].
    apply String.eqb_neq in Hne as ->. cbn [negb].
    exists (mkSys (world s0) (log s0 ++ evs)), path, evs.
    split; [done|]. split; [done|]. split; [|done].
    unfold s0. cbn [log]. by rewrite <- app_assoc.
  - apply (search_walk_truthy P font_name d (world s) Hjoin) in Hholds.
    specialize (Hr d Hd Hex). change (world s0) with (world s) in Hr.
    congruence.
Qed.

End SystemScanClaims.

(** ** The download *)

Section Download.

Context {W : Type} (P : Platform W).

(** [_save_font_file] for a family name that is a string, call by call:
    each call is made on what the one before it returned. *)
Lemma save_font_file_stages name font_url (s : Sys W) :
  let run := FontManager._save_font_file P (PStr name) font_url s in
  ∃ r, run.2 = Ok r ∧
    ((log run.1 = log s ++ [EvHttpGet font_url] ∧ r = None)
     ∨ ∃ w2 font_response directory,
         requests_get P font_url (world s) = (w2, Ok font_response) ∧
         status_code font_response = 200 ∧
         FontManager.get_font_save_directory P = Ok directory ∧
         ((log run.1 = log s ++ [EvHttpGet font_url; EvMakedirs directory] ∧
           r = None)
          ∨ ∃ w3 written,
              makedirs P directory w2 = (w3, Ok ()) ∧
              let path := saved_path P directory name font_response in
              write_file P path (content font_response) w3
                = (world run.1, written) ∧
              log run.1 = log s ++ [EvHttpGet font_url; EvMakedirs directory;
                                    EvWriteFile path] ∧
              r = if is_ok written then Some path else None)).
Proof.
  cbv zeta.
  unfold FontManager._save_font_file, try_except, mbind, M_bind, lift, emit,
    call_world, saved_path.
  cbn -[Str.replace FontManager.get_font_extension].
  destruct (requests_get P font_url (world s)) as [w2 [font_response|e]] eqn:Hget;
    cbn -[Str.replace FontManager.get_font_extension];
    [|exists None; split; [done|]; by left].
  destruct (status_code font_response =? 200) eqn:Hstatus;
    cbn -[Str.replace FontManager.get_font_extension];
    [|exists None; split; [done|]; by left].
  apply Z.eqb_eq in Hstatus.
  destruct (FontManager.get_font_save_directory P) as [directory|e] eqn:Hdir;
    cbn -[Str.replace FontManager.get_font_extension];
    [|exists None; split; [done|]; by left].
  destruct (makedirs P directory w2) as [w3 [[]|e]] eqn:Hmk;
    cbn -[Str.replace FontManager.get_font_extension].
  2:{ exists None. split; [done|]. right. exists w2, font_response, directory.
      do 3 (split; [done|]). left. by rewrite <- !app_assoc. }
  match goal with |- context [write_file P ?p _ _] => set (path := p) end.
  destruct (write_file P path (content font_response) w3) as [w4 written] eqn:Hwrite.
  exists (if is_ok written then Some path else None).
  split; [by destruct written as [[]|e]|].
  right. exists w2, font_response, directory. do 3 (split; [done|]).
  right. exists w3, written. split; [done|].
  destruct written as [[]|e]; cbn; by rewrite <- !app_assoc.
Qed.

Lemma download_google_font_unfold name (s : Sys W) :
  FontManager.download_google_font P (PStr name) s =
  let s1 w := mkSys w (log s ++ [EvHttpGet (css_url_of name)]) in
  match requests_get P (css_url_of name) (world s) with
  | (w1, Raise _) => (s1 w1, Ok None)
  | (w1, Ok css_response) =>
      let font_url := FontManager._extract_font_url (text css_response) in
      if (status_code css_response =? 200) && path_truthy font_url then
        let '(s2, r) :=
          FontManager._save_font_file P (PStr name) (default "" font_url) (s1 w1) in
        (s2, Ok (match r with Ok p => p | Raise _ => None end))
      else (s1 w1, Ok None)
  end.
Proof.
  unfold FontManager.download_google_font, try_except.
  unfold mbind at 1 2 3. unfold M_bind at 1 2 3. unfold lift at 1, emit at 1.
  unfold call_world at 1. cbn -[Str.replace FontManager._save_font_file].
  fold (css_url_of name).
  destruct (requests_get P (css_url_of name) (world s)) as [w1 [css_response|e]];
    cbn -[Str.replace FontManager._save_font_file]; [|done].
  destruct (status_code css_response =? 200);
    cbn -[Str.replace FontManager._save_font_file]; [|done].
  destruct (path_truthy (FontManager._extract_font_url (text css_response)));
    cbn -[Str.replace FontManager._save_font_file]; [|done].
  by destruct (FontManager._save_font_file _ _ _ _) as [s2 [r|e]].
Qed.

(** The download, call by call. *)
Lemma download_google_font_stages name (s : Sys W) :
  let run := FontManager.download_google_font P (PStr name) s in
  ∃ r, run.2 = Ok r ∧
    ((log run.1 = log s ++ [EvHttpGet (css_url_of name)] ∧ r = None)
     ∨ ∃ w1 css_response font_url,
         requests_get P (css_url_of name) (world s) = (w1, Ok css_response) ∧
         status_code css_response = 200 ∧
         FontManager._extract_font_url (text css_response) = Some font_url ∧
         ((log run.1 = log s ++ [EvHttpGet (css_url_of name); EvHttpGet font_url] ∧
           r = None)
          ∨ ∃ w2 font_response directory,
              requests_get P font_url w1 = (w2, Ok font_response) ∧
              status_code font_response = 200 ∧
              FontManager.get_font_save_directory P = Ok directory ∧
              ((log run.1 = log s ++ [EvHttpGet (css_url_of name);
                                      EvHttpGet font_url; EvMakedirs directory] ∧
                r = None)
               ∨ ∃ w3 written,
                   makedirs P directory w2 = (w3, Ok ()) ∧
                   let path := saved_path P directory name font_response in
                   write_file P path (content font_response) w3
                     = (world run.1, written) ∧
                   log run.1 = log s ++ [EvHttpGet (css_url_of name);
                                         EvHttpGet font_url; EvMakedirs directory;
                                         EvWriteFile path] ∧
                   r = if is_ok written then Some path else None))).
Proof.
  cbv zeta. rewrite download_google_font_unfold. cbv zeta.
  destruct (requests_get P (css_url_of name) (world s)) as [w1 [css_response|e]];
    [|exists None; split; [done|]; by left].
  destruct (status_code css_response =? 200) eqn:Hstatus;
    [|exists None; split; [done|]; by left].
  apply Z.eqb_eq in Hstatus.
  destruct (FontManager._extract_font_url (text css_response)) as [font_url|]
    eqn:Hurl; [|exists None; split; [done|]; by left].
  cbn [andb path_truthy default from_option id].
  destruct (negb (String.eqb font_url "")); [|exists None; split; [done|]; by left].
  set (s1 := mkSys w1 _).
  destruct (save_font_file_stages name font_url s1) as (r & R & Hr).
  destruct (FontManager._save_font_file P (PStr name) font_url s1) as [s2 r2].
  cbn [fst snd] in R, Hr. subst r2. cbn [fst snd]. exists r. split; [done|].
  right. exists w1, css_response, font_url. do 3 (split; [done|]).
  unfold s1 in Hr. cbn [log world] in Hr.
  destruct Hr as [[L ->]|(w2 & font_response & directory & Hget & Hst & Hdir & Hr)].
  { left. by rewrite L, <- app_assoc. }
  right. exists w2, font_response, directory. do 3 (split; [done|]).
  destruct Hr as [[L ->]|(w3 & written & Hmk & Hwrite & L & ->)].
  { left. by rewrite L, <- app_assoc. }
  right. exists w3, written. split; [done|]. split; [done|].
  split; [|done]. by rewrite L, <- app_assoc.
Qed.

(** A download makes at most four calls, in this order: the request for
    the style sheet, the request for the address the style sheet gives, the
    creation of the save directory and the write of the font file.  Each
    call is made only when the one before it returned (with status 200,
    for the requests).  It never raises, and it returns a path only after
    all four. *)
Theorem download_calls_in_order name (s : Sys W) :
  let run := FontManager.download_google_font P (PStr name) s in
  ∃ font_url directory path n r,
    log run.1 = log s ++ take (S n) [EvHttpGet (css_url_of name);
                                     EvHttpGet font_url; EvMakedirs directory;
                                     EvWriteFile path] ∧
    run.2 = Ok r ∧
    (∀ p, r = Some p → n = 3%nat ∧ p = path) ∧
    ((1 ≤ n)%nat →
     ∃ w1 css_response,
       requests_get P (css_url_of name) (world s) = (w1, Ok css_response) ∧
       status_code css_response = 200 ∧
       FontManager._extract_font_url (text css_response) = Some font_url ∧
       ((2 ≤ n)%nat →
        ∃ w2 font_response,
          requests_get P font_url w1 = (w2, Ok font_response) ∧
          status_code font_response = 200 ∧
          FontManager.get_font_save_directory P = Ok directory ∧
          ((3 ≤ n)%nat →
           ∃ w3, makedirs P directory w2 = (w3, Ok ()) ∧
                 path = saved_path P directory name font_response))).
Proof.
  cbv zeta.
  destruct (download_google_font_stages name s) as (r & R & Hr).
  destruct Hr as [[L ->]|(w1 & css_response & font_url & Hcss & Hst & Hurl & Hr)].
  { exists "", "", "", 0%nat, None. do 3 (split; [done|]). lia. }
  destruct Hr as [[L ->]|(w2 & font_response & directory & Hget & Hst2 & Hdir & Hr)].
  { exists font_url, "", "", 1%nat, None. do 3 (split; [done|]).
    intros _. exists w1, css_response. do 3 (split; [done|]). lia. }
  destruct Hr as [[L ->]|(w3 & written & Hmk & Hwrite & L & ->)].
  { exists font_url, directory, "", 2%nat, None. do 3 (split; [done|]).
    intros _. exists w1, css_response. do 3 (split; [done|]).
    intros _. exists w2, font_response. do 3 (split; [done|]). lia. }
  exists font_url, directory, (saved_path P directory name font_response), 3%nat.
  eexists. split; [done|]. split; [done|].
  split; [by destruct (is_ok written); intros p [= <-]|].
  intros _. exists w1, css_response. do 3 (split; [done|]).
  intros _. exists w2, font_response. do 3 (split; [done|]).
  intros _. by exists w3.
Qed.

(** A path the download returns is where the bytes of the font response
    were written: the style sheet was fetched with status 200, the font
    was fetched from the address in it with status 200, the save directory
    was created, and the content of that response was written under the
    family name with underscores for spaces, with one of the accepted
    extensions; the write returned and was the last call. *)
Theorem downloaded_path_was_written name (s s' : Sys W) path :
  FontManager.download_google_font P (PStr name) s = (s', Ok (Some path)) →
  ∃ w1 css_response font_url w2 font_response directory w3,
    requests_get P (css_url_of name) (world s) = (w1, Ok css_response) ∧
    status_code css_response = 200 ∧
    FontManager._extract_font_url (text css_response) = Some font_url ∧
    requests_get P font_url w1 = (w2, Ok font_response) ∧
    status_code font_response = 200 ∧
    FontManager.get_font_save_directory P = Ok directory ∧
    makedirs P directory w2 = (w3, Ok ()) ∧
    path = saved_path P directory name font_response ∧
    (∃ ext, ext ∈ FontManager.font_extensions ∧
            path = path_join P directory [Str.replace name " " "_" +:+ ext]) ∧
    write_file P path (content font_response) w3 = (world s', Ok ()) ∧
    log s' = log s ++ [EvHttpGet (css_url_of name); EvHttpGet font_url;
                       EvMakedirs directory; EvWriteFile path].
Proof.
  intros Hrun.
  destruct (download_google_font_stages name s) as (r & R & Hr).
  rewrite Hrun in R, Hr. cbn [fst snd] in R, Hr. injection R as <-.
  destruct Hr as [[_ [=]]|(w1 & css_response & font_url & Hcss & Hst & Hurl & Hr)].
  destruct Hr as [[_ [=]]|(w2 & font_response & directory & Hget & Hst2 & Hdir & Hr)].
  destruct Hr as [[_ [=]]|(w3 & written & Hmk & Hwrite & L & Hpath)].
  cbv zeta in Hwrite, L, Hpath.
  destruct written as [[]|e]; [|done]. injection Hpath as ->.
  exists w1, css_response, font_url, w2, font_response, directory, w3.
  do 8 (split; [done|]). split; [|done].
  eexists. split; [apply get_font_extension_accepted|done].
Qed.

End Download.

(** ** The address in the style sheet *)

Section ExtractUrl.

Lemma prefix_split sub s :
  String.prefix sub s = true → ∃ rest, s = sub +:+ rest.
Proof.
  revert s. induction sub as [|a sub IH]; intros s; [by exists s|].
  destruct s as [|b s]; [done|]. simpl.
  destruct (ascii_dec a b) as [->|]; [|done]. intros H.
  destruct (IH s H) as [rest ->]. by exists rest.
Qed.

Lemma index_Some_split sub s n :
  Str.index sub s = Some n →
  ∃ pre rest, s = pre +:+ sub +:+ rest ∧ String.length pre = n.
Proof.
  revert n. induction s as [|d s IH]; intros n; cbn [Str.index].
  - destruct (String.prefix sub "") eqn:Hp; [|done]. intros [= <-].
    destruct (prefix_split _ _ Hp) as [rest ->]. by exists "", rest.
  - destruct (String.prefix sub (String d s)) eqn:Hp.
    + intros [= <-]. destruct (prefix_split _ _ Hp) as [rest ->].
      by exists "", rest.
    + destruct (Str.index sub s) as [m|]; [|done]. intros [= <-].
      destruct (IH m eq_refl) as (pre & rest & -> & <-).
      by exists (String d pre), rest.
Qed.

Lemma index_char_split c s n :
  Str.index (String c "") s = Some n →
  ∃ u rest, s = u +:+ String c rest ∧ String.length u = n ∧
            Str.index (String c "") u = None.
Proof.
  revert n. induction s as [|d s IH]; intros n; [done|].
  rewrite index_char_cons. destruct (Ascii.eqb c d) eqn:E.
  - apply Ascii.eqb_eq in E as ->. intros [= <-]. by exists "", s.
  - destruct (Str.index (String c "") s) as [m|]; [|done]. intros [= <-].
    destruct (IH m eq_refl) as (u & rest & -> & <- & Hu).
    exists (String d u), rest. split; [done|]. split; [done|].
    by rewrite index_char_cons, E, Hu.
Qed.

Lemma drop_0 s : Str.drop 0 s = s.
Proof. by destruct s. Qed.

Lemma find_from_start s sub :
  Str.find s sub 0 =
  match Str.index sub s with Some i => Z.of_nat i | None => -1 end.
Proof.
  unfold Str.find. cbn [Z.ltb Z.compare Z.to_nat].
  destruct (Z.ltb_spec (Z.of_nat (String.length s)) 0); [lia|].
  rewrite drop_0. by destruct (Str.index sub s).
Qed.

Lemma find_after_prefix s t sub :
  Str.find (s +:+ t) sub (Z.of_nat (String.length s)) =
  match Str.index sub t with
  | Some i => Z.of_nat (String.length s) + Z.of_nat i
  | None => -1
  end.
Proof.
  unfold Str.find. rewrite length_app.
  destruct (Z.ltb_spec (Z.of_nat (String.length s)) 0); [lia|].
  destruct (Z.ltb_spec (Z.of_nat (String.length s + String.length t))
              (Z.of_nat (String.length s))); [lia|].
  by rewrite Nat2Z.id, drop_app.
Qed.

Lemma substring_0_0 s : String.substring 0 0 s = "".
Proof. by destruct s. Qed.

Lemma slice_middle s t u :
  Str.slice (s +:+ t +:+ u) (Z.of_nat (String.length s))
    (Z.of_nat (String.length s) + Z.of_nat (String.length t)) = t.
Proof.
  unfold Str.slice. rewrite !length_app.
  set (a := String.length s). set (b := String.length t).
  set (c := String.length u).
  destruct (Z.ltb_spec (Z.of_nat a) 0); [lia|].
  destruct (Z.ltb_spec (Z.of_nat a + Z.of_nat b) 0); [lia|].
  rewrite (Z.min_l (Z.of_nat a)) by lia.
  rewrite (Z.min_l (Z.of_nat a + Z.of_nat b)) by lia.
  destruct (Z.leb_spec (Z.of_nat a + Z.of_nat b) (Z.of_nat a)).
  - assert (b = 0%nat) as Hb by lia. unfold b in Hb. by destruct t.
  - replace (Z.of_nat a + Z.of_nat b - Z.of_nat a) with (Z.of_nat b) by lia.
    rewrite !Nat2Z.id. apply substring_app.
Qed.

(** What [_extract_font_url] returns once the first ["url("] is found: the
    text up to the next [")"], or [None] without one. *)
Lemma extract_font_url_after pre tail :
  Str.index "url(" (pre +:+ "url(" +:+ tail) = Some (String.length pre) →
  FontManager._extract_font_url (pre +:+ "url(" +:+ tail) =
  match Str.index ")" tail with
  | Some m => Some (String.substring 0 m tail)
  | None => None
  end.
Proof.
  intros Hfirst. unfold FontManager._extract_font_url.
  rewrite find_from_start, Hfirst.
  replace (Z.of_nat (String.length pre) + 4)
    with (Z.of_nat (String.length (pre +:+ "url("))) by (rewrite length_app; simpl; lia).
  rewrite <- (app_assoc_str pre "url(" tail), find_after_prefix.
  destruct (Z.ltb_spec (Z.of_nat (String.length (pre +:+ "url("))) 4);
    [rewrite length_app in *; simpl in *; lia|].
  destruct (Str.index ")" tail) as [m|] eqn:Hclose; cbn [orb].
  - destruct (Z.ltb_spec (Z.of_nat (String.length (pre +:+ "url(")) + Z.of_nat m) 0);
      [lia|]. f_equal.
    destruct (index_char_split _ _ _ Hclose) as (u & rest & -> & <- & _).
    change (u +:+ String ")" rest) with (u +:+ ")" +:+ rest).
    by rewrite slice_middle, substring_0_app.
  - done.
Qed.

(** [_extract_font_url] returns the text between the first ["url("] and
    the first [")"] after it, and nothing else: it returns [url] exactly
    when the style sheet reads [pre url( url ) rest] with no earlier
    ["url("] and no [")"] in [url]. *)
Theorem extract_font_url_spec css_content url :
  FontManager._extract_font_url css_content = Some url ↔
  ∃ pre rest,
    css_content = pre +:+ "url(" +:+ url +:+ ")" +:+ rest ∧
    Str.index "url(" css_content = Some (String.length pre) ∧
    Str.contains ")" url = false.
Proof.
  split.
  - intros H.
    destruct (Str.index "url(" css_content) as [n|] eqn:Hfirst.
    + destruct (index_Some_split _ _ _ Hfirst) as (pre & tail & -> & <-).
      rewrite (extract_font_url_after _ _ Hfirst) in H.
      destruct (Str.index ")" tail) as [m|] eqn:Hclose; [|done].
      destruct (index_char_split _ _ _ Hclose) as (u & rest & -> & <- & Hu).
      change (u +:+ String ")" rest) with (u +:+ ")" +:+ rest) in *.
      rewrite substring_0_app in H. injection H as <-.
      exists pre, rest. split; [done|]. split; [done|].
      unfold Str.contains. by rewrite Hu.
    + unfold FontManager._extract_font_url in H.
      by rewrite find_from_start, Hfirst in H.
  - intros (pre & rest & -> & Hfirst & Hurl).
    rewrite (extract_font_url_after _ _ Hfirst).
    unfold Str.contains in Hurl.
    destruct (Str.index ")" url) eqn:Hu; [done|].
    change (url +:+ ")" +:+ rest) with (url +:+ String ")" rest).
    rewrite (index_char_app _ _ _ Hu).
    change (url +:+ String ")" rest) with (url +:+ ")" +:+ rest).
    by rewrite substring_0_app.
Qed.

(** Without ["url("], or without a [")"] after the first one, there is no
    address. *)
Theorem extract_font_url_none css_content :
  FontManager._extract_font_url css_content = None ↔
  (Str.contains "url(" css_content = false ∨
   ∃ pre tail, css_content = pre +:+ "url(" +:+ tail ∧
               Str.index "url(" css_content = Some (String.length pre) ∧
               Str.contains ")" tail = false).
Proof.
  unfold Str.contains.
  destruct (Str.index "url(" css_content) as [n|] eqn:Hfirst.
  - destruct (index_Some_split _ _ _ Hfirst) as (pre & tail & -> & <-).
    rewrite (extract_font_url_after _ _ Hfirst). split.
    + destruct (Str.index ")" tail) eqn:Hclose; [done|]. intros _. right.
      exists pre, tail. by rewrite Hclose.
    + intros [|(pre' & tail' & Heq & Hlen & Hclose)]; [done|].
      injection Hlen as Hlen.
      assert (pre' = pre ∧ tail' = tail) as [-> ->].
      { clear -Heq Hlen. revert pre' Heq Hlen.
        induction pre as [|c pre IH]; intros [|c' pre'] Heq Hlen; try done.
        - split; [done|]. by injection Heq.
        - rewrite !app_cons in Heq. injection Heq as -> Heq.
          injection Hlen as Hlen. by destruct (IH _ Heq Hlen) as [-> ->]. }
      by destruct (Str.index ")" tail).
  - split; [by left|]. intros _.
    unfold FontManager._extract_font_url.
    by rewrite find_from_start, Hfirst.
Qed.

End ExtractUrl.

(** ** More of [PDFEditor]: what is copied, drawn and saved *)

(** Evaluate subscripts and binds in [Res]. *)
Ltac res_eval :=
  repeat (unfold mbind, Res_bind, getitem_int; simpl;
          rewrite ?seq_index_0_cons, ?seq_index_0_nil).

Section EditorFacts.

Context {W D Pg : Type} (P : Platform W) (F : Fitz W D Pg).

Import PDFEditor.

Lemma lookup_copied span k properties key :
  copied span k properties !! key =
  if decide (k = key)
  then match span !! k with Some v => Some v | None => properties !! key end
  else properties !! key.
Proof.
  unfold copied. destruct (span !! k) as [v|] eqn:E.
  - destruct (decide (k = key)) as [->|Hne].
    + by rewrite lookup_insert_eq.
    + by rewrite lookup_insert_ne.
  - by destruct (decide (k = key)).
Qed.

(** The extractor reads the first span of the first line of the first
    block and nothing else: each of font, size and colour is the value the
    span holds under that key, or the default when the span has no such
    key, whatever the other spans, lines and blocks are. *)
Theorem extract_copies_the_first_span page inst (st : Ed W D)
    d block blocks line lines span spans :
  get_text_dict F page inst (doc st) = Ok (PDict d) →
  d !! "blocks" = Some (PList (PDict block :: blocks)) →
  block !! "lines" = Some (PList (PDict line :: lines)) →
  line !! "spans" = Some (PList (PDict span :: spans)) →
  ∃ properties,
    get_text_properties F page inst st
    = (logged (EvGetText inst) st, Ok (Some properties)) ∧
    ∀ key, properties !! key =
           if bool_decide (key ∈ ["font"; "size"; "color"])
           then match span !! key with
                | Some v => Some v
                | None => default_properties !! key
                end
           else None.
Proof.
  intros Hget Hblocks Hlines Hspans.
  destruct (get_text_properties_run F page inst st) as (r & E & _ & _ & _ & Hr).
  assert (first_span (PDict d) = Ok (PDict span)) as Hfirst.
  { unfold first_span. res_eval. rewrite Hblocks. res_eval.
    rewrite Hlines. res_eval. rewrite Hspans. by res_eval. }
  assert (has_blocks (PDict d) = Ok true) as Hhas.
  { by rewrite has_blocks_dict, Hblocks. }
  rewrite (Hr _ Hget Hhas) in E by eauto.
  eexists. split; [done|]. intros key.
  unfold extracted_properties. rewrite Hfirst. rewrite !lookup_copied.
  destruct (bool_decide_reflect (key ∈ ["font"; "size"; "color"])) as [Hin|Hout].
  - repeat (apply elem_of_cons in Hin as [->|Hin]);
      [..|by apply elem_of_nil in Hin];
      repeat case_decide; try done;
      by repeat match goal with |- context [span !! ?k] => destruct (span !! k) end.
  - repeat case_decide; subst;
      try solve [exfalso; apply Hout; repeat first [by left|right]].
    unfold default_properties. by rewrite !lookup_insert_ne, lookup_empty.
Qed.

End EditorFacts.

Section EditorRuns.

Context {W D Pg : Type} (P : Platform W) (F : Fitz W D Pg).

Import PDFEditor.

Lemma get_text_properties_emits Q page inst :
  Q (EvGetText inst) →
  emits (@ed_log W D) Q (get_text_properties F page inst).
Proof.
  intros HQ st. destruct (get_text_properties_run F page inst st) as (r & E & _).
  rewrite E. exists [EvGetText inst]. split; [done|]. by constructor.
Qed.

(** What one match logs, for any property of events that holds of the
    lookup, of the redaction calls and of what the inserter logs. *)
Lemma replace_instance_emits_any (Q : Event → Prop) page new_text inst :
  Q (EvGetText inst) →
  (∀ ev, is_redact_event ev = true → Q ev) →
  (∀ position properties ev,
     insertion_event position new_text properties ev → Q ev) →
  emits ed_log Q (replace_instance P F page new_text inst).
Proof.
  intros Hlookup Hredact Hinsert. unfold replace_instance.
  apply emits_bind; [by apply get_text_properties_emits|].
  intros properties. destruct (properties_falsy properties); [apply emits_ret|].
  apply emits_bind; [eapply emits_mono; [|apply redact_text_emits]; done|].
  intros redacted. destruct (negb redacted); [apply emits_ret|].
  apply emits_bind; [apply emits_lift|intros font_size].
  apply emits_bind; [apply emits_lift|intros offset].
  apply emits_bind; [|intros _; apply emits_ret].
  eapply emits_mono; [|apply insert_new_text_emits]. apply Hinsert.
Qed.

Lemma insertion_event_no_save position text properties ev :
  insertion_event position text properties ev → is_save_event ev = false.
Proof.
  intros [H|[[f ->]|(fn & sz & c & _ & ->)]]; [by destruct ev|done..].
Qed.

Lemma loop_emits_no_save page new_text insts :
  emits ed_log (λ ev, is_save_event ev = false)
    (for_each (replace_instance P F page new_text) insts).
Proof.
  apply emits_for_each. intros inst _.
  apply replace_instance_emits_any; [done| |].
  - intros ev H. by destruct ev.
  - intros ???. apply insertion_event_no_save.
Qed.

(** The log of [edit_text]: calls that are no save, then at most one save,
    of the derived path, which is the last call; the result is [False]
    without it. *)
Lemma edit_text_shape filename page_number old_text new_text (s : Sys W) :
  let run := edit_text P F filename page_number old_text new_text s in
  ∃ pre,
    Forall (λ ev, is_save_event ev = false) pre ∧
    ((log run.1 = log s ++ pre ∧ run.2 = false) ∨
     (∃ name, filename = Some name ∧
        log run.1 = log s ++ pre ++ [EvSave (Str.replace name ".pdf" "_edited.pdf")])).
Proof.
  cbv zeta.
  destruct (fitz_open F filename (world s)) as [d|e] eqn:Hopen.
  2:{ unfold edit_text. rewrite Hopen. exists [EvOpen filename].
      split; [by repeat constructor|]. by left. }
  destruct (load_page F page_number d) as [page|e] eqn:Hpage.
  2:{ unfold edit_text, edit_opened. rewrite Hopen.
      unfold mbind, M_bind, event, lift_sys, emit, read_doc. cbn.
      rewrite Hpage. exists [EvOpen filename; EvLoadPage page_number].
      split; [by repeat constructor|]. left. by rewrite <- app_assoc. }
  destruct (search_for F page old_text d) as [insts|e] eqn:Hsearch.
  2:{ unfold edit_text, edit_opened. rewrite Hopen.
      unfold mbind, M_bind, event, lift_sys, emit, read_doc. cbn.
      rewrite Hpage. cbn. rewrite Hsearch.
      exists [EvOpen filename; EvLoadPage page_number; EvSearch old_text].
      split; [by repeat constructor|]. left. by rewrite <- !app_assoc. }
  rewrite (edit_text_searched P F _ _ _ _ _ _ _ _ Hopen Hpage Hsearch).
  set (st0 := mkEd _ d).
  destruct (loop_emits_no_save page new_text insts st0) as (evs & L & Q).
  destruct (for_each _ insts st0) as [st' [[]|e]]; cbn [fst] in L.
  - destruct filename as [name|].
    + cbv zeta. destruct (save F _ (doc st') (world (sys st'))) as [w' saved].
      exists ([EvOpen (Some name); EvLoadPage page_number; EvSearch old_text] ++ evs).
      split; [apply Forall_app; split; [by repeat constructor|done]|].
      right. exists name. split; [done|]. cbn [fst log]. rewrite L.
      unfold st0, ed_log, searched. cbn [sys log]. by rewrite <- !app_assoc.
    + exists ([EvOpen None; EvLoadPage page_number; EvSearch old_text] ++ evs).
      split; [apply Forall_app; split; [by repeat constructor|done]|].
      left. split; [|done]. cbn [fst]. unfold ed_log in L. rewrite L.
      unfold st0, searched. cbn [sys log]. by rewrite <- !app_assoc.
  - exists ([EvOpen filename; EvLoadPage page_number; EvSearch old_text] ++ evs).
    split; [apply Forall_app; split; [by repeat constructor|done]|].
    left. split; [|done]. cbn [fst]. unfold ed_log in L. rewrite L.
    unfold st0, searched. cbn [sys log]. by rewrite <- !app_assoc.
Qed.

(** Without a file name ([self.filename] is [None]: no [open_pdf] has
    succeeded), [edit_text] returns [False] and never calls [doc.save]. *)
Theorem edit_without_file_name_saves_nothing page_number old_text new_text
    (s : Sys W) :
  let run := edit_text P F None page_number old_text new_text s in
  run.2 = false ∧
  ∃ evs, log run.1 = log s ++ evs ∧ Forall (λ ev, is_save_event ev = false) evs.
Proof.
  cbv zeta.
  destruct (edit_text_shape None page_number old_text new_text s)
    as (pre & Hpre & [[L R]|(name & [=] & _)]).
  split; [done|]. by exists pre.
Qed.

(** [edit_text] saves at most once, under the derived name, as its last
    call, and returns [True] only after that call. *)
Theorem save_is_the_last_call filename page_number old_text new_text (s : Sys W) :
  let run := edit_text P F filename page_number old_text new_text s in
  ∃ evs,
    log run.1 = log s ++ evs ∧
    (∀ path, EvSave path ∈ evs →
       ∃ name pre,
         filename = Some name ∧
         path = Str.replace name ".pdf" "_edited.pdf" ∧
         evs = pre ++ [EvSave path] ∧
         Forall (λ ev, is_save_event ev = false) pre) ∧
    (run.2 = true →
       ∃ name, filename = Some name ∧
               EvSave (Str.replace name ".pdf" "_edited.pdf") ∈ evs).
Proof.
  cbv zeta.
  destruct (edit_text_shape filename page_number old_text new_text s)
    as (pre & Hpre & [[L R]|(name & -> & L)]).
  - exists pre. split; [done|]. split.
    + intros path Hin. rewrite Forall_forall in Hpre. by specialize (Hpre _ Hin).
    + by rewrite R.
  - exists (pre ++ [EvSave (Str.replace name ".pdf" "_edited.pdf")]).
    split; [done|]. split.
    + intros path [Hin|Hin]%elem_of_app.
      * rewrite Forall_forall in Hpre. by specialize (Hpre _ Hin).
      * apply list_elem_of_singleton in Hin as [= ->]. by exists name, pre.
    + intros _. exists name. split; [done|]. apply elem_of_app. right. by left.
Qed.

Lemma redact_text_run page inst (st : Ed W D) :
  redact_text F page inst st =
    let st1 := logged (EvRedactAnnot inst) st in
    match add_redact_annot F page inst (doc st) with
    | (d1, Raise _) => (mkEd (sys st1) d1, Ok false)
    | (d1, Ok _) =>
        let st2 := logged EvApplyRedactions (mkEd (sys st1) d1) in
        match apply_redactions F page d1 with
        | (d2, Raise _) => (mkEd (sys st2) d2, Ok false)
        | (d2, Ok _) => (mkEd (sys st2) d2, Ok true)
        end
    end.
Proof.
  unfold redact_text, try_except, mbind, M_bind, event, lift_sys, emit,
    call_doc, logged. cbn.
  destruct (add_redact_annot F page inst (doc st)) as [d1 [[]|e]]; [|done].
  cbn. by destruct (apply_redactions F page d1) as [d2 [[]|e]].
Qed.

(** New text is drawn only for a match whose redaction went through: when
    the log of a match holds a drawing call, [add_redact_annot] and
    [apply_redactions] both returned, and their calls come first. *)
Theorem drawing_follows_redaction page new_text inst (st : Ed W D) :
  let run := replace_instance P F page new_text inst st in
  ∃ evs,
    ed_log run.1 = ed_log st ++ evs ∧
    (Exists (λ ev, is_insert_event ev = true) evs →
     ∃ d1 d2 rest,
       add_redact_annot F page inst (doc st) = (d1, Ok ()) ∧
       apply_redactions F page d1 = (d2, Ok ()) ∧
       evs = EvGetText inst :: EvRedactAnnot inst :: EvApplyRedactions :: rest).
Proof.
  cbv zeta. unfold replace_instance.
  destruct (get_text_properties_run F page inst st) as (r & E & _).
  rewrite (bind_ok _ _ _ _ _ E).
  destruct (properties_falsy r).
  { exists [EvGetText inst]. split; [done|].
    intros [H|H%Exists_nil]%Exists_cons; done. }
  set (properties := default ∅ r).
  pose proof (redact_text_run page inst (logged (EvGetText inst) st)) as R.
  cbv zeta in R. cbn [doc logged] in R.
  destruct (add_redact_annot F page inst (doc st)) as [d1 [[]|e]] eqn:Hannot.
  2:{ rewrite (bind_ok _ _ _ _ _ R). cbn [negb].
      exists [EvGetText inst; EvRedactAnnot inst].
      split; [unfold ed_log, logged; cbn; by rewrite <- !app_assoc|].
      intros H. repeat (apply Exists_cons in H as [H|H]; [done|]).
      by apply Exists_nil in H. }
  destruct (apply_redactions F page d1) as [d2 [[]|e]] eqn:Happly.
  2:{ rewrite (bind_ok _ _ _ _ _ R). cbn [negb].
      exists [EvGetText inst; EvRedactAnnot inst; EvApplyRedactions].
      split; [unfold ed_log, logged; cbn; by rewrite <- !app_assoc|].
      intros H. repeat (apply Exists_cons in H as [H|H]; [done|]).
      by apply Exists_nil in H. }
  rewrite (bind_ok _ _ _ _ _ R). cbn [negb].
  match goal with |- context [?m ?s] =>
    match type of s with Ed W D =>
      match type of m with M (Ed W D) () =>
        assert (emits ed_log (λ _, True) m) as Hrest; [|
          destruct (Hrest s) as (evs & L & _)]
      end end end.
  { apply emits_bind; [apply emits_lift|intros font_size].
    apply emits_bind; [apply emits_lift|intros offset].
    apply emits_bind; [|intros _; apply emits_ret].
    eapply emits_mono; [|apply insert_new_text_emits]. done. }
  exists (EvGetText inst :: EvRedactAnnot inst :: EvApplyRedactions :: evs).
  split.
  - rewrite L. unfold ed_log, logged. cbn. by rewrite <- !app_assoc.
  - intros _. by exists d1, d2, evs.
Qed.

End EditorRuns.

Section InserterRuns.

Context {W D Pg : Type} (P : Platform W) (F : Fitz W D Pg).

Import PDFEditor.

Lemma font_event_no_insert ev : is_font_event ev = true → is_insert_event ev = false.
Proof. by destruct ev. Qed.

(** The font the inserter draws with when the name is no built-in alias:
    the name itself or ['helv'], after calls that draw nothing. *)
Lemma chosen_font_run font_name (builtin : bool) (st : Ed W D) :
  let run :=
    (if builtin then mret font_name
     else
       font_file ← lift_sys (FontManager.find_font P font_name);
       if path_truthy font_file then
         try_except
           (_ ← event (EvLoadFont (default "" font_file));
            _ ← call_doc_world (load_font F (default "" font_file));
            mret font_name)
           (λ _, mret (PStr "helv"))
       else mret (PStr "helv")) st in
  ∃ pre,
    Forall (λ ev, is_insert_event ev = false) pre ∧
    ed_log run.1 = ed_log st ++ pre ∧
    (run.2 = Ok font_name ∨ run.2 = Ok (PStr "helv") ∨ ∃ e, run.2 = Raise e).
Proof.
  cbv zeta. destruct builtin.
  { exists []. split; [done|]. split; [by rewrite app_nil_r|by left]. }
  destruct (find_font_emits P font_name (sys st)) as (evs & L & Q).
  assert (Forall (λ ev, is_insert_event ev = false) evs) as Q'.
  { eapply Forall_impl; [done|]. apply font_event_no_insert. }
  destruct (FontManager.find_font P font_name (sys st)) as [s1 r] eqn:Hfind;
    cbn [fst] in L.
  assert (lift_sys (FontManager.find_font P font_name) st
          = (mkEd s1 (doc st) : Ed W D, r)) as Hlift.
  { unfold lift_sys. by rewrite Hfind. }
  destruct r as [font_file|e].
  2:{ rewrite !(bind_raise _ _ _ _ _ Hlift).
      exists evs. split; [done|]. split; [done|]. right. right. by eexists. }
  rewrite !(bind_ok _ _ _ _ _ Hlift).
  destruct (path_truthy font_file).
  2:{ exists evs. split; [done|]. split; [done|]. right. by left. }
  exists (evs ++ [EvLoadFont (default "" font_file)]).
  split; [apply Forall_app; split; [done|by repeat constructor]|].
  unfold try_except, mbind, M_bind, event, lift_sys, emit, call_doc_world.
  cbn [sys doc world log].
  destruct (load_font F (default "" font_file) (world s1) (doc st)) as [d' [[]|e]];
    (split; [unfold ed_log; cbn; by rewrite L, <- app_assoc|]).
  - by left.
  - right. by left.
Qed.

Lemma try_except_run {S A} (m : M S A) h s :
  try_except m h s =
    match m s with
    | (s', Ok a) => (s', Ok a)
    | (s', Raise e) => h e s'
    end.
Proof. unfold try_except. by destruct (m s) as [s' [a|e]]. Qed.

Lemma bind_lift_raise {S A B} (f : A → M S B) e s :
  (lift (Raise e) ≫= f) s = (s, Raise e).
Proof. done. Qed.

Lemma dict_getitem_Ok (d : gmap string PyVal) key v :
  dict_getitem d key = Ok v → d !! key = Some v.
Proof. unfold dict_getitem. destruct (d !! key); congruence. Qed.

(** [insert_new_text] draws at most once, as its last call, with the size
    and colour of [properties] and with the font of [properties] or
    ['helv']; it returns [True] exactly when that call returned. *)
Theorem insert_draws_once_and_last page position text properties (st : Ed W D) :
  let run := insert_new_text P F page position text properties st in
  ∃ pre,
    Forall (λ ev, is_insert_event ev = false) pre ∧
    ((ed_log run.1 = ed_log st ++ pre ∧ run.2 = Ok false) ∨
     (∃ use_font fontsize color d0 drawn,
        ed_log run.1 =
          ed_log st ++ pre ++ [EvInsertText position text use_font fontsize color] ∧
        properties !! "size" = Some fontsize ∧
        properties !! "color" = Some color ∧
        (properties !! "font" = Some use_font ∨ use_font = PStr "helv") ∧
        insert_text F page position text use_font fontsize color d0
          = (doc run.1, drawn) ∧
        run.2 = Ok (is_ok drawn))).
Proof.
  cbv zeta. unfold insert_new_text. rewrite try_except_run.
  destruct (dict_getitem properties "font") as [font_name|e] eqn:Hfont.
  2:{ rewrite bind_lift_raise. exists []. split; [done|]. left.
      by rewrite app_nil_r. }
  apply dict_getitem_Ok in Hfont.
  rewrite (bind_lift_ok _ _ _ _ eq_refl).
  destruct (in_builtin_fonts font_name) as [builtin|e].
  2:{ rewrite bind_lift_raise. exists []. split; [done|]. left.
      by rewrite app_nil_r. }
  rewrite (bind_lift_ok _ _ _ _ eq_refl).
  destruct (chosen_font_run font_name builtin st) as (pre & Hpre & L & Hfontname).
  cbv zeta in L, Hfontname.
  match type of L with ed_log (?m st).1 = _ => set (choose := m) in * end.
  destruct (choose st) as [st1 [use_font|e]] eqn:Hchoose; cbn [fst snd] in L, Hfontname.
  2:{ rewrite (bind_raise _ _ _ _ _ Hchoose). exists pre. split; [done|]. by left. }
  rewrite (bind_ok _ _ _ _ _ Hchoose).
  assert (properties !! "font" = Some use_font ∨ use_font = PStr "helv") as Huse.
  { destruct Hfontname as [[= <-]|[[= <-]|[e [=]]]]; [by left|by right]. }
  clear Hfontname Hchoose.
  destruct (dict_getitem properties "size") as [fontsize|e] eqn:Hsize.
  2:{ rewrite bind_lift_raise. exists pre. split; [done|]. by left. }
  apply dict_getitem_Ok in Hsize.
  rewrite (bind_lift_ok _ _ _ _ eq_refl).
  destruct (dict_getitem properties "color") as [color|e] eqn:Hcolor.
  2:{ rewrite bind_lift_raise. exists pre. split; [done|]. by left. }
  apply dict_getitem_Ok in Hcolor.
  rewrite (bind_lift_ok _ _ _ _ eq_refl).
  unfold mbind, M_bind, event, lift_sys, emit, call_doc. cbn [sys doc world log].
  destruct (insert_text F page position text use_font fontsize color (doc st1))
    as [d' drawn] eqn:Hdraw.
  exists pre. split; [done|]. right.
  exists use_font, fontsize, color, (doc st1), drawn.
  split; [destruct drawn as [[]|e]; unfold ed_log in *; cbn; by rewrite L, <- app_assoc|].
  do 3 (split; [done|]).
  by destruct drawn as [[]|e].
Qed.

End InserterRuns.

(** ** C4: the insertion point *)

Section InsertionPoint.

Context {W D Pg : Type} (P : Platform W) (F : Fitz W D Pg).

Import PDFEditor.

Lemma placed_singleton new_text inst ev :
  placed new_text [inst] ev → drawn_at new_text inst ev.
Proof.
  intros H position text fontname fontsize color E.
  destruct (H _ _ _ _ _ E) as (-> & inst' & size & Hin & Hsize & ->).
  apply list_elem_of_singleton in Hin as ->. split; [done|]. by exists size.
Qed.

Lemma baseline_offset_float font_size size :
  to_float font_size = Ok size →
  baseline_offset font_size = Ok (size + size * 0.08)%float.
Proof.
  intros E. unfold baseline_offset, mul_float, add_float, mbind, Res_bind.
  by rewrite E.
Qed.

(** With a built-in alias as font, the inserter logs the drawing call and
    nothing else. *)
Lemma insert_new_text_builtin_log page position text properties alias
    fontsize color (st : Ed W D) :
  properties !! "font" = Some (PStr alias) →
  alias ∈ builtin_fonts →
  properties !! "size" = Some fontsize →
  properties !! "color" = Some color →
  ed_log (insert_new_text P F page position text properties st).1
  = ed_log st ++ [EvInsertText position text (PStr alias) fontsize color].
Proof.
  intros Hfont Hin Hsize Hcolor.
  unfold insert_new_text, try_except, mbind, M_bind, lift, dict_getitem.
  rewrite Hfont, Hsize, Hcolor, in_builtin_fonts_str, (bool_decide_true _ Hin).
  simpl. unfold call_doc. simpl.
  by destruct (insert_text F page position text (PStr alias) fontsize color (doc st))
    as [d [[]|e]].
Qed.

(** A match whose properties were extracted and whose redaction went
    through: the loop body hands the inserter the insertion point of that
    match for the extracted size. *)
Lemma replace_instance_inserts page new_text inst (st : Ed W D) p v size d1 d2 :
  (get_text_properties F page inst st).2 = Ok (Some p) →
  p !! "size" = Some v →
  to_float v = Ok size →
  add_redact_annot F page inst (doc st) = (d1, Ok ()) →
  apply_redactions F page d1 = (d2, Ok ()) →
  replace_instance P F page new_text inst st
  = ((insert_new_text P F page (insertion_point inst size) new_text p
        (mkEd (mkSys (world (sys st))
                 (ed_log st ++ [EvGetText inst; EvRedactAnnot inst;
                                EvApplyRedactions]))
              d2)).1,
     Ok ()).
Proof.
  intros Hp Hsize Hfloat Hannot Happly. unfold replace_instance.
  destruct (get_text_properties_run F page inst st) as (r & E & _).
  rewrite E in Hp. cbn [snd] in Hp. injection Hp as ->.
  rewrite (bind_ok _ _ _ _ _ E).
  assert (properties_falsy (Some p) = false) as ->.
  { unfold properties_falsy. apply Nat.eqb_neq. intros H0.
    apply map_size_empty_iff in H0. by rewrite H0, lookup_empty in Hsize. }
  pose proof (redact_text_run F page inst (logged (EvGetText inst) st)) as R.
  cbv zeta in R. cbn [doc logged] in R. rewrite Hannot, Happly in R.
  rewrite (bind_ok _ _ _ _ _ R). cbn [negb default from_option id].
  assert (dict_getitem p "size" = Ok v) as Hget.
  { unfold dict_getitem. by rewrite Hsize. }
  rewrite (bind_lift_ok _ _ _ _ Hget).
  rewrite (bind_lift_ok _ _ _ _ (baseline_offset_float _ _ Hfloat)).
  unfold logged, ed_log. cbn [sys world log]. rewrite <- !app_assoc.
  cbn [app]. fold (insertion_point inst size).
  destruct (insert_new_text_total P F page (insertion_point inst size) new_text p
              (mkEd (mkSys (world (sys st))
                       (log (sys st) ++ [EvGetText inst; EvRedactAnnot inst;
                                         EvApplyRedactions])) d2))
    as (st3 & b & E3).
  by rewrite (bind_ok _ _ _ _ _ E3), E3.
Qed.

(** The loop, match by match: the state each match starts from and the
    calls made for it. *)
Lemma for_each_match_calls page new_text insts (st : Ed W D) :
  sizes_numeric F →
  ∃ st' (runs : list (Ed W D * list Event)),
    for_each (replace_instance P F page new_text) insts st = (st', Ok ()) ∧
    ed_log st' = ed_log st ++ concat (snd <$> runs) ∧
    Forall2 (λ inst run,
               match_calls new_text inst run.2 ∧
               ed_log (replace_instance P F page new_text inst run.1).1
               = ed_log run.1 ++ run.2)
            insts runs.
Proof.
  intros Hnum. revert st. induction insts as [|inst insts IH]; intros st.
  - exists st, []. cbn. by rewrite app_nil_r.
  - destruct (replace_instance_step P F page new_text inst st Hnum)
      as (st1 & evs & E & L & Q).
    destruct (replace_instance_emits P F page new_text inst st) as (evs' & L' & Q').
    rewrite E in L'. cbn [fst] in L'. rewrite L in L'.
    apply app_inv_head in L'. subst evs'.
    apply Forall_cons in Q' as [_ Q'].
    destruct (IH st1) as (st' & runs & E' & L' & Hruns).
    exists st', ((st, EvGetText inst :: evs) :: runs). cbn [for_each].
    rewrite (bind_ok _ _ _ _ _ E). split; [done|]. split.
    + rewrite L', L. cbn [fmap list_fmap concat snd]. by rewrite <- !app_assoc.
    + constructor; [|done]. cbn [fst snd]. split; [|by rewrite E].
      exists evs. split; [done|]. split; [done|].
      eapply Forall_impl; [done|]. apply placed_singleton.
Qed.

(** C4.  For every match and every extracted size the pipeline inserts at
    [(inst.x0, inst.y0 + (size + size * 0.08))], in binary64 arithmetic:
    - a match whose properties were extracted and whose redaction went
      through runs the inserter at that point, and with a built-in font
      the drawing call at that point is logged;
    - over the whole of [edit_text] the calls split match by match, each
      part being what the loop body logs for that match from the state it
      starts in, and every drawing call made for a match is at the point
      of that match for the size it draws with;
    - for size 11 the offset is 11.88. *)
Theorem insertion_point_is_baseline_adjusted filename page_number old_text
    new_text (s : Sys W) d page insts :
  fitz_open F filename (world s) = Ok d →
  load_page F page_number d = Ok page →
  search_for F page old_text d = Ok insts →
  (∀ inst (st : Ed W D) p v size d1 d2,
     (get_text_properties F page inst st).2 = Ok (Some p) →
     p !! "size" = Some v →
     to_float v = Ok size →
     add_redact_annot F page inst (doc st) = (d1, Ok ()) →
     apply_redactions F page d1 = (d2, Ok ()) →
     let redacted :=
       mkEd (mkSys (world (sys st))
               (ed_log st ++ [EvGetText inst; EvRedactAnnot inst;
                              EvApplyRedactions])) d2 in
     replace_instance P F page new_text inst st
     = ((insert_new_text P F page (insertion_point inst size) new_text p
           redacted).1, Ok ()) ∧
     ∀ alias color,
       p !! "font" = Some (PStr alias) →
       alias ∈ builtin_fonts →
       p !! "color" = Some color →
       ed_log (replace_instance P F page new_text inst st).1
       = ed_log st ++ [EvGetText inst; EvRedactAnnot inst; EvApplyRedactions;
                       EvInsertText (insertion_point inst size) new_text
                         (PStr alias) v color]) ∧
  (sizes_numeric F →
   ∃ (runs : list (Ed W D * list Event)) tail,
     log (edit_text P F filename page_number old_text new_text s).1
     = log s ++ [EvOpen filename; EvLoadPage page_number; EvSearch old_text]
         ++ concat (snd <$> runs) ++ tail ∧
     Forall2 (λ inst run,
                match_calls new_text inst run.2 ∧
                ed_log (replace_instance P F page new_text inst run.1).1
                = ed_log run.1 ++ run.2)
             insts runs ∧
     Forall (λ ev, is_save_event ev = true) tail) ∧
  baseline_offset (PInt 11) = Ok 11.88%float ∧
  baseline_offset (PFloat 11) = Ok 11.88%float.
Proof.
  intros Hopen Hpage Hsearch. split; [|split; [|by split]].
  - intros inst st p v size d1 d2 Hp Hsize Hfloat Hannot Happly. cbv zeta.
    pose proof (replace_instance_inserts page new_text inst st p v size d1 d2
                  Hp Hsize Hfloat Hannot Happly) as E.
    split; [done|]. intros alias color Hfont Hin Hcolor. rewrite E. cbn [fst].
    rewrite (insert_new_text_builtin_log _ _ _ _ alias v color _
               Hfont Hin Hsize Hcolor).
    unfold ed_log. cbn [sys log]. by rewrite <- app_assoc.
  - intros Hnum.
    rewrite (edit_text_searched _ _ _ _ _ _ _ _ _ _ Hopen Hpage Hsearch).
    set (st0 := mkEd _ d).
    destruct (for_each_match_calls page new_text insts st0 Hnum)
      as (st' & runs & -> & L & Hruns).
    destruct filename as [name|].
    + cbv zeta. destruct (save F _ _ _) as [w' saved].
      exists runs, [EvSave (Str.replace name ".pdf" "_edited.pdf")].
      split; [|split; [done|by repeat constructor]].
      cbn [fst log]. rewrite L. unfold st0, ed_log, searched. cbn [sys log].
      by rewrite <- !app_assoc.
    + exists runs, []. split; [|by split].
      cbn [fst]. unfold ed_log in L. rewrite L. unfold st0, searched.
      cbn [sys log]. by rewrite app_nil_r, <- !app_assoc.
Qed.

End InsertionPoint.

Section ObjectFacts.

Context {W D Pg R Pp Wr : Type}.
Context (P : Platform W) (F : Fitz W D Pg) (Y : PyPDF2 W R Pp Wr).

Import PDFEditorObject.

Lemma open_each_snoc calls call (self : Editor R) :
  open_each Y (calls ++ [call]) self
  = (open_pdf Y call.1 (open_each Y calls self) call.2).1.
Proof. unfold open_each. by rewrite foldl_app. Qed.

Lemma accepted_snoc calls call :
  accepted Y (calls ++ [call])
  = accepted Y calls ++
    (if is_ok (pdf_reader Y call.1 call.2) then [call] else []).
Proof.
  unfold accepted. rewrite filter_app. f_equal.
  rewrite filter_cons, filter_nil.
  destruct (is_ok (pdf_reader Y call.1 call.2)); by case_decide.
Qed.

(** After a session that starts from a new editor, the attributes are those
    of the last call in which [PdfReader] returned. *)
Lemma open_each_attributes calls :
  let self := open_each Y calls __init__ in
  match last (accepted Y calls) with
  | Some (pdf_path, w) =>
      filename self = Some pdf_path ∧
      ∃ reader, pdf_reader Y pdf_path w = Ok reader ∧
                current_pdf self = Some reader
  | None => filename self = None ∧ current_pdf self = None
  end.
Proof.
  cbv zeta. induction calls as [|[pdf_path w] calls IH] using rev_ind; [done|].
  rewrite open_each_snoc, accepted_snoc. unfold open_pdf. cbn [fst snd].
  destruct (pdf_reader Y pdf_path w) as [reader|e] eqn:Hopen; cbn [is_ok fst].
  - rewrite last_snoc. split; [done|]. by exists reader.
  - by rewrite app_nil_r.
Qed.

Lemma edit_text_opens filename n old_text new_text (s : Sys W) :
  ∃ evs,
    log (PDFEditor.edit_text P F filename n old_text new_text s).1
    = log s ++ EvOpen filename :: evs.
Proof.
  unfold PDFEditor.edit_text.
  destruct (fitz_open F filename (world s)) as [d|e]; [|by exists []].
  set (st0 := mkEd _ d).
  assert (emits ed_log (λ _, True)
            (PDFEditor.edit_opened P F filename n old_text new_text)) as H.
  { unfold PDFEditor.edit_opened.
    repeat first [ apply emits_event; done
                 | apply emits_bind; [|intros ?]
                 | apply emits_lift | apply emits_ret
                 | apply emits_read_doc | apply emits_call_world_doc ].
    eapply emits_mono; [|apply (loop_emits_no_save P F)]. done. }
  destruct (H st0) as (evs & L & _).
  destruct (PDFEditor.edit_opened _ _ _ _ _ _ st0) as [st' [b|e]];
    exists evs; cbn [fst] in *; unfold ed_log in L; rewrite L;
    unfold st0; cbn; by rewrite <- app_assoc.
Qed.

(** [edit_text], which reads [self.filename], works on the file of the
    last [open_pdf] that succeeded: after any session on a new editor it
    opens that path, whatever was tried later, and it opens [None] when no
    call succeeded. *)
Theorem edit_opens_the_last_file_that_opened calls n old_text new_text
    (s : Sys W) :
  let self := open_each Y calls __init__ in
  ∃ evs,
    log (PDFEditor.edit_text P F (filename self) n old_text new_text s).1
    = log s ++ EvOpen (fst <$> last (accepted Y calls)) :: evs.
Proof.
  cbv zeta.
  pose proof (open_each_attributes calls) as H. cbv zeta in H.
  destruct (last (accepted Y calls)) as [[pdf_path w]|];
    destruct H as [-> _]; apply edit_text_opens.
Qed.

(** [get_page_text] returns a text exactly when the last [open_pdf] that
    succeeded gave a reader that has the page and extracts its text. *)
Theorem page_text_is_read_from_the_last_file_that_opened calls n text :
  get_page_text Y n (open_each Y calls __init__) = Some text ↔
  ∃ pdf_path w reader page,
    last (accepted Y calls) = Some (pdf_path, w) ∧
    pdf_reader Y pdf_path w = Ok reader ∧
    reader_truthy Y reader = true ∧
    pages_getitem Y reader n = Ok page ∧
    extract_text Y page = Ok text.
Proof.
  pose proof (open_each_attributes calls) as H. cbv zeta in H.
  unfold get_page_text, no_document, page_of.
  destruct (last (accepted Y calls)) as [[pdf_path w]|].
  - destruct H as (_ & reader & Hopen & ->). split.
    + destruct (reader_truthy Y reader) eqn:Htruthy; [|done]. cbn [negb].
      destruct (pages_getitem Y reader n) as [page|e] eqn:Hpage; [|done].
      cbn. destruct (extract_text Y page) as [t|e] eqn:Htext; [|done].
      intros [= ->]. by exists pdf_path, w, reader, page.
    + intros (? & ? & reader' & page & [= <- <-] & Hopen' & Htruthy & Hpage & Htext).
      rewrite Hopen in Hopen'. injection Hopen' as <-.
      rewrite Htruthy, Hpage. cbn. by rewrite Htext.
  - destruct H as [_ ->]. split; [done|]. by intros (? & ? & ? & ? & [=] & _).
Qed.

Lemma is_ok_unit (r : Res ()) : is_ok r = true → r = Ok ().
Proof. by destruct r as [[]|]. Qed.

(** [save_pdf] touches the file system only once every page of the open
    reader has been added to the writer; it returns [True] only after the
    output was opened, written and closed, in that order. *)
Theorem save_pdf_opens_the_output_with_every_page output_path
    (self : Editor R) (w : W) :
  let run := save_pdf Y output_path self w in
  run.1 ≠ w ∨ run.2 = true →
  ∃ reader pages writer0 writer,
    current_pdf self = Some reader ∧
    pages_iter Y reader = (pages, None) ∧
    pdf_writer Y = Ok writer0 ∧
    add_pages Y pages writer0 = Ok writer ∧
    (run.2 = true →
     ∃ w1 w2,
       open_wb Y output_path w = (w1, Ok ()) ∧
       writer_write Y writer output_path w1 = (w2, Ok ()) ∧
       close_file Y output_path w2 = (run.1, Ok ())).
Proof.
  cbv zeta. unfold save_pdf, collect_pages, no_document.
  destruct (current_pdf self) as [reader|]; [|intros [?|?]; done].
  destruct (negb (reader_truthy Y reader)); [intros [?|?]; done|].
  destruct (pdf_writer Y) as [writer0|e]; [|intros [?|?]; done]. cbn.
  destruct (pages_iter Y reader) as [pages raised] eqn:Hiter.
  destruct (add_pages Y pages writer0) as [writer|e] eqn:Hadd;
    [|intros [?|?]; done]. cbn.
  destruct raised as [e|]; [intros [?|?]; done|].
  intros _. exists reader, pages, writer0, writer. do 4 (split; [done|]).
  destruct (open_wb Y output_path w) as [w1 [[]|e]] eqn:Hopen; [|done].
  destruct (writer_write Y writer output_path w1) as [w2 written] eqn:Hwrite.
  destruct (close_file Y output_path w2) as [w3 closed] eqn:Hclose. cbn.
  intros [->%is_ok_unit ->%is_ok_unit]%andb_prop. by exists w1, w2.
Qed.

End ObjectFacts.

(** ** Concrete runs on the scripted disk *)

Section DiskRuns.

Import PDFEditor.

Lemma sample_joins_nonempty : joins_nonempty Sample.linux.
Proof. intros root file _. cbn. by destruct root. Qed.

Lemma sample_holds_roboto :
  holds_font Sample.linux SampleDisk.with_fonts "Roboto" "/usr/share/fonts".
Proof.
  exists "/usr/share/fonts", ["DejaVuSans.ttf"; "Roboto-Regular.ttf"],
    "Roboto-Regular.ttf".
  split; [apply (bool_decide_unpack _); by vm_compute|].
  split; [apply (bool_decide_unpack _); by vm_compute|by vm_compute].
Qed.

Lemma save_directory_is_scanned_witness :
  ∃ d, FontManager.get_font_save_directory Sample.linux = Ok d ∧
       d ∈ SampleDisk.linux_font_dirs.
Proof.
  exact (save_directory_is_scanned Sample.linux SampleDisk.linux_font_dirs eq_refl).
Defined.

Lemma downloaded_font_is_found_again_witness :
  ∃ path,
    FontManager._search_font_in_directory Sample.linux
      "/home/user/.local/share/fonts" (PStr "Roboto") SampleDisk.booted
    = (mkSys SampleDisk.with_fonts [EvWalk "/home/user/.local/share/fonts"],
       Ok (Some path)).
Proof.
  exact (downloaded_font_is_found_again Sample.linux "Roboto" "font/ttf"
           "/home/user/.local/share/fonts" "/home/user/.local/share/fonts"
           ["Roboto.ttf"] SampleDisk.booted
           ltac:(by vm_compute) ltac:(by vm_compute)
           ltac:(apply (bool_decide_unpack _); by vm_compute)
           ltac:(apply (bool_decide_unpack _); by vm_compute)).
Defined.

Lemma system_scan_returns_a_matching_file_witness :
  "/usr/share/fonts/Roboto-Regular.ttf" ≠ "" ∧
  ∃ d root files file,
    d ∈ SampleDisk.linux_font_dirs ∧
    path_exists Sample.linux d SampleDisk.with_fonts = true ∧
    (root, files) ∈ walk Sample.linux d SampleDisk.with_fonts ∧ file ∈ files ∧
    FontManager.file_matches (normalized "Roboto") file = true ∧
    "/usr/share/fonts/Roboto-Regular.ttf" = path_join Sample.linux root [file].
Proof.
  exact (system_scan_returns_a_matching_file Sample.linux "Roboto"
           SampleDisk.linux_font_dirs SampleDisk.booted
           (mkSys SampleDisk.with_fonts
              [EvExists "/usr/share/fonts"; EvWalk "/usr/share/fonts"])
           "/usr/share/fonts/Roboto-Regular.ttf"
           eq_refl ltac:(by vm_compute)).
Defined.

Lemma system_scan_hits_iff_a_directory_holds_the_font_witness :
  (∃ path, (FontManager.find_font_in_system Sample.linux (PStr "Roboto")
              SampleDisk.booted).2 = Ok (Some path)) ↔
  (∃ d, d ∈ SampleDisk.linux_font_dirs ∧
        path_exists Sample.linux d SampleDisk.with_fonts = true ∧
        holds_font Sample.linux SampleDisk.with_fonts "Roboto" d).
Proof.
  exact (system_scan_hits_iff_a_directory_holds_the_font Sample.linux "Roboto"
           SampleDisk.linux_font_dirs SampleDisk.booted
           sample_joins_nonempty eq_refl).
Defined.

Lemma system_scan_prefers_earlier_directories_witness :
  ∃ path root files file,
    (FontManager.find_font_in_system Sample.linux (PStr "Roboto")
       SampleDisk.booted).2 = Ok (Some path) ∧
    (root, files) ∈ walk Sample.linux "/usr/share/fonts" SampleDisk.with_fonts ∧
    file ∈ files ∧
    FontManager.file_matches (normalized "Roboto") file = true ∧
    path = path_join Sample.linux root [file].
Proof.
  refine (system_scan_prefers_earlier_directories Sample.linux "Roboto" []
            "/usr/share/fonts"
            ["/usr/local/share/fonts"; "/home/user/.fonts";
             "/home/user/.local/share/fonts"]
            SampleDisk.booted sample_joins_nonempty eq_refl _ eq_refl
            sample_holds_roboto).
  intros d' Hd'. by apply elem_of_nil in Hd'.
Defined.

Lemma font_on_disk_needs_no_network_witness :
  ∃ s' path evs,
    FontManager.find_font Sample.linux (PStr "Roboto") SampleDisk.booted
    = (s', Ok (Some path)) ∧
    world s' = SampleDisk.with_fonts ∧
    log s' = EvFindFont (PStr "Roboto") :: evs ∧
    Forall (λ ev, is_scan_event ev = true) evs.
Proof.
  refine (font_on_disk_needs_no_network Sample.linux "Roboto"
            SampleDisk.linux_font_dirs "/usr/share/fonts" SampleDisk.booted
            sample_joins_nonempty eq_refl _ eq_refl sample_holds_roboto).
  apply (bool_decide_unpack _). by vm_compute.
Defined.

Lemma downloaded_path_was_written_witness :
  ∃ w1 css_response font_url w2 font_response directory w3,
    requests_get Sample.linux (css_url_of "Roboto") (Sample.disk true)
      = (w1, Ok css_response) ∧
    status_code css_response = 200 ∧
    FontManager._extract_font_url (text css_response) = Some font_url ∧
    requests_get Sample.linux font_url w1 = (w2, Ok font_response) ∧
    status_code font_response = 200 ∧
    FontManager.get_font_save_directory Sample.linux = Ok directory ∧
    makedirs Sample.linux directory w2 = (w3, Ok ()) ∧
    "/home/user/.local/share/fonts/Roboto.ttf"
      = saved_path Sample.linux directory "Roboto" font_response ∧
    (∃ ext, ext ∈ FontManager.font_extensions ∧
            "/home/user/.local/share/fonts/Roboto.ttf"
            = path_join Sample.linux directory
                [Str.replace "Roboto" " " "_" +:+ ext]) ∧
    write_file Sample.linux "/home/user/.local/share/fonts/Roboto.ttf"
      (content font_response) w3
    = (world (FontManager.download_google_font Sample.linux (PStr "Roboto")
                (Sample.start true)).1, Ok ()) ∧
    log (FontManager.download_google_font Sample.linux (PStr "Roboto")
           (Sample.start true)).1
    = [] ++ [EvHttpGet (css_url_of "Roboto"); EvHttpGet font_url;
             EvMakedirs directory;
             EvWriteFile "/home/user/.local/share/fonts/Roboto.ttf"].
Proof.
  exact (downloaded_path_was_written Sample.linux "Roboto" (Sample.start true)
           (FontManager.download_google_font Sample.linux (PStr "Roboto")
              (Sample.start true)).1
           "/home/user/.local/share/fonts/Roboto.ttf" ltac:(by vm_compute)).
Defined.

Lemma extract_copies_the_first_span_witness :
  ∃ properties,
    get_text_properties (Sample.fitz Sample.roboto) 0%nat Sample.hit1
      (Sample.opened true)
    = (logged (EvGetText Sample.hit1) (Sample.opened true), Ok (Some properties)) ∧
    ∀ key, properties !! key =
           if bool_decide (key ∈ ["font"; "size"; "color"])
           then match (<["font" := PStr "Roboto"]>
                         (<["size" := PFloat 12]> (<["color" := PInt 0]> ∅))
                       : gmap string PyVal) !! key with
                | Some v => Some v
                | None => default_properties !! key
                end
           else None.
Proof.
  exact (extract_copies_the_first_span (Sample.fitz Sample.roboto) 0%nat
           Sample.hit1 (Sample.opened true) _ _ [] _ [] _ []
           eq_refl ltac:(by vm_compute) ltac:(by vm_compute) ltac:(by vm_compute)).
Defined.

Lemma save_pdf_opens_the_output_with_every_page_witness :
  ∃ reader pages writer0 writer,
    PDFEditorObject.current_pdf SampleDisk.session = Some reader ∧
    pages_iter SampleDisk.pypdf2 reader = (pages, None) ∧
    pdf_writer SampleDisk.pypdf2 = Ok writer0 ∧
    PDFEditorObject.add_pages SampleDisk.pypdf2 pages writer0 = Ok writer ∧
    ((PDFEditorObject.save_pdf SampleDisk.pypdf2 "copy.pdf" SampleDisk.session
        SampleDisk.with_fonts).2 = true →
     ∃ w1 w2,
       open_wb SampleDisk.pypdf2 "copy.pdf" SampleDisk.with_fonts = (w1, Ok ()) ∧
       writer_write SampleDisk.pypdf2 writer "copy.pdf" w1 = (w2, Ok ()) ∧
       close_file SampleDisk.pypdf2 "copy.pdf" w2
       = ((PDFEditorObject.save_pdf SampleDisk.pypdf2 "copy.pdf"
             SampleDisk.session SampleDisk.with_fonts).1, Ok ())).
Proof.
  exact (save_pdf_opens_the_output_with_every_page SampleDisk.pypdf2 "copy.pdf"
           SampleDisk.session SampleDisk.with_fonts (or_intror eq_refl)).
Defined.

(** The whole run on the two-match sample, and the match of C4. *)
Lemma insertion_point_is_baseline_adjusted_witness :
  ed_log (replace_instance Sample.linux (Sample.fitz Sample.all_good) 0%nat
            "redacted" Sample.hit1 (Sample.opened true)).1
  = [EvGetText Sample.hit1; EvRedactAnnot Sample.hit1; EvApplyRedactions;
     EvInsertText (insertion_point Sample.hit1 12) "redacted" (PStr "helv")
       (PFloat 12) (PInt 0)].
Proof.
  refine (proj2 (proj1 (insertion_point_is_baseline_adjusted Sample.linux
                          (Sample.fitz Sample.all_good)
                          (Some "examples/example.pdf") 0 "sensitive" "redacted"
                          (Sample.start true) (Sample.mkDoc 1 []) 0%nat
                          [Sample.hit1; Sample.hit2] eq_refl eq_refl eq_refl)
                   Sample.hit1 (Sample.opened true)
                   (extracted_properties
                      (Sample.text_dict_of (Sample.span_dict "helv" 12)))
                   (PFloat 12) 12%float
                   (Sample.mkDoc 1 [EvRedactAnnot Sample.hit1])
                   (Sample.mkDoc 1 [EvRedactAnnot Sample.hit1; EvApplyRedactions])
                   _ _ eq_refl eq_refl eq_refl)
            "helv" (PInt 0) _ _ _).
  - by vm_compute.
  - by vm_compute.
  - by vm_compute.
  - apply (bool_decide_unpack _). by vm_compute.
  - by vm_compute.
Defined.

(** The whole run on the two-match sample: each match is drawn at its own
    insertion point. *)
Example sample_edit_draws_at_each_match :
  log (edit_text Sample.linux (Sample.fitz Sample.all_good)
         (Some "examples/example.pdf") 0 "sensitive" "redacted"
         (Sample.start true)).1
  = [EvOpen (Some "examples/example.pdf"); EvLoadPage 0; EvSearch "sensitive";
     EvGetText Sample.hit1; EvRedactAnnot Sample.hit1; EvApplyRedactions;
     EvInsertText (insertion_point Sample.hit1 12) "redacted" (PStr "helv")
       (PFloat 12) (PInt 0);
     EvGetText Sample.hit2; EvRedactAnnot Sample.hit2; EvApplyRedactions;
     EvInsertText (insertion_point Sample.hit2 12) "redacted" (PStr "helv")
       (PFloat 12) (PInt 0);
     EvSave "examples/example_edited.pdf"].
Proof. by vm_compute. Qed.

Example sample_insertion_points :
  insertion_point Sample.hit1 12 = mkPoint 100 62.96 ∧
  insertion_point Sample.hit2 12 = mkPoint 100 162.96.
Proof. by vm_compute. Qed.

End DiskRuns.
